(** * EverythingBatchSearch: the batch search-and-process pipeline

    A shallow embedding of [everything_batch.py]: the worker function
    [search_single_file], the methods [log], [read_input_file],
    [process_file] and [process_files] of [EverythingSearcher], and the
    parts of the Python runtime they rely on ([str.strip],
    [str.splitlines], text-file iteration, [ntpath]).

    Python strings are modelled as [string]; a character is one of the
    256 code points of Latin-1. *)

From Stdlib Require Import Ascii.
From stdpp Require Import base option list strings gmap.

(** ** Python [str] methods *)
Module PyStr.
Local Open Scope char_scope.

(** [str.isspace] on one character (code points below 256). *)
Definition isspace (c : ascii) : bool :=
  match c with
  | "009" | "010" | "011" | "012" | "013"
  | "028" | "029" | "030" | "031" | " " | "133" | "160" => true
  | _ => false
  end.

(** The truth value of a string: empty strings are falsy. *)
Definition truthy (s : string) : bool :=
  match s with EmptyString => false | String _ _ => true end.

Fixpoint lstrip_by (p : ascii -> bool) (s : string) : string :=
  match s with
  | EmptyString => EmptyString
  | String c s' => if p c then lstrip_by p s' else s
  end.

Definition rstrip_by (p : ascii -> bool) (s : string) : string :=
  String.rev (lstrip_by p (String.rev s)).

(** [s.strip()] *)
Definition strip (s : string) : string :=
  rstrip_by isspace (lstrip_by isspace s).

(** The characters [str.splitlines] breaks a line at, other than a
    carriage return (which may be followed by a line feed). *)
Definition is_linebreak (c : ascii) : bool :=
  match c with
  | "010" | "011" | "012" | "028" | "029" | "030" | "133" => true
  | _ => false
  end.

(** [s.splitlines()]: the lines of [s] without their terminators; a
    terminator at the very end opens no further line. [cur] is the
    line read so far, reversed. *)
Fixpoint splitlines_go (cur : string) (s : string) : list string :=
  match s with
  | EmptyString =>
      match cur with EmptyString => [] | _ => [String.rev cur] end
  | String c s' =>
      if Ascii.eqb c "013" then
        match s' with
        | String "010" s'' => String.rev cur :: splitlines_go EmptyString s''
        | _ => String.rev cur :: splitlines_go EmptyString s'
        end
      else if is_linebreak c then
        String.rev cur :: splitlines_go EmptyString s'
      else splitlines_go (String c cur) s'
  end.

Definition splitlines (s : string) : list string :=
  splitlines_go EmptyString s.

(** Iterating over a file opened in text mode with the default
    [newline=None]: lines end at a line feed, a carriage return or
    both, each read back as one line feed that stays on the line. *)
Fixpoint iter_lines_go (cur : string) (s : string) : list string :=
  match s with
  | EmptyString =>
      match cur with EmptyString => [] | _ => [String.rev cur] end
  | String c s' =>
      if Ascii.eqb c "013" then
        match s' with
        | String "010" s'' =>
            String.rev (String "010" cur) :: iter_lines_go EmptyString s''
        | _ => String.rev (String "010" cur) :: iter_lines_go EmptyString s'
        end
      else if Ascii.eqb c "010" then
        String.rev (String "010" cur) :: iter_lines_go EmptyString s'
      else iter_lines_go (String c cur) s'
  end.

Definition iter_lines (s : string) : list string :=
  iter_lines_go EmptyString s.

Fixpoint take (n : nat) (s : string) : string :=
  match n, s with
  | S k, String c s' => String c (take k s')
  | _, _ => EmptyString
  end.

Fixpoint drop (n : nat) (s : string) : string :=
  match n, s with
  | S k, String _ s' => drop k s'
  | _, _ => s
  end.

(** The last character, if any ([s[-1:]]). *)
Definition last (s : string) : option ascii :=
  match String.rev s with EmptyString => None | String c _ => Some c end.

(** [s.lower()] on Latin-1: the letters A-Z and the accented capitals
    192-222 (the multiplication sign 215 apart) move up by 32. *)
Definition lower_char (c : ascii) : ascii :=
  let n := nat_of_ascii c in
  if ((65 <=? n) && (n <=? 90)
      || (192 <=? n) && (n <=? 222) && negb (n =? 215))%nat
  then ascii_of_nat (n + 32) else c.

Fixpoint lower (s : string) : string :=
  match s with
  | EmptyString => EmptyString
  | String c s' => String (lower_char c) (lower s')
  end.

End PyStr.

(** ** [os.path] on Windows ([ntpath], as of CPython 3.11) *)
Module NtPath.
Local Open Scope char_scope.

(** [os.sep] *)
Definition sep : ascii := "\".

(** membership in [seps = '\\/'] *)
Definition is_sep (c : ascii) : bool :=
  match c with "\" | "/" => true | _ => false end.

(** [normp.find(sep, start)] where [normp] is [s] with every [/] replaced
    by a backslash: the first index at or after [start] holding a
    separator of either kind. *)
Fixpoint find_sep (start : nat) (s : string) : option nat :=
  match s with
  | EmptyString => None
  | String c s' =>
      match start with
      | 0 => if is_sep c then Some 0 else S <$> find_sep 0 s'
      | S k => S <$> find_sep k s'
      end
  end.

(** [normp[:8].upper() == '\\\\?\\UNC\\'] *)
Definition has_unc_prefix (s : string) : bool :=
  match s with
  | String c0 (String c1 (String c2 (String c3 (String c4
      (String c5 (String c6 (String c7 _))))))) =>
      is_sep c0 && is_sep c1 && Ascii.eqb c2 "?" && is_sep c3
      && (Ascii.eqb c4 "U" || Ascii.eqb c4 "u")
      && (Ascii.eqb c5 "N" || Ascii.eqb c5 "n")
      && (Ascii.eqb c6 "C" || Ascii.eqb c6 "c")
      && is_sep c7
  | _ => false
  end.

(** [ntpath.splitdrive(p)] *)
Definition splitdrive (p : string) : string * string :=
  match p with
  | String c0 (String c1 _) =>
      if is_sep c0 && is_sep c1 then
        let start := if has_unc_prefix p then 8 else 2 in
        match find_sep start p with
        | None => (p, EmptyString)
        | Some index =>
            match find_sep (index + 1) p with
            | None => (p, EmptyString)
            | Some index2 => (PyStr.take index2 p, PyStr.drop index2 p)
            end
        end
      else if Ascii.eqb c1 ":" then (PyStr.take 2 p, PyStr.drop 2 p)
      else (EmptyString, p)
  | _ => (EmptyString, p)
  end.

Definition starts_with_sep (s : string) : bool :=
  match s with String c _ => is_sep c | EmptyString => false end.

Definition ends_with_sep (s : string) : bool :=
  match PyStr.last s with Some c => is_sep c | None => false end.

(** [ntpath.join(path, p)] with one further component. *)
Definition join (path p : string) : string :=
  let '(result_drive, result_path) := splitdrive path in
  let '(p_drive, p_path) := splitdrive p in
  let '(result_drive, result_path) :=
    if starts_with_sep p_path then
      (* the second path is absolute *)
      (if PyStr.truthy p_drive || negb (PyStr.truthy result_drive)
       then p_drive else result_drive, p_path)
    else if PyStr.truthy p_drive && negb (String.eqb p_drive result_drive)
            && negb (String.eqb (PyStr.lower p_drive) (PyStr.lower result_drive))
    then (* different drives: the first path is ignored *)
      (p_drive, p_path)
    else
      let result_drive :=
        if PyStr.truthy p_drive && negb (String.eqb p_drive result_drive)
        then p_drive else result_drive in
      let result_path :=
        if PyStr.truthy result_path && negb (ends_with_sep result_path)
        then result_path +:+ String sep EmptyString else result_path in
      (result_drive, result_path +:+ p_path) in
  if PyStr.truthy result_path && negb (starts_with_sep result_path)
     && PyStr.truthy result_drive
     && negb (bool_decide (PyStr.last result_drive = Some ":"))
  then result_drive +:+ String sep result_path
  else result_drive +:+ result_path.

(** [ntpath.dirname(p)], the head of [ntpath.split(p)]. *)
Definition dirname (p : string) : string :=
  let '(d, p) := splitdrive p in
  let head :=
    String.rev (PyStr.lstrip_by (fun c => negb (is_sep c)) (String.rev p)) in
  let stripped := PyStr.rstrip_by is_sep head in
  d +:+ (if PyStr.truthy stripped then stripped else head).

End NtPath.


(** ** What a run can be observed to do *)

(** The value of [self.lang.get_string(key)]. *)
Inductive Template := GetString (key : string).

(** Arguments given to [str.format]. *)
Inductive Arg :=
| ArgInt (n : nat)
| ArgError                                      (* [str(e)] *)
| ArgJoin (items : list (Template * option nat)). (* [", ".join(actions)] *)

(** The strings handed to [log]. *)
Inductive Message :=
| Plain (t : Template)
| Format (t : Template) (args : list Arg)       (* [t.format(args)] *)
| Heading (t : Template)                        (* ["\n" + t] *)
| Bullet (filename : string)                    (* [f"- {filename}"] *)
| FullPath (full_path : string)                 (* [f"{full_path}"] *)
| ReadError                                     (* [f"Error reading input file: {str(e)}"] *)
| ProcessError (source_path : string).          (* [f"Error processing {source_path}: {str(e)}"] *)

(** Calls that change the file system; each may raise. *)
Inductive FsOp :=
| OsRemove (path : string)
| OsMakedirs (path : string)                    (* [exist_ok=True] *)
| ShutilCopy2 (src dst : string)
| ShutilMove (src dst : string)
| LogAppend (log_dir : string) (m : Message).   (* the open-append-close of [log] *)

(** A found file: the requested filename and the path found for it. *)
Definition FoundFile : Type := string * string.

Inductive Event :=
| EvLog (m : Message)                           (* [print(message)] and the log callback *)
| EvFs (op : FsOp) (ok : bool)
| EvProgress (phase : string) (current total : nat)
| EvCompile (pattern : string)                  (* [re.compile] in [process_files] *)
| EvSubmitSearch (filename : string) (regex_pattern : option string)
| EvSubmitProcess (file_info : FoundFile).

(** [subprocess.run(cmd, capture_output=True, text=True)] *)
Inductive Completed :=
| RunRaised                                     (* e.g. [FileNotFoundError] *)
| RunExited (returncode : Z) (stdout : string).

(** What a call, or a future, ends with. *)
Inductive Result (A : Type) :=
| Ok (a : A)
| Raised.
Arguments Ok {A} a.
Arguments Raised {A}.

(** The collaborators of the pipeline: the [re] module, the external
    search provider behind [subprocess.run] and the file system. [None]
    from [re_compile] is [re.error]; [None] from [open_read] is any
    exception while opening or reading. *)
Class Runtime := {
  World : Type;
  Regex : Type;
  Lang : Type;
  re_compile : string -> option Regex;
  re_search : Regex -> string -> bool;
  re_compile_empty : forall r s, re_compile "" = Some r -> re_search r s = true;
  subprocess_run : list string -> World -> Completed;
  open_read : string -> World -> option string;
  fs_exec : FsOp -> World -> bool * World;
}.

(** The truth value of an optional string argument ([None] and [""] are falsy). *)
Definition py_truthy (o : option string) : bool :=
  match o with Some s => PyStr.truthy s | None => false end.

(** [[line.strip() for line in lines if line.strip()]] *)
Definition stripped_lines (lines : list string) : list string :=
  PyStr.strip <$> List.filter (fun line => PyStr.truthy (PyStr.strip line)) lines.

(** The completion orders of one run: [search_done] and [action_done] are
    the orders in which [as_completed] yields the futures of the two
    pools, [action_run] the order in which the workers run the actions.
    Each lists positions in the list of submitted futures. *)
Record Schedule := {
  search_done : list nat;
  action_run : list nat;
  action_done : list nat;
}.

Definition valid_order (n : nat) (order : list nat) : Prop :=
  order ≡ₚ seq 0 n.

(** [return a] *)
Abbreviation ret := mret.

Section Pipeline.
Context `{RT : Runtime}.

(** *** Effects: a world, a result that may be an exception, a trace *)
Definition M (A : Type) : Type := World -> Result A * World * list Event.

#[export] Instance M_ret : MRet M := fun A a w => (Ok a, w, []).

#[export] Instance M_bind : MBind M := fun A B f m w =>
  match m w with
  | (Ok a, w', t) => let '(r, w'', t') := f a w' in (r, w'', t ++ t')
  | (Raised, w', t) => (Raised, w', t)
  end.

Definition raise {A} : M A := fun w => (Raised, w, []).

Definition emit (e : Event) : M unit := fun w => (Ok tt, w, [e]).

Definition get_world : M World := fun w => (Ok w, w, []).

(** A file-system call: raises when the call fails. *)
Definition fs (op : FsOp) : M unit := fun w =>
  let '(ok, w') := fs_exec op w in
  (if ok then Ok tt else Raised, w', [EvFs op ok]).

(** [try: body except Exception: handler] *)
Definition try_except {A} (body handler : M A) : M A := fun w =>
  match body w with
  | (Raised, w', t) => let '(r, w'', t') := handler w' in (r, w'', t ++ t')
  | done => done
  end.

(** Running a call inside a future: an exception is kept as the result. *)
Definition capture {A} (m : M A) : M (Result A) := fun w =>
  let '(r, w', t) := m w in (Ok r, w', t).

(** [for x in l: s = body(x, s)] *)
Fixpoint for_each {A S} (l : list A) (body : A -> S -> M S) (s : S) : M S :=
  match l with
  | [] => ret s
  | x :: l' => s' ← body x s; for_each l' body s'
  end.

Definition result_of {A} (x : Result A * World * list Event) : Result A := x.1.1.
Definition world_of {A} (x : Result A * World * list Event) : World := x.1.2.
Definition trace_of {A} (x : Result A * World * list Event) : list Event := x.2.

(** *** [search_single_file] *)
Definition es_command (filename : string) : list string :=
  ["es.exe"; "-full-path-and-name"; filename].

Definition search_single_file (filename : string) (regex_pattern : option string)
    (w : World) : list FoundFile :=
  match subprocess_run (es_command filename) w with
  | RunExited returncode stdout =>
      if (returncode =? 0)%Z then
        let paths := stripped_lines (PyStr.splitlines stdout) in
        match regex_pattern with
        | Some pattern =>
            if PyStr.truthy pattern then
              match re_compile pattern with
              | Some regex =>
                  (fun path => (filename, path)) <$> List.filter (re_search regex) paths
              | None => []
              end
            else (fun path => (filename, path)) <$> paths
        | None => (fun path => (filename, path)) <$> paths
        end
      else []
  | RunRaised => []
  end.

(** *** [EverythingSearcher] *)
Record EverythingSearcher := {
  input_file : option string;
  input_text : option string;
  copy_path : option string;
  move_path : option string;
  log_path : option string;
  match_folder_structure : bool;
  delete_mode : bool;
  regex_filter : option string;
  lang : option Lang;
  found_files : list FoundFile;
  processed_files : list FoundFile;
  failed_files : list FoundFile;
}.

Definition set_found_files (self : EverythingSearcher) (l : list FoundFile) :=
  {| input_file := input_file self; input_text := input_text self;
     copy_path := copy_path self; move_path := move_path self;
     log_path := log_path self;
     match_folder_structure := match_folder_structure self;
     delete_mode := delete_mode self; regex_filter := regex_filter self;
     lang := lang self; found_files := l;
     processed_files := processed_files self;
     failed_files := failed_files self |}.

Definition set_processed_files (self : EverythingSearcher) (l : list FoundFile) :=
  {| input_file := input_file self; input_text := input_text self;
     copy_path := copy_path self; move_path := move_path self;
     log_path := log_path self;
     match_folder_structure := match_folder_structure self;
     delete_mode := delete_mode self; regex_filter := regex_filter self;
     lang := lang self; found_files := found_files self;
     processed_files := l;
     failed_files := failed_files self |}.

Definition set_failed_files (self : EverythingSearcher) (l : list FoundFile) :=
  {| input_file := input_file self; input_text := input_text self;
     copy_path := copy_path self; move_path := move_path self;
     log_path := log_path self;
     match_folder_structure := match_folder_structure self;
     delete_mode := delete_mode self; regex_filter := regex_filter self;
     lang := lang self; found_files := found_files self;
     processed_files := processed_files self;
     failed_files := l |}.

(** [__init__]: the three result lists start empty and the configured
    directories are created. *)
Definition init (input_file input_text copy_path move_path log_path : option string)
    (match_folder_structure delete_mode : bool) (regex_filter : option string)
    (lang : option Lang) : M EverythingSearcher :=
  let makedirs (o : option string) : M unit :=
    match o with
    | Some d => if PyStr.truthy d then fs (OsMakedirs d) else ret tt
    | None => ret tt
    end in
  makedirs log_path;;
  makedirs copy_path;;
  makedirs move_path;;
  ret {| input_file := input_file; input_text := input_text;
         copy_path := copy_path; move_path := move_path; log_path := log_path;
         match_folder_structure := match_folder_structure;
         delete_mode := delete_mode; regex_filter := regex_filter; lang := lang;
         found_files := []; processed_files := []; failed_files := [] |}.

(** What [__init__] is given; no method assigns to these attributes. *)
Definition config (self : EverythingSearcher) :=
  (input_file self, input_text self, copy_path self, move_path self,
   log_path self, match_folder_structure self, delete_mode self,
   regex_filter self, lang self).

(** An object as [__init__] leaves it. *)
Definition fresh (self : EverythingSearcher) : Prop :=
  found_files self = [] /\ processed_files self = [] /\ failed_files self = [].

(** [log]: print, call the log callback (its exceptions are swallowed),
    and append to the log file when a log directory is set. *)
Definition log (self : EverythingSearcher) (message : Message) : M unit :=
  emit (EvLog message);;
  match log_path self with
  | Some d => if PyStr.truthy d then fs (LogAppend d message) else ret tt
  | None => ret tt
  end.

(** [update_progress]: exceptions of the callback are swallowed. *)
Definition update_progress (phase : string) (current total : nat) : M unit :=
  emit (EvProgress phase current total).

(** [self.lang.get_string(key)]; without a language manager the
    attribute access raises. *)
Definition get_string (self : EverythingSearcher) (key : string) : M Template :=
  match lang self with
  | Some _ => ret (GetString key)
  | None => raise
  end.

(** [read_input_file] *)
Definition read_input_file (self : EverythingSearcher) : M (list string) :=
  if py_truthy (input_text self) then
    ret (stripped_lines (PyStr.splitlines (default "" (input_text self))))
  else if negb (py_truthy (input_file self)) then ret []
  else
    w ← get_world;
    match open_read (default "" (input_file self)) w with
    | Some content => ret (stripped_lines (PyStr.iter_lines content))
    | None => log self ReadError;; ret []
    end.

(** [process_file] *)
Definition structured_dest (root source_path : string) : string :=
  let rel_path :=
    PyStr.lstrip_by (Ascii.eqb NtPath.sep) (NtPath.splitdrive source_path).2 in
  NtPath.join root rel_path.

Definition process_file (self : EverythingSearcher) (file_info : FoundFile) : M bool :=
  let '(filename, source_path) := file_info in
  try_except
    (if delete_mode self then
       fs (OsRemove source_path);;
       ret true
     else
       (if py_truthy (copy_path self) then
          let copy_path := default "" (copy_path self) in
          if match_folder_structure self then
            let dest_dir := structured_dest copy_path source_path in
            fs (OsMakedirs (NtPath.dirname dest_dir));;
            fs (ShutilCopy2 source_path dest_dir)
          else
            let dest := NtPath.join copy_path filename in
            fs (ShutilCopy2 source_path dest)
        else ret tt);;
       (if py_truthy (move_path self) then
          let move_path := default "" (move_path self) in
          if match_folder_structure self then
            let dest_dir := structured_dest move_path source_path in
            fs (OsMakedirs (NtPath.dirname dest_dir));;
            fs (ShutilMove source_path dest_dir)
          else
            let dest := NtPath.join move_path filename in
            fs (ShutilMove source_path dest)
        else ret tt);;
       ret true)
    (log self (ProcessError source_path);;
     ret false).

(** *** [process_files] *)

(** The regex is compiled once to validate it. [true]: go on. Only
    [re.error] is caught here. A pattern on which [re.compile] raises
    another exception (an [OverflowError] for a repeat count beyond the
    limit of the engine) is not among those [re_compile] describes: the
    run raises at this point, before any search. *)
Definition validate_regex (self : EverythingSearcher) : M bool :=
  if py_truthy (regex_filter self) then
    let pattern := default "" (regex_filter self) in
    emit (EvCompile pattern);;
    match re_compile pattern with
    | Some _ => ret true
    | None =>
        t ← get_string self "errors.invalid_regex";
        log self (Format t [ArgError]);;
        ret false
    end
  else ret true.

(** One turn of the loop over [as_completed(search_futures)];
    [search_futures] holds what each call of [search_single_file]
    returns. The state is the object, [processed_files] (the local
    counter) and [found_count]. *)
Definition gather_step (search_futures : list (list FoundFile)) (total_files : nat)
    (future : nat) (st : EverythingSearcher * nat * nat)
    : M (EverythingSearcher * nat * nat) :=
  let '(self, processed, found_count) := st in
  let processed := processed + 1 in
  match search_futures !! future with
  | Some results =>
      let '(self, found_count) :=
        match results with
        | [] => (self, found_count)
        | _ => (set_found_files self (found_files self ++ results),
                found_count + length results)
        end in
      update_progress "search" processed total_files;;
      ret (self, processed, found_count)
  | None => raise
  end.

(** The loop; it yields the object and [found_count]. *)
Definition gather_found (search_futures : list (list FoundFile)) (total_files : nat)
    (done : list nat) (self : EverythingSearcher) : M (EverythingSearcher * nat) :=
  '(self, _, found_count) ←
    for_each done (gather_step search_futures total_files) (self, 0, 0);
  ret (self, found_count).

(** The search pool: one future per filename, taken in the order they
    complete. The provider is asked in the world the pool starts in. *)
Definition search_pool (self : EverythingSearcher) (filenames : list string)
    (sched : Schedule) : M (EverythingSearcher * nat) :=
  for_each filenames
    (fun filename _ => emit (EvSubmitSearch filename (regex_filter self))) tt;;
  w ← get_world;
  let search_futures :=
    (fun filename => search_single_file filename (regex_filter self) w) <$> filenames in
  gather_found search_futures (length filenames) (search_done sched) self.

(** The workers of the action pool run [process_file] on the found files,
    one call at a time in the order [order]; each future keeps what its
    call returned or that it raised. *)
Definition run_workers (self : EverythingSearcher) (order : list nat)
    : M (gmap nat (Result bool)) :=
  for_each order
    (fun i outcomes =>
       match found_files self !! i with
       | Some file_info =>
           r ← capture (process_file self file_info);
           ret (<[i:=r]> outcomes)
       | None => ret outcomes
       end)
    ∅.

(** One turn of the loop over [as_completed(process_futures)]:
    [future.result()] re-raises what the call raised; the entry recorded
    is [self.found_files[processed_count - 1]]. *)
Definition collect_step (phase : string) (outcomes : gmap nat (Result bool))
    (future : nat) (st : EverythingSearcher * nat) : M (EverythingSearcher * nat) :=
  let '(self, processed_count) := st in
  let processed_count := processed_count + 1 in
  match (outcomes !! future : option (Result bool)) with
  | Some (Ok result) =>
      match found_files self !! (processed_count - 1) with
      | Some entry =>
          let self :=
            if result
            then set_processed_files self (processed_files self ++ [entry])
            else set_failed_files self (failed_files self ++ [entry]) in
          update_progress phase processed_count (length (found_files self));;
          ret (self, processed_count)
      | None => raise
      end
  | _ => raise
  end.

Definition collect_results (phase : string) (outcomes : gmap nat (Result bool))
    (done : list nat) (self : EverythingSearcher) : M EverythingSearcher :=
  '(self, _) ← for_each done (collect_step phase outcomes) (self, 0);
  ret self.

(** One action pool (the delete branch and the copy/move branch of
    [process_files] differ in the phase name only). The calls of the
    workers are placed before the loop that collects their results: the
    loop itself touches no file. *)
Definition action_pool (phase : string) (self : EverythingSearcher)
    (sched : Schedule) : M EverythingSearcher :=
  for_each (found_files self) (fun file_info _ => emit (EvSubmitProcess file_info)) tt;;
  outcomes ← run_workers self (action_run sched);
  collect_results phase outcomes (action_done sched) self.

(** The summary at the end of [process_files]. *)
Definition report (self : EverythingSearcher) (total_files found_count : nat) : M unit :=
  (t ← get_string self "messages.summary"; log self (Heading t));;
  (t ← get_string self "messages.total_processed";
   log self (Format t [ArgInt total_files]));;
  (t ← get_string self "messages.total_found";
   log self (Format t [ArgInt found_count]));;
  (t ← get_string self "messages.success_processed";
   log self (Format t [ArgInt (length (processed_files self))]));;
  (match failed_files self with
   | [] => ret tt
   | _ =>
       t ← get_string self "messages.failed_operations";
       log self (Format t [ArgInt (length (failed_files self))])
   end);;
  logged ← (if py_truthy (log_path self)
            then t ← get_string self "messages.logged_files"; ret [(t, None)]
            else ret []);
  copied ← (if py_truthy (copy_path self)
            then t ← get_string self "messages.copied_files";
                 ret [(t, Some (length (processed_files self)))]
            else ret []);
  moved ← (if py_truthy (move_path self)
           then t ← get_string self "messages.moved_files";
                ret [(t, Some (length (processed_files self)))]
           else ret []);
  deleted ← (if delete_mode self
             then t ← get_string self "messages.deleted_files";
                  ret [(t, Some (length (processed_files self)))]
             else ret []);
  match logged ++ copied ++ moved ++ deleted with
  | [] => ret tt
  | actions =>
      t ← get_string self "messages.actions_taken";
      log self (Format t [ArgJoin actions])
  end.

(** The action required on the found files: delete only, else copy
    and/or move, else none. *)
Definition action_stage (self : EverythingSearcher) (sched : Schedule)
    : M EverythingSearcher :=
  if delete_mode self then action_pool "delete" self sched
  else if py_truthy (copy_path self) || py_truthy (move_path self)
  then action_pool "process" self sched
  else ret self.

(** What follows the search: the found files are listed, processed and
    summed up, or there is nothing to do. *)
Definition finish (self : EverythingSearcher) (total_files found_count : nat)
    (sched : Schedule) : M EverythingSearcher :=
  match found_files self with
  | [] =>
      t ← get_string self "messages.no_matches";
      log self (Heading t);;
      ret self
  | _ =>
      (t ← get_string self "messages.found_files"; log self (Heading t));;
      for_each (found_files self)
        (fun '(_, full_path) _ => log self (FullPath full_path)) tt;;
      self ← action_stage self sched;
      report self total_files found_count;;
      ret self
  end.

(** What follows the validation of the regex. *)
Definition search_and_process (self : EverythingSearcher) (filenames : list string)
    (sched : Schedule) : M EverythingSearcher :=
  '(self, found_count) ← search_pool self filenames sched;
  finish self (length filenames) found_count sched.

(** The names to search for are announced. *)
Definition announce (self : EverythingSearcher) (filenames : list string) : M unit :=
  (t ← get_string self "messages.processing";
   log self (Format t [ArgInt (length filenames)]));;
  (t ← get_string self "messages.searching"; log self (Heading t));;
  for_each filenames (fun filename _ => log self (Bullet filename)) tt.

Definition process_files (self : EverythingSearcher) (sched : Schedule)
    : M EverythingSearcher :=
  filenames ← read_input_file self;
  match filenames with
  | [] =>
      t ← get_string self "messages.no_files";
      log self (Plain t);;
      ret self
  | _ =>
      announce self filenames;;
      valid ← validate_regex self;
      if (valid : bool) then search_and_process self filenames sched
      else ret self
  end.

(** *** Reading a trace *)
Definition logged (t : list Event) : list Message :=
  omap (fun e => match e with EvLog m => Some m | _ => None end) t.

Definition submitted_searches (t : list Event) : list string :=
  omap (fun e => match e with EvSubmitSearch f _ => Some f | _ => None end) t.

Definition compiled (t : list Event) : list string :=
  omap (fun e => match e with EvCompile p => Some p | _ => None end) t.

(** The file-system calls other than the writes to the log file. *)
Definition file_ops (t : list Event) : list (FsOp * bool) :=
  omap (fun e => match e with
                 | EvFs (LogAppend _ _) _ => None
                 | EvFs op ok => Some (op, ok)
                 | _ => None
                 end) t.

Definition is_copy_or_move (op : FsOp) : bool :=
  match op with ShutilCopy2 _ _ | ShutilMove _ _ => true | _ => false end.

(** *** The spec's words, to compare the code with *)

(** The lines of the input a run reads: those of the text when one is
    given, else those of the file when it can be read. *)
Definition input_lines (self : EverythingSearcher) (w : World) : list string :=
  if py_truthy (input_text self) then
    PyStr.splitlines (default "" (input_text self))
  else if py_truthy (input_file self) then
    match open_read (default "" (input_file self)) w with
    | Some content => PyStr.iter_lines content
    | None => []
    end
  else [].

(** The input lines with their whitespace stripped, blank ones left out. *)
Definition nonblank_lines (lines : list string) : list string :=
  List.filter PyStr.truthy (PyStr.strip <$> lines).

(** The same, each line counted once however often it occurs. *)
Definition distinct_nonblank_lines (lines : list string) : list string :=
  remove_dups (nonblank_lines lines).

(** The regex filter of a run passes validation: there is none to
    compile, or it compiles. *)
Definition passes_validation (self : EverythingSearcher) : Prop :=
  py_truthy (regex_filter self) = true ->
  is_Some (re_compile (default "" (regex_filter self))).

(** The lines of the summary that carry the counts: requested, found,
    succeeded and, when there is a failure, failed. *)
Definition summary_counts (self : EverythingSearcher) (requested found : nat)
    : list Message :=
  [Heading (GetString "messages.summary");
   Format (GetString "messages.total_processed") [ArgInt requested];
   Format (GetString "messages.total_found") [ArgInt found];
   Format (GetString "messages.success_processed")
     [ArgInt (length (processed_files self))]]
  ++ match failed_files self with
     | [] => []
     | _ => [Format (GetString "messages.failed_operations")
               [ArgInt (length (failed_files self))]]
     end.

(** The found files attributed to the outcome [b] when the futures
    complete in the order [done]: the k-th completion is paired with the
    k-th found file. *)
Definition attributed (b : bool) (found : list FoundFile)
    (outcomes : gmap nat (Result bool)) (done : list nat) : list FoundFile :=
  omap (fun '(entry, future) =>
          match (outcomes !! future : option (Result bool)) with
          | Some (Ok result) => if bool_decide (result = b) then Some entry else None
          | _ => None
          end)
       (zip found done).

(** What a run that only deletes may do: no copy, no move, and no
    progress report of the copy/move pool. *)
Definition no_copy_or_move (e : Event) : Prop :=
  match e with
  | EvFs op _ => is_copy_or_move op = false
  | EvProgress phase _ _ => phase <> "process"
  | _ => True
  end.

Definition no_search_submitted (e : Event) : Prop :=
  match e with EvSubmitSearch _ _ => False | _ => True end.

Definition no_compile (e : Event) : Prop :=
  match e with EvCompile _ => False | _ => True end.

(** [P] holds of every event but the submission of a search and the
    compilation of the regex. *)
Definition past_search (P : Event -> Prop) : Prop :=
  forall e,
    match e with
    | EvSubmitSearch _ _ | EvCompile _ => True
    | _ => P e
    end.

(** What [announce] logs. *)
Definition announcement (filenames : list string) : list Message :=
  [Format (GetString "messages.processing") [ArgInt (length filenames)];
   Heading (GetString "messages.searching")]
  ++ (Bullet <$> filenames).

Definition no_message (e : Event) : Prop :=
  match e with EvLog _ => False | _ => True end.

(** The search results gathered when the futures complete in the order
    [done]. *)
Definition gathered (search_futures : list (list FoundFile)) (done : list nat)
    : list FoundFile :=
  mjoin (omap (fun future : nat => search_futures !! future) done).

(** The destination of a copy or move: with the folder structure
    preserved, the root joined with the source path without its drive and
    leading separators; flat, the root joined with the requested name. *)
Definition spec_destination (preserve : bool) (root filename source_path : string)
    : string :=
  if preserve then
    NtPath.join root
      (PyStr.lstrip_by (Ascii.eqb NtPath.sep) (NtPath.splitdrive source_path).2)
  else NtPath.join root filename.

(** The calls of one copy ([op := ShutilCopy2]) or move ([ShutilMove]) to
    the root [root], when one is configured: the directories above the
    destination first when the structure is preserved. *)
Definition spec_transfer (op : string -> string -> FsOp) (preserve : bool)
    (root : option string) (filename source_path : string) : list FsOp :=
  if py_truthy root then
    let dest := spec_destination preserve (default "" root) filename source_path in
    (if preserve then [OsMakedirs (NtPath.dirname dest)] else [])
    ++ [op source_path dest]
  else [].

(** The calls the action on one found file consists of: delete alone, or
    copy then move. *)
Definition planned_ops (self : EverythingSearcher) (file_info : FoundFile)
    : list FsOp :=
  let '(filename, source_path) := file_info in
  if delete_mode self then [OsRemove source_path]
  else spec_transfer ShutilCopy2 (match_folder_structure self) (copy_path self)
         filename source_path
       ++ spec_transfer ShutilMove (match_folder_structure self) (move_path self)
            filename source_path.

(** Calls made one after the other until one fails. *)
Fixpoint exec_ops (ops : list FsOp) (w : World) : bool * World * list Event :=
  match ops with
  | [] => (true, w, [])
  | op :: ops' =>
      let '(ok, w1) := fs_exec op w in
      if ok then
        let '(b, w2, t) := exec_ops ops' w1 in (b, w2, EvFs op true :: t)
      else (false, w1, [EvFs op false])
  end.

Definition is_log_append (op : FsOp) : bool :=
  match op with LogAppend _ _ => true | _ => false end.

(** An action is configured: delete, copy or move. *)
Definition action_mode (self : EverythingSearcher) : Prop :=
  delete_mode self = true
  \/ py_truthy (copy_path self) = true
  \/ py_truthy (move_path self) = true.

(** *** Properties of calls *)

(** [hoare P m Q]: every event of [m] satisfies [P], and what [m]
    returns satisfies [Q]. *)
Definition hoare {A} (P : Event -> Prop) (m : M A) (Q : A -> Prop) : Prop :=
  forall w, Forall P (trace_of (m w)) /\ forall a, result_of (m w) = Ok a -> Q a.

(** [P] holds of every event of [log]. *)
Definition allows_logging (P : Event -> Prop) : Prop :=
  (forall m, P (EvLog m)) /\ (forall d m ok, P (EvFs (LogAppend d m) ok)).

End Pipeline.

(** ** A small runtime to run the pipeline on

    Files are a list of paths; removing, copying or moving a path that is
    not there raises, creating directories never does, and the log file
    can be written unless the world says otherwise. The search provider
    answers from a table. The regex engine knows literal patterns only
    (no metacharacter), which it searches as substrings; every other
    pattern is an error for it. *)
Module Sample.

Record world := {
  existing : list string;
  provider : list (string * Completed);
  texts : list (string * string);
  log_writable : bool;
}.

Definition lookup_default {A} (k : string) (table : list (string * A)) (d : A) : A :=
  match List.find (fun kv => String.eqb k kv.1) table with
  | Some kv => kv.2
  | None => d
  end.

Definition without (p : string) (w : world) : world :=
  {| existing := List.filter (fun q => negb (String.eqb p q)) (existing w);
     provider := provider w; texts := texts w; log_writable := log_writable w |}.

Definition with_file (p : string) (w : world) : world :=
  {| existing := p :: existing w;
     provider := provider w; texts := texts w; log_writable := log_writable w |}.

Definition exists_file (p : string) (w : world) : bool :=
  existsb (String.eqb p) (existing w).

Definition exec (op : FsOp) (w : world) : bool * world :=
  match op with
  | OsRemove p => if exists_file p w then (true, without p w) else (false, w)
  | OsMakedirs _ => (true, w)
  | ShutilCopy2 src dst =>
      if exists_file src w then (true, with_file dst w) else (false, w)
  | ShutilMove src dst =>
      if exists_file src w then (true, with_file dst (without src w)) else (false, w)
  | LogAppend _ _ => (log_writable w, w)
  end.

Definition run (cmd : list string) (w : world) : Completed :=
  match cmd with
  | [_; _; term] => lookup_default term (provider w) (RunExited 0 "")
  | _ => RunRaised
  end.

Definition read (f : string) (w : world) : option string :=
  snd <$> List.find (fun kv => String.eqb f kv.1) (texts w).

Definition is_meta (c : ascii) : bool :=
  match c with
  | "." | "^" | "$" | "*" | "+" | "?" | "{" | "}" | "[" | "]" | "\" | "|" | "(" | ")" => true
  | _ => false
  end%char.

Fixpoint has_meta (s : string) : bool :=
  match s with
  | EmptyString => false
  | String c s' => is_meta c || has_meta s'
  end.

Fixpoint contains (needle hay : string) : bool :=
  String.prefix needle hay
  || match hay with
     | EmptyString => false
     | String _ hay' => contains needle hay'
     end.

Definition compile (pattern : string) : option string :=
  if has_meta pattern then None else Some pattern.

#[global] Instance runtime : Runtime.
Proof.
  refine {| World := world; Regex := string; Lang := unit;
            re_compile := compile; re_search := contains;
            subprocess_run := run; open_read := read; fs_exec := exec;
            re_compile_empty := _ |}.
  intros r s [= <-]. by destruct s.
Defined.

(** An object as the GUI builds it: names typed in, a language manager. *)
Definition searcher (input_text : string) (copy_path move_path : option string)
    (match_folder_structure delete_mode : bool) (regex_filter : option string)
    : EverythingSearcher :=
  {| input_file := None; input_text := Some input_text;
     copy_path := copy_path; move_path := move_path; log_path := None;
     match_folder_structure := match_folder_structure;
     delete_mode := delete_mode; regex_filter := regex_filter; lang := Some tt;
     found_files := []; processed_files := []; failed_files := [] |}.

(** The futures of both pools taken in the order they were submitted. *)
Definition in_order (n : nat) : Schedule :=
  {| search_done := seq 0 n; action_run := seq 0 n; action_done := seq 0 n |}.

(** The second of two actions completes first. *)
Definition second_first : Schedule :=
  {| search_done := [0; 1]; action_run := [0; 1]; action_done := [1; 0] |}.

Definition nl : string := String "010"%char EmptyString.
Definition cr : string := String "013"%char EmptyString.

(** A machine with two files; the index of the provider still lists a
    third, [C:\gone.txt], and the search for [broken] exits with code 1. *)
Definition office : world :=
  {| existing := ["C:\Users\a\report.docx"; "C:\a\b\file.txt"];
     provider :=
       [("report.docx", RunExited 0 ("C:\Users\a\report.docx" +:+ nl));
        ("report", RunExited 0 ("C:\Users\a\report.docx" +:+ nl));
        ("file.txt", RunExited 0 ("C:\a\b\file.txt" +:+ nl));
        ("gone.txt", RunExited 0 ("C:\gone.txt" +:+ nl));
        ("broken", RunExited 1 "")];
     texts := [];
     log_writable := true |}.

(** What a run returned, or [d] when it raised. *)
Definition returned {A} (x : Result A * world * list Event) (d : A) : A :=
  match x.1.1 with Ok a => a | Raised => d end.

End Sample.


(** Objects and schedules to run. *)
Module Runs.
Import Sample.

(** Delete mode with both a copy and a move destination configured. *)
Definition delete_all : EverythingSearcher :=
  searcher "report.docx" (Some "D:\out") (Some "E:\moved") true true None.

(** The same name on two lines. *)
Definition twice : EverythingSearcher :=
  searcher ("a" +:+ nl +:+ "a") None None false false None.

(** A name the provider finds nothing for, to be copied. *)
Definition missing : EverythingSearcher :=
  searcher "missing.txt" (Some "D:\out") None false false None.

(** The end-to-end example of the specification: two names, one found,
    copied flat. *)
Definition report_run : EverythingSearcher :=
  searcher ("report.docx" +:+ nl +:+ "missing.txt") (Some "D:\out") None
    false false None.



Definition copy_structured : EverythingSearcher :=
  searcher "file.txt" (Some "D:\out") None true false None.

Definition copy_flat : EverythingSearcher :=
  searcher "report" (Some "D:\out") None false false None.

Definition one_action : Schedule :=
  {| search_done := [1; 0]; action_run := [0]; action_done := [0] |}.

End Runs.

(** * The pipeline: what a run touches, reports and returns *)

Section Pipeline_more.
Context `{RT : Runtime}.

(** The path a file-system call reads or removes. *)
Definition op_source (op : FsOp) : option string :=
  match op with
  | OsRemove path => Some path
  | ShutilCopy2 src _ | ShutilMove src _ => Some src
  | OsMakedirs _ | LogAppend _ _ => None
  end.

(** The only file-system call is the write to the log file. *)
Definition log_only (e : Event) : Prop :=
  match e with
  | EvFs op _ => is_log_append op = true
  | _ => True
  end.

(** Nothing but messages, writes to the log file and the validation of
    the regex. *)
Definition prelude_only (e : Event) : Prop :=
  match e with
  | EvLog _ | EvCompile _ => True
  | EvFs op _ => is_log_append op = true
  | _ => False
  end.

(** Every remove, copy or move is of one of the paths [sources]. *)
Definition touches_only (sources : list string) (e : Event) : Prop :=
  match e with
  | EvFs op _ =>
      match op_source op with
      | Some src => src ∈ sources
      | None => True
      end
  | _ => True
  end.

(** The progress reports of one phase: current and total. *)
Definition progress_of (phase : string) (t : list Event) : list (nat * nat) :=
  omap (fun e => match e with
                 | EvProgress phase' current total =>
                     if String.eqb phase' phase then Some (current, total) else None
                 | _ => None
                 end) t.

(** No progress report of the phase [phase]. *)
Definition no_progress_of (phase : string) (e : Event) : Prop :=
  match e with
  | EvProgress phase' _ _ => phase' <> phase
  | _ => True
  end.

(** *** [main] *)

(** What [parse_args] returns. *)
Record Args := {
  arg_input : option string;
  arg_copy_to : option string;
  arg_move_to : option string;
  arg_log_path : option string;
  arg_delete : bool;
  arg_no_structure : bool;
}.

(** [main]: with [--input] the object is built, without a regex filter
    and without a language manager, and run; otherwise the window is
    opened, which is [None] here. *)
Definition main (args : Args) (sched : Schedule) : M (option EverythingSearcher) :=
  if py_truthy (arg_input args) then
    searcher ← init (arg_input args) None (arg_copy_to args) (arg_move_to args)
                 (arg_log_path args) (negb (arg_no_structure args))
                 (arg_delete args) None None;
    searcher ← process_files searcher sched;
    ret (Some searcher)
  else ret None.

End Pipeline_more.

Section Pipeline_more_2.
Context `{RT : Runtime}.

(** All a command-line run gets to do: messages, the directories of
    [__init__] and writes to the log file. *)
Definition cli_only (e : Event) : Prop :=
  match e with
  | EvLog _ => True
  | EvFs (OsMakedirs _) _ | EvFs (LogAppend _ _) _ => True
  | _ => False
  end.

(** The progress reports that count from 1 to [n] out of [n]. *)
Definition counting_up (n : nat) : list (nat * nat) :=
  (fun k => (k, n)) <$> seq 1 n.

(** The phase name of the action pool of an object. *)
Definition action_phase (self : EverythingSearcher) : string :=
  if delete_mode self then "delete" else "process".

End Pipeline_more_2.

Section Pipeline_more_3.
Context `{RT : Runtime}.

(** The call [m] returns from the world [w] and leaves it as it was. *)
Definition returns_in_place {A} (m : M A) (w : World) : Prop :=
  exists a t, m w = (Ok a, w, t).

(** An object that can log without raising: it has a language manager and
    no log directory. *)
Definition speaks_freely (self : EverythingSearcher) : Prop :=
  is_Some (lang self) /\ py_truthy (log_path self) = false.

End Pipeline_more_3.

(** * The window: names typed in, confirmations *)

(** ** More of Python's [str] *)
Module PyText.
Local Open Scope char_scope.

Definition newline : string := String "010" EmptyString.

(** [sep.join(items)] *)
Fixpoint join (sep : string) (items : list string) : string :=
  match items with
  | [] => EmptyString
  | item :: items' =>
      match items' with
      | [] => item
      | _ => item +:+ sep +:+ join sep items'
      end
  end.

(** Every character of [s] satisfies [p]. *)
Fixpoint all_chars (p : ascii -> bool) (s : string) : bool :=
  match s with
  | EmptyString => true
  | String c s' => p c && all_chars p s'
  end.

(** A character that [str.splitlines] does not break a line at. *)
Definition within_line (c : ascii) : bool :=
  negb (Ascii.eqb c "013") && negb (PyStr.is_linebreak c).

(** A name as [read_input_file] returns it: not empty, with no white
    space at either end. *)
Definition clean (name : string) : Prop :=
  name <> EmptyString /\ PyStr.strip name = name.

(** [s.split(sep)] for a separator of one character; [cur] is the piece
    read so far, reversed. *)
Fixpoint split_go (sep : ascii) (cur : string) (s : string) : list string :=
  match s with
  | EmptyString => [String.rev cur]
  | String c s' =>
      if Ascii.eqb c sep then String.rev cur :: split_go sep EmptyString s'
      else split_go sep (String c cur) s'
  end.

Definition split (sep : ascii) (s : string) : list string :=
  split_go sep EmptyString s.

(** [needle in hay] *)
Fixpoint contains (needle hay : string) : bool :=
  String.prefix needle hay
  || match hay with
     | EmptyString => false
     | String _ hay' => contains needle hay'
     end.

End PyText.

(** ** [SearchGUI.start_processing] *)
Section Window.
Context `{RT : Runtime}.

(** What the form holds when the button is pressed. *)
Record Form := {
  input_box : string;      (* [self.input_text.get('1.0', tk.END)] *)
  default_text : string;   (* [self.input_text.default_text] *)
  copy_var : string;       (* [self.copy_path.get()] *)
  move_var : string;       (* [self.move_path.get()] *)
  log_enabled : bool;      (* [self.log_enabled.get()] *)
  structure_var : bool;    (* [self.match_folder_structure.get()] *)
  delete_var : bool;       (* [self.delete_mode.get()] *)
  regex_var : string;      (* [self.regex_filter.get()] *)
}.

(** How [start_processing] ends. *)
Inductive Started :=
| ErrorNoFiles                       (* the error box, [errors.no_files] *)
| Declined (action_type : string)    (* the confirmation was answered no *)
| ErrorInvalidRegex                  (* the error box, [errors.invalid_regex] *)
| Finished (searcher : EverythingSearcher) (* [progress.completed] in the output *)
| ErrorProcess.                      (* the error box, [errors.process_error] *)

(** [_confirm_action]; [askyesno] is the answer of the user to the
    dialog with the given title and message. *)
Definition confirm_action (askyesno : Template -> Template -> bool)
    (action_type : string) : bool :=
  if String.eqb action_type "delete" then
    askyesno (GetString "confirmations.delete_title")
      (GetString "confirmations.delete_message")
  else if String.eqb action_type "move" then
    askyesno (GetString "confirmations.move_title")
      (GetString "confirmations.move_message")
  else true.

(** [value if value else None] *)
Definition or_none (value : string) : option string :=
  if PyStr.truthy value then Some value else None.

(** The [try] block of [start_processing] and its handler. *)
Definition run_searcher (form : Form) (l : Lang) (input_text regex_pattern : string)
    (sched : Schedule) : M Started :=
  try_except
    (let filenames := stripped_lines (PyStr.splitlines input_text) in
     searcher ← init None (Some (PyText.join PyText.newline filenames))
                  (or_none (copy_var form)) (or_none (move_var form))
                  (if log_enabled form then Some "logs" else None)
                  (structure_var form) (delete_var form)
                  (or_none regex_pattern) (Some l);
     searcher ← process_files searcher sched;
     ret (Finished searcher))
    (ret ErrorProcess).

Definition start_processing (form : Form) (l : Lang)
    (askyesno : Template -> Template -> bool) (sched : Schedule) : M Started :=
  let input_text := PyStr.strip (input_box form) in
  if negb (PyStr.truthy input_text) || String.eqb input_text (default_text form) then
    ret ErrorNoFiles
  else
    let validate_and_run : M Started :=
      let regex_pattern := PyStr.strip (regex_var form) in
      if PyStr.truthy regex_pattern then
        match re_compile regex_pattern with
        | Some _ => run_searcher form l input_text regex_pattern sched
        | None => ret ErrorInvalidRegex
        end
      else run_searcher form l input_text regex_pattern sched in
    if delete_var form then
      if negb (confirm_action askyesno "delete") then ret (Declined "delete")
      else validate_and_run
    else if PyStr.truthy (move_var form) then
      if negb (confirm_action askyesno "move") then ret (Declined "move")
      else validate_and_run
    else validate_and_run.

(** The names typed into the form. *)
Definition typed_names (form : Form) : list string :=
  stripped_lines (PyStr.splitlines (PyStr.strip (input_box form))).

(** No file is removed before the user confirmed the deletion, none is
    moved before the user confirmed the move. *)
Definition asked_first (askyesno : Template -> Template -> bool) (e : Event) : Prop :=
  match e with
  | EvFs (OsRemove _) _ => confirm_action askyesno "delete" = true
  | EvFs (ShutilMove _ _) _ => confirm_action askyesno "move" = true
  | _ => True
  end.

End Window.


(** * The probes: looking for Everything on the machine *)

(** What the probes ask of the machine beside running commands. The
    probes read; none of them changes the machine. *)
Class Host `{RT : Runtime} := {
  environ_path : World -> string;                  (* [os.environ.get('PATH', '')] *)
  path_exists : string -> World -> bool;           (* [os.path.exists] *)
  path_isfile : string -> World -> bool;           (* [os.path.isfile] *)
  access_x_ok : string -> World -> option bool;    (* [os.access(path, os.X_OK)]; [None]: it raises *)
  install_location : World -> option string;       (* the registry value; [None]: [WindowsError] *)
  module_dir : World -> string;                    (* [os.path.dirname(os.path.abspath(__file__))] *)
  file_not_found : list string -> World -> bool;   (* what [subprocess.run] raised is a [FileNotFoundError] *)
}.

Section Probes.
Context `{HT : Host}.

Definition program_files : list string :=
  ["C:\Program Files\Everything"; "C:\Program Files (x86)\Everything"].

(** The list [possible_paths] after the registry was read. *)
Definition possible_paths (w : World) : list string :=
  match install_location w with
  | Some location =>
      if PyStr.truthy location && path_exists location w
      then location :: program_files
      else program_files
  | None => program_files
  end.

(** [find_everything_installation] *)
Definition find_everything_installation (w : World) : option string :=
  List.find
    (fun path =>
       path_exists path w && path_exists (NtPath.join path "Everything.exe") w)
    (possible_paths w).

(** [check_file_exists] *)
Definition check_file_exists (path : string) (w : World) : bool :=
  if negb (path_exists path w) then false
  else if negb (path_isfile path w) then false
  else
    match access_x_ok path w with
    | Some executable => if executable then true else false
    | None => false
    end.

(** [run_es_exe] *)
Definition run_es_exe (es_path : string) (w : World) : bool * option string :=
  match subprocess_run [es_path; "-version"] w with
  | RunExited returncode stdout =>
      ((returncode =? 0)%Z,
       if (returncode =? 0)%Z then Some (PyStr.strip stdout) else None)
  | RunRaised => (false, None)
  end.

(** The dictionary [find_es_exe] returns. Nothing in its [try] block can
    raise, so that [error] stays [None]. *)
Record EsSearch := {
  es_found : bool;                       (* ['found'] *)
  es_path : option string;               (* ['path'] *)
  es_version : option string;            (* ['version'] *)
  es_error : option string;              (* ['error'] *)
  es_locations_checked : list string;    (* ['locations_checked'] *)
}.

(** The loop over the directories of [PATH]: the first [es.exe] that
    exists and runs, with its version. *)
Fixpoint search_path_dirs (path_dirs : list string) (w : World)
    : option (string * option string) :=
  match path_dirs with
  | [] => None
  | dir :: path_dirs' =>
      let es_path := NtPath.join dir "es.exe" in
      if path_exists es_path w then
        let '(success, version) := run_es_exe es_path w in
        if success then Some (es_path, version)
        else search_path_dirs path_dirs' w
      else search_path_dirs path_dirs' w
  end.

Definition es_result (es_path : string) (version : option string)
    (checked : list string) : EsSearch :=
  {| es_found := true; es_path := Some es_path; es_version := version;
     es_error := None; es_locations_checked := checked |}.

Definition es_not_found (checked : list string) : EsSearch :=
  {| es_found := false; es_path := None; es_version := None;
     es_error := None; es_locations_checked := checked |}.

(** The last block of [find_es_exe]: the directory of the program. *)
Definition search_current_dir (checked : list string) (w : World) : EsSearch :=
  let es_path := NtPath.join (module_dir w) "es.exe" in
  let checked := checked ++ [es_path] in
  if check_file_exists es_path w then
    let '(success, version) := run_es_exe es_path w in
    if success then es_result es_path version checked
    else es_not_found checked
  else es_not_found checked.

(** [find_es_exe] *)
Definition find_es_exe (w : World) : EsSearch :=
  let path_dirs := PyText.split ";" (environ_path w) in
  match search_path_dirs path_dirs w with
  | Some (es_path, version) => es_result es_path version []
  | None =>
      let checked := ["System PATH"] in
      let install_dir := find_everything_installation w in
      if py_truthy install_dir then
        let es_path := NtPath.join (default "" install_dir) "es.exe" in
        let checked := checked ++ [es_path] in
        if check_file_exists es_path w then
          let '(success, version) := run_es_exe es_path w in
          if success then es_result es_path version checked
          else search_current_dir checked w
        else search_current_dir checked w
      else search_current_dir checked w
  end.

Definition sc_query : list string := ["sc"; "query"; "Everything"].

(** [check_everything_service] *)
Definition check_everything_service (w : World) : bool :=
  match subprocess_run sc_query w with
  | RunExited _ stdout => PyText.contains "RUNNING" stdout
  | RunRaised => false
  end.

(** [check_everything_cli]: the answer of the service is not used. *)
Definition check_everything_cli (w : World) : bool :=
  let service_running := check_everything_service w in
  let results := find_es_exe w in
  es_found results.

(** The messages of [check_everything_status]. *)
Inductive StatusError :=
| ServiceNotRunning     (* ["Everything service is not running"] *)
| CliNotFound           (* ["Everything CLI (es.exe) not found"] *)
| StillIndexing         (* ["Everything is still indexing files"] *)
| OtherError.           (* [str(e)] *)

(** The two [except] clauses of [check_everything_status]. *)
Definition status_raised (cmd : list string) (w : World) : bool * option StatusError :=
  if file_not_found cmd w then (false, Some CliNotFound)
  else (false, Some OtherError).

(** [check_everything_status] *)
Definition check_everything_status (w : World) : bool * option StatusError :=
  match subprocess_run sc_query w with
  | RunRaised => status_raised sc_query w
  | RunExited _ service_stdout =>
      if negb (PyText.contains "RUNNING" service_stdout) then
        (false, Some ServiceNotRunning)
      else
        let version_cmd := ["es.exe"; "-get-everything-version"] in
        match subprocess_run version_cmd w with
        | RunRaised => status_raised version_cmd w
        | RunExited returncode _ =>
            if negb (returncode =? 0)%Z then (false, Some CliNotFound)
            else
              let count_cmd := ["es.exe"; "-get-result-count"; "ext:"] in
              match subprocess_run count_cmd w with
              | RunRaised => status_raised count_cmd w
              | RunExited returncode stdout =>
                  if negb (returncode =? 0)%Z
                     || negb (PyStr.truthy (PyStr.strip stdout))
                  then (false, Some StillIndexing)
                  else (true, None)
              end
        end
  end.

(** An [es.exe] that is there and runs. *)
Definition runs (es_path : string) (w : World) : Prop :=
  exists stdout, subprocess_run [es_path; "-version"] w = RunExited 0 stdout.

(** The places where [find_es_exe] can find [es.exe]: a directory of
    [PATH], where the file has to exist; the directory Everything is
    installed in and the directory of the program, where it has to be an
    executable file. *)
Definition es_candidate (es_path : string) (w : World) : Prop :=
  (exists dir, dir ∈ PyText.split ";" (environ_path w)
               /\ es_path = NtPath.join dir "es.exe"
               /\ path_exists es_path w = true)
  \/ (exists dir, find_everything_installation w = Some dir
                  /\ dir <> ""
                  /\ es_path = NtPath.join dir "es.exe"
                  /\ check_file_exists es_path w = true)
  \/ (es_path = NtPath.join (module_dir w) "es.exe"
      /\ check_file_exists es_path w = true).

(** Two machines that differ at most in what [sc query Everything]
    answers. *)
Definition same_but_service (w1 w2 : World) : Prop :=
  environ_path w1 = environ_path w2
  /\ module_dir w1 = module_dir w2
  /\ install_location w1 = install_location w2
  /\ (forall path, path_exists path w1 = path_exists path w2)
  /\ (forall path, path_isfile path w1 = path_isfile path w2)
  /\ (forall path, access_x_ok path w1 = access_x_ok path w2)
  /\ (forall cmd, cmd <> sc_query -> subprocess_run cmd w1 = subprocess_run cmd w2).

End Probes.


(** ** A small machine to probe

    The world is whether the Everything service runs. A working
    [es.exe] is in [C:\Tools], the second directory of [PATH]. *)
Module Desk.

Definition run (cmd : list string) (service : bool) : Completed :=
  if bool_decide (cmd = sc_query) then
    RunExited 0 (if service then "STATE : 4  RUNNING" else "STATE : 1  STOPPED")
  else if bool_decide (cmd = ["C:\Tools\es.exe"; "-version"]) then
    RunExited 0 "1.1.0.27 "
  else RunRaised.

Definition runtime : Runtime.
Proof.
  refine {| World := bool; Regex := string; Lang := unit;
            re_compile := Some; re_search := fun _ _ => true;
            subprocess_run := run; open_read := fun _ _ => None;
            fs_exec := fun _ w => (false, w);
            re_compile_empty := _ |}.
  done.
Defined.

Definition host : @Host runtime :=
  {| environ_path := fun _ => "C:\Windows;C:\Tools";
     path_exists := fun path _ => String.eqb path "C:\Tools\es.exe";
     path_isfile := fun path _ => String.eqb path "C:\Tools\es.exe";
     access_x_ok := fun _ _ => Some true;
     install_location := fun _ => None;
     module_dir := fun _ => "C:\app";
     file_not_found := fun _ _ => true |}.

End Desk.


(** * The language manager: strings, tooltips, language codes *)
Module LanguageManager.

(** What [json.load] returns. Of a number only whether it is zero
    matters to the methods below. An object is the list of its members,
    keys distinct, as the [dict] holds them. *)
#[warnings="-register-all"] Inductive Json :=
| JNull
| JBool (b : bool)
| JNumber (nonzero : bool)
| JString (s : string)
| JArray (items : list Json)
| JObject (members : list (string * Json)).

(** [d.get(key)], [key in d] and [d[key]] on a [dict] with keys of type
    [str]. *)
Definition lookup {A} (key : string) (d : list (string * A)) : option A :=
  snd <$> List.find (fun member => String.eqb key member.1) d.

(** The truth value of a JSON value. *)
Definition truthy (value : Json) : bool :=
  match value with
  | JNull => false
  | JBool b => b
  | JNumber nonzero => nonzero
  | JString s => PyStr.truthy s
  | JArray items => match items with [] => false | _ => true end
  | JObject members => match members with [] => false | _ => true end
  end.

Record LanguageManagerEverything := {
  strings : Json;
  tooltips : Json;
  current_language : option string;
  language_codes : list (string * string);
}.

(** The loop of [get_string] over the parts of the key; [None]: the key
    itself is returned. *)
Fixpoint traverse (keys : list string) (value : Json) : option Json :=
  match keys with
  | [] => Some value
  | k :: keys' =>
      match value with
      | JObject members =>
          match lookup k members with
          | Some value' => traverse keys' value'
          | None => None
          end
      | _ => None
      end
  end.

(** [get_string(key)], as the program calls it: without arguments to
    format the string with. *)
Definition get_string (self : LanguageManagerEverything) (key : string) : string :=
  if negb (PyStr.truthy key) then key
  else
    match traverse (PyText.split "." key) (strings self) with
    | None => key
    | Some value =>
        let value :=
          match value with
          | JObject members => lookup "text" members
          | _ => Some value
          end in
        match value with
        | Some (JString s) => s
        | _ => key
        end
    end.

(** [get_tooltip]; [None]: [self.tooltips] is no [dict] and the call of
    its [get] raises. *)
Definition get_tooltip (self : LanguageManagerEverything) (key : string)
    : option string :=
  match tooltips self with
  | JObject members =>
      let tooltip := default (JString "") (lookup key members) in
      if truthy tooltip then
        let tooltip :=
          match tooltip with
          | JObject members' => default tooltip (lookup "text" members')
          | _ => tooltip
          end in
        match tooltip with
        | JString s => Some s
        | _ => Some ""
        end
      else
        let checkbox_key := "checkboxes." +:+ key +:+ ".tooltip" in
        let value := get_string self checkbox_key in
        if negb (String.eqb value checkbox_key) then Some value else Some ""
  | _ => None
  end.

(** [get_language_code] *)
Definition get_language_code (self : LanguageManagerEverything)
    (language_name : string) : string :=
  default language_name (lookup language_name (language_codes self)).

(** [get_language_name] *)
Definition get_language_name (self : LanguageManagerEverything)
    (language_code : string) : string :=
  match List.find (fun item => String.eqb item.2 language_code)
          (language_codes self) with
  | Some (name, _) => name
  | None => language_code
  end.

(** A manager with two languages loaded, English set. *)
Definition sample : LanguageManagerEverything :=
  {| strings :=
       JObject
         [("language", JObject [("name", JString "English")]);
          ("window", JObject [("title", JString "Everything Batch Search")]);
          ("checkboxes",
           JObject
             [("delete_mode",
               JObject [("text", JString "Delete files");
                        ("tooltip", JString "Delete every file found")])])];
     tooltips := JObject [("regex", JObject [("text", JString "A regex")])];
     current_language := Some "English";
     language_codes := [("English", "en"); ("Svenska", "sv")] |}.

End LanguageManager.


(** * The pipeline: the two parts of a run and its last line *)
Section Pipeline_more_4.
Context `{RT : Runtime}.

(** The actions the last line of the summary names, each with the number
    it is given: they are read off the configuration. *)
Definition actions_named (self : EverythingSearcher) : list (Template * option nat) :=
  (if py_truthy (log_path self)
   then [(GetString "messages.logged_files", None)] else [])
  ++ (if py_truthy (copy_path self)
      then [(GetString "messages.copied_files", Some (length (processed_files self)))]
      else [])
  ++ (if py_truthy (move_path self)
      then [(GetString "messages.moved_files", Some (length (processed_files self)))]
      else [])
  ++ (if delete_mode self
      then [(GetString "messages.deleted_files", Some (length (processed_files self)))]
      else []).

(** What happens up to the end of the search: no action is submitted,
    no file is touched, and progress is that of the search. *)
Definition while_searching (e : Event) : Prop :=
  match e with
  | EvFs op _ => is_log_append op = true
  | EvSubmitProcess _ => False
  | EvProgress phase _ _ => phase = "search"
  | _ => True
  end.

(** What happens after it: no search is submitted, no regex compiled,
    and progress is not that of the search. *)
Definition after_searching (e : Event) : Prop :=
  match e with
  | EvSubmitSearch _ _ | EvCompile _ => False
  | EvProgress phase _ _ => phase <> "search"
  | _ => True
  end.

End Pipeline_more_4.


(** * The pipeline: the error lines of the actions *)
Section Pipeline_more_5.
Context `{RT : Runtime}.

(** The paths named by the error lines of [process_file]. *)
Definition error_lines (t : list Event) : list string :=
  omap (fun e => match e with
                 | EvLog (ProcessError source_path) => Some source_path
                 | _ => None
                 end) t.

Definition no_error_line (e : Event) : Prop :=
  match e with
  | EvLog (ProcessError _) => False
  | _ => True
  end.

(** The call of [process_file] in the future [i] did not return [True]. *)
Definition failed_at (outcomes : gmap nat (Result bool)) (i : nat) : bool :=
  match (outcomes !! i : option (Result bool)) with
  | Some (Ok result) => negb result
  | _ => true
  end.

End Pipeline_more_5.


(** * The pipeline: the machine at the time of the search *)
Section Pipeline_more_6.
Context `{RT : Runtime}.

(** The machine after the file-system calls of a trace, made one after
    the other from [w]. *)
Definition replay (t : list Event) (w : World) : World :=
  foldl (fun w e => match e with EvFs op _ => (fs_exec op w).2 | _ => w end) w t.

(** The part of a trace before the first search is submitted. *)
Fixpoint before_search (t : list Event) : list Event :=
  match t with
  | [] => []
  | EvSubmitSearch _ _ :: _ => []
  | e :: t' => e :: before_search t'
  end.

(** The machine a call leaves is the one its file-system calls make. *)
Definition tracks {A} (m : M A) : Prop :=
  forall w, world_of (m w) = replay (trace_of (m w)) w.

End Pipeline_more_6.

(** * Properties *)

Section Effects.
Context `{RT : Runtime}.

(** ** Reasoning about calls *)

Lemma bind_run {A B} (m : M A) (f : A -> M B) (w : World) :
  (m ≫= f) w =
  match m w with
  | (Ok a, w', t) => let '(r, w'', t') := f a w' in (r, w'', t ++ t')
  | (Raised, w', t) => (Raised, w', t)
  end.
Proof. reflexivity. Qed.

(** A call that returns normally splits at every bind. *)
Lemma bind_Ok {A B} (m : M A) (f : A -> M B) w b w2 t :
  (m ≫= f) w = (Ok b, w2, t) ->
  exists a w1 t1 t2,
    m w = (Ok a, w1, t1) /\ f a w1 = (Ok b, w2, t2) /\ t = t1 ++ t2.
Proof.
  rewrite bind_run. destruct (m w) as [[[a|] w1] t1]; [|done].
  destruct (f a w1) as [[r w'] t2] eqn:Hf. intros [= -> -> <-].
  by exists a, w1, t1, t2.
Qed.

Lemma hoare_ret {A} P (a : A) (Q : A -> Prop) : Q a -> hoare P (ret a) Q.
Proof. intros HQ w. split; [constructor|]. by intros a' [= <-]. Qed.

Lemma hoare_raise {A} P (Q : A -> Prop) : hoare P raise Q.
Proof. intros w. split; [constructor|done]. Qed.

Lemma hoare_emit P e (Q : unit -> Prop) : P e -> Q tt -> hoare P (emit e) Q.
Proof. intros HP HQ w. split; [by repeat constructor|]. by intros []. Qed.

Lemma hoare_get_world P (Q : World -> Prop) :
  (forall w, Q w) -> hoare P get_world Q.
Proof. intros HQ w. split; [constructor|]. intros a [= <-]. apply HQ. Qed.

Lemma hoare_fs P op (Q : unit -> Prop) :
  (forall ok, P (EvFs op ok)) -> Q tt -> hoare P (fs op) Q.
Proof.
  intros HP HQ w. unfold fs, trace_of, result_of.
  destruct (fs_exec op w) as [ok w']. split; [by repeat constructor|].
  by intros [].
Qed.

Lemma hoare_bind {A B} P (m : M A) (f : A -> M B) (Q : A -> Prop) (R : B -> Prop) :
  hoare P m Q -> (forall a, Q a -> hoare P (f a) R) -> hoare P (m ≫= f) R.
Proof.
  intros Hm Hf w. rewrite bind_run. destruct (Hm w) as [Ht HQ].
  unfold trace_of, result_of in *.
  destruct (m w) as [[[a|] w1] t1]; simpl in *; [|done].
  destruct (Hf a (HQ a eq_refl) w1) as [Ht2 HR].
  unfold trace_of, result_of in *.
  destruct (f a w1) as [[r w2] t2]; simpl in *.
  split; [by apply Forall_app|done].
Qed.

Lemma hoare_try_except {A} P (body handler : M A) (Q : A -> Prop) :
  hoare P body Q -> hoare P handler Q -> hoare P (try_except body handler) Q.
Proof.
  intros Hb Hh w. unfold try_except. destruct (Hb w) as [Ht HQ].
  unfold trace_of, result_of in *.
  destruct (body w) as [[[a|] w1] t1]; simpl in *; [done|].
  destruct (Hh w1) as [Ht2 HR]. unfold trace_of, result_of in *.
  destruct (handler w1) as [[r w2] t2]; simpl in *.
  split; [by apply Forall_app|done].
Qed.

Lemma hoare_capture {A} P (m : M A) (Q : Result A -> Prop) :
  hoare P m (fun _ => True) -> (forall r, Q r) -> hoare P (capture m) Q.
Proof.
  intros Hm HQ w. unfold capture. destruct (Hm w) as [Ht _].
  unfold trace_of, result_of in *. destruct (m w) as [[r w1] t1]; simpl in *.
  split; [done|]. intros a _. apply HQ.
Qed.

Lemma hoare_for_each {A S} P (I : S -> Prop) (l : list A) (body : A -> S -> M S) s :
  I s -> (forall x s', I s' -> hoare P (body x s') I) ->
  hoare P (for_each l body s) I.
Proof.
  intros Hs Hbody. revert s Hs.
  induction l as [|x l IH]; intros s Hs; simpl.
  - by apply hoare_ret.
  - eapply hoare_bind; [by apply Hbody|]. intros s' Hs'. by apply IH.
Qed.

Lemma hoare_weaken {A} P (m : M A) (Q Q' : A -> Prop) :
  hoare P m Q -> (forall a, Q a -> Q' a) -> hoare P m Q'.
Proof. intros Hm HQ w. destruct (Hm w) as [Ht H]. split; [done|]. eauto. Qed.

Lemma hoare_bind_any {A B} P (m : M A) (f : A -> M B) (R : B -> Prop) :
  hoare P m (fun _ => True) -> (forall a, hoare P (f a) R) -> hoare P (m ≫= f) R.
Proof. intros Hm Hf. eapply hoare_bind; [exact Hm|]. intros a _. apply Hf. Qed.

Lemma hoare_log P self m :
  allows_logging P -> hoare P (log self m) (fun _ => True).
Proof.
  intros [Hlog Happend]. unfold log. apply hoare_bind_any.
  - by apply hoare_emit.
  - intros _. destruct (log_path self) as [d|]; [|by apply hoare_ret].
    destruct (PyStr.truthy d); [|by apply hoare_ret]. by apply hoare_fs.
Qed.

Lemma hoare_get_string P self key :
  hoare P (get_string self key) (fun _ => True).
Proof.
  unfold get_string. destruct (lang self); [by apply hoare_ret|apply hoare_raise].
Qed.

Lemma hoare_say P self key (msg : Template -> Message) (R : unit -> Prop) :
  allows_logging P -> R tt ->
  hoare P (t ← get_string self key; log self (msg t)) R.
Proof.
  intros HP HR. apply hoare_bind_any; [apply hoare_get_string|].
  intros t. eapply hoare_weaken; [by apply hoare_log|]. by intros [].
Qed.

Lemma hoare_read_input_file P self :
  allows_logging P -> hoare P (read_input_file self) (fun _ => True).
Proof.
  intros HP. unfold read_input_file.
  destruct (py_truthy (input_text self)); [by apply hoare_ret|].
  destruct (negb _); [by apply hoare_ret|].
  apply hoare_bind_any; [by apply hoare_get_world|]. intros w.
  destruct (open_read _ w); [by apply hoare_ret|].
  apply hoare_bind_any; [by apply hoare_log|]. intros _. by apply hoare_ret.
Qed.

Lemma hoare_log_each {A} P self (l : list A) (msg : A -> Message) :
  allows_logging P ->
  hoare P (for_each l (fun x _ => log self (msg x)) tt) (fun _ => True).
Proof.
  intros HP. apply hoare_for_each; [done|]. intros x [] _. by apply hoare_log.
Qed.

Lemma hoare_validate_regex P self :
  allows_logging P -> (forall p, P (EvCompile p)) ->
  hoare P (validate_regex self)
    (fun valid => valid = true -> passes_validation self).
Proof.
  intros HP Hc. unfold validate_regex, passes_validation.
  destruct (py_truthy (regex_filter self)); [|by apply hoare_ret].
  apply hoare_bind_any; [by apply hoare_emit|]. intros _.
  destruct (re_compile _); [by apply hoare_ret|].
  apply hoare_bind_any; [apply hoare_get_string|]. intros t.
  apply hoare_bind_any; [by apply hoare_log|]. intros _. by apply hoare_ret.
Qed.

Lemma hoare_report P self total found :
  allows_logging P -> hoare P (report self total found) (fun _ => True).
Proof.
  intros HP. unfold report.
  repeat (apply hoare_bind_any; [by apply hoare_say|]; intros _).
  apply hoare_bind_any.
  { destruct (failed_files self); [by apply hoare_ret|by apply hoare_say]. }
  intros _.
  assert (forall (b : bool) key (n : option nat),
    hoare P (if b then t ← get_string self key; ret [(t, n)] else ret [])
      (fun _ => True)) as Hitem.
  { intros [] key n; [|by apply hoare_ret].
    apply hoare_bind_any; [apply hoare_get_string|]. intros t. by apply hoare_ret. }
  repeat (apply hoare_bind_any; [apply Hitem|]; intros ?).
  destruct (_ ++ _); [by apply hoare_ret|by apply hoare_say].
Qed.

Lemma hoare_gather_found P (I : EverythingSearcher -> Prop) futures total done self :
  (forall c t, P (EvProgress "search" c t)) ->
  (forall s l, I s -> I (set_found_files s l)) ->
  I self ->
  hoare P (gather_found futures total done self) (fun '(self', _) => I self').
Proof.
  intros Hprog Hset Hself. unfold gather_found. eapply hoare_bind.
  - apply (hoare_for_each P (fun '(self', _, _) => I self')); [done|].
    intros future [[self' processed] found_count] Hself'. unfold gather_step.
    destruct (_ !! future) as [results|]; [|apply hoare_raise].
    destruct results as [|r results].
    + apply hoare_bind_any; [by apply hoare_emit|]. intros _. by apply hoare_ret.
    + apply hoare_bind_any; [by apply hoare_emit|]. intros _.
      apply hoare_ret. by apply Hset.
  - intros [[self' processed] found_count] Hself'. by apply hoare_ret.
Qed.

Lemma hoare_search_pool P (I : EverythingSearcher -> Prop) self filenames sched :
  (forall f r, P (EvSubmitSearch f r)) ->
  (forall c t, P (EvProgress "search" c t)) ->
  (forall s l, I s -> I (set_found_files s l)) ->
  I self ->
  hoare P (search_pool self filenames sched) (fun '(self', _) => I self').
Proof.
  intros Hsub Hprog Hset Hself. unfold search_pool.
  apply hoare_bind_any.
  { apply hoare_for_each; [done|]. intros f [] _. by apply hoare_emit. }
  intros _. apply hoare_bind_any; [by apply hoare_get_world|]. intros w.
  by apply hoare_gather_found.
Qed.

Lemma hoare_collect_results P (I : EverythingSearcher -> Prop) phase outcomes done self :
  (forall c t, P (EvProgress phase c t)) ->
  (forall s l, I s -> I (set_processed_files s l)) ->
  (forall s l, I s -> I (set_failed_files s l)) ->
  I self ->
  hoare P (collect_results phase outcomes done self) I.
Proof.
  intros Hprog Hp Hf Hself. unfold collect_results. eapply hoare_bind.
  - apply (hoare_for_each P (fun '(self', _) => I self')); [done|].
    intros future [self' processed_count] Hself'. unfold collect_step.
    destruct (_ !! future) as [[result|]|]; try apply hoare_raise.
    destruct (found_files self' !! _) as [entry|]; [|apply hoare_raise].
    apply hoare_bind_any; [by apply hoare_emit|]. intros _. apply hoare_ret.
    destruct result; [by apply Hp|by apply Hf].
  - intros [self' processed_count] Hself'. by apply hoare_ret.
Qed.

Lemma hoare_run_workers P self order :
  (forall file_info, hoare P (process_file self file_info) (fun _ => True)) ->
  hoare P (run_workers self order) (fun _ => True).
Proof.
  intros Hfile. unfold run_workers. apply hoare_for_each; [done|].
  intros i outcomes _. destruct (found_files self !! i) as [file_info|].
  - apply hoare_bind_any; [by apply hoare_capture|]. intros r. by apply hoare_ret.
  - by apply hoare_ret.
Qed.

Lemma hoare_action_pool P (I : EverythingSearcher -> Prop) phase self sched :
  (forall file_info, P (EvSubmitProcess file_info)) ->
  (forall c t, P (EvProgress phase c t)) ->
  (forall file_info, hoare P (process_file self file_info) (fun _ => True)) ->
  (forall s l, I s -> I (set_processed_files s l)) ->
  (forall s l, I s -> I (set_failed_files s l)) ->
  I self ->
  hoare P (action_pool phase self sched) I.
Proof.
  intros Hsub Hprog Hfile Hp Hf Hself. unfold action_pool.
  apply hoare_bind_any.
  { apply hoare_for_each; [done|]. intros f [] _. by apply hoare_emit. }
  intros _. apply hoare_bind_any; [by apply hoare_run_workers|]. intros outcomes.
  by apply hoare_collect_results.
Qed.

(** Every event of [log] but the write to the log file is the message. *)
Lemma file_ops_log self m w : file_ops (trace_of (log self m w)) = [].
Proof.
  unfold log. rewrite bind_run. simpl.
  destruct (log_path self) as [d|]; [|done].
  destruct (PyStr.truthy d); [|done]. unfold fs.
  by destruct (fs_exec _ w) as [[] w2].
Qed.

Lemma process_file_delete_run self filename source_path w :
  delete_mode self = true ->
  process_file self (filename, source_path) w =
  match fs_exec (OsRemove source_path) w with
  | (true, w1) => (Ok true, w1, [EvFs (OsRemove source_path) true])
  | (false, w1) =>
      let '(r, w2, t) := log self (ProcessError source_path) w1 in
      (match r with Ok _ => Ok false | Raised => Raised end, w2,
       EvFs (OsRemove source_path) false :: t)
  end.
Proof.
  intros Hdel. unfold process_file, try_except. rewrite Hdel, !bind_run.
  unfold fs. destruct (fs_exec (OsRemove source_path) w) as [[] w1]; [done|].
  rewrite bind_run. destruct (log self _ w1) as [[[[]|] w2] t]; simpl; [|done].
  by rewrite app_nil_r.
Qed.

(** In delete mode [process_file] removes the source and does nothing else. *)
Lemma process_file_delete self file_info w :
  delete_mode self = true ->
  exists ok,
    file_ops (trace_of (process_file self file_info w)) = [(OsRemove file_info.2, ok)]
    /\ (ok = true -> result_of (process_file self file_info w) = Ok true).
Proof.
  intros Hdel. destruct file_info as [filename source_path].
  rewrite process_file_delete_run by done.
  destruct (fs_exec (OsRemove source_path) w) as [[] w1]; simpl.
  - by exists true.
  - exists false. split; [|done].
    pose proof (file_ops_log self (ProcessError source_path) w1) as Hlog.
    destruct (log self _ w1) as [[r w2] t]. simpl in *. unfold file_ops in *.
    simpl. by rewrite Hlog.
Qed.

Lemma hoare_process_file_delete self file_info :
  delete_mode self = true ->
  hoare no_copy_or_move (process_file self file_info) (fun _ => True).
Proof.
  intros Hdel. destruct file_info as [filename source_path].
  unfold process_file. rewrite Hdel.
  assert (allows_logging no_copy_or_move) as HP by done.
  apply hoare_try_except.
  - apply hoare_bind_any; [by apply hoare_fs|]. intros _. by apply hoare_ret.
  - apply hoare_bind_any; [by apply hoare_log|]. intros _. by apply hoare_ret.
Qed.

Lemma hoare_announce P self filenames :
  allows_logging P -> hoare P (announce self filenames) (fun _ => True).
Proof.
  intros HP. unfold announce.
  repeat (apply hoare_bind_any; [by apply hoare_say|]; intros _).
  by apply hoare_log_each.
Qed.

Lemma hoare_say_return {A} P self key (msg : Template -> Message) (a : A) :
  allows_logging P ->
  hoare P (t ← get_string self key; log self (msg t);; ret a) (fun _ => True).
Proof.
  intros HP. apply hoare_bind_any; [apply hoare_get_string|]. intros t.
  apply hoare_bind_any; [by apply hoare_log|]. intros _. by apply hoare_ret.
Qed.

Lemma hoare_finish P self total found_count sched :
  allows_logging P ->
  hoare P (action_stage self sched) (fun _ => True) ->
  hoare P (finish self total found_count sched) (fun _ => True).
Proof.
  intros HP Hstage. unfold finish.
  destruct (found_files self); [by apply hoare_say_return|].
  apply hoare_bind_any; [by apply hoare_say|]. intros _.
  apply hoare_bind_any.
  { apply hoare_for_each; [done|]. intros [? full_path] [] _. by apply hoare_log. }
  intros _. apply hoare_bind_any; [done|].
  intros self''. apply hoare_bind_any; [by apply hoare_report|].
  intros _. by apply hoare_ret.
Qed.

Lemma hoare_action_stage_delete self sched :
  delete_mode self = true ->
  hoare no_copy_or_move (action_stage self sched) (fun _ => True).
Proof.
  intros Hdel. unfold action_stage. rewrite Hdel.
  apply (hoare_action_pool _ (fun _ => True)); try done.
  intros file_info. by apply hoare_process_file_delete.
Qed.

Lemma hoare_process_files_delete self sched :
  delete_mode self = true ->
  hoare no_copy_or_move (process_files self sched) (fun _ => True).
Proof.
  intros Hdel. assert (allows_logging no_copy_or_move) as HP by done.
  unfold process_files.
  apply hoare_bind_any; [by apply hoare_read_input_file|]. intros filenames.
  destruct filenames as [|f filenames]; [by apply hoare_say_return|].
  apply hoare_bind_any; [by apply hoare_announce|]. intros _.
  eapply hoare_bind; [by apply hoare_validate_regex|].
  intros [|] _; [|by apply hoare_ret].
  unfold search_and_process. eapply hoare_bind.
  { by apply (hoare_search_pool _ (fun s => delete_mode s = true)). }
  intros [self' found_count] Hdel'.
  apply hoare_finish; [done|]. by apply hoare_action_stage_delete.
Qed.

(** Past the search pool nothing is submitted to it and no regex is
    compiled by [process_files]. *)
Lemma past_search_logging P : past_search P -> allows_logging P.
Proof. intros HP. split; [intros m; apply (HP (EvLog m))|]. intros d m ok. apply (HP (EvFs _ _)). Qed.

Lemma hoare_process_file P self file_info :
  past_search P -> hoare P (process_file self file_info) (fun _ => True).
Proof.
  intros HP. pose proof (past_search_logging P HP) as Hlog.
  assert (forall op, hoare P (fs op) (fun _ => True)) as Hfs.
  { intros op. apply hoare_fs; [|done]. intros ok. apply (HP (EvFs _ _)). }
  assert (forall (b : bool) (m1 m2 : M unit),
    hoare P m1 (fun _ => True) -> hoare P m2 (fun _ => True) ->
    hoare P (if b then m1 else m2) (fun _ => True)) as Hif.
  { by intros []. }
  destruct file_info as [filename source_path]. unfold process_file.
  apply hoare_try_except.
  - destruct (delete_mode self).
    { apply hoare_bind_any; [apply Hfs|]. intros _. by apply hoare_ret. }
    apply hoare_bind_any.
    { apply Hif; [apply Hif|by apply hoare_ret]; [|apply Hfs].
      apply hoare_bind_any; [apply Hfs|]. intros _. apply Hfs. }
    intros _. apply hoare_bind_any; [|intros _; by apply hoare_ret].
    apply Hif; [apply Hif|by apply hoare_ret]; [|apply Hfs].
    apply hoare_bind_any; [apply Hfs|]. intros _. apply Hfs.
  - apply hoare_bind_any; [by apply hoare_log|]. intros _. by apply hoare_ret.
Qed.

Lemma hoare_finish_past_search P self total found_count sched :
  past_search P -> hoare P (finish self total found_count sched) (fun _ => True).
Proof.
  intros HP. apply hoare_finish; [by apply past_search_logging|].
  assert (forall phase, hoare P (action_pool phase self sched) (fun _ => True))
    as Hpool.
  { intros phase. apply (hoare_action_pool _ (fun _ => True)); try done.
    - intros file_info. apply (HP (EvSubmitProcess _)).
    - intros c t. apply (HP (EvProgress _ _ _)).
    - intros file_info. by apply hoare_process_file. }
  unfold action_stage. destruct (delete_mode self); [done|].
  destruct (_ || _); [done|by apply hoare_ret].
Qed.

(** ** Reading traces *)

Lemma logging_no_search : allows_logging no_search_submitted.
Proof. done. Qed.

Lemma logging_no_compile : allows_logging no_compile.
Proof. done. Qed.

Lemma logged_app t1 t2 : logged (t1 ++ t2) = logged t1 ++ logged t2.
Proof. apply omap_app. Qed.

Lemma submitted_searches_app t1 t2 :
  submitted_searches (t1 ++ t2) = submitted_searches t1 ++ submitted_searches t2.
Proof. apply omap_app. Qed.

Lemma compiled_app t1 t2 : compiled (t1 ++ t2) = compiled t1 ++ compiled t2.
Proof. apply omap_app. Qed.

Lemma submitted_searches_nil t :
  Forall no_search_submitted t -> submitted_searches t = [].
Proof. induction 1 as [|[] t He _ IH]; simpl in *; done. Qed.

Lemma compiled_nil t : Forall no_compile t -> compiled t = [].
Proof. induction 1 as [|[] t He _ IH]; simpl in *; done. Qed.

Lemma logged_nil t : Forall no_message t -> logged t = [].
Proof. induction 1 as [|[] t He _ IH]; simpl in *; done. Qed.

Lemma hoare_trace {A} P (m : M A) Q w r w' t :
  hoare P m Q -> m w = (r, w', t) -> Forall P t.
Proof. intros Hm Hrun. destruct (Hm w) as [Ht _]. by rewrite Hrun in Ht. Qed.

(** ** Calls that return *)

Lemma get_string_Ok self key w tpl w' t :
  get_string self key w = (Ok tpl, w', t) ->
  tpl = GetString key /\ w' = w /\ t = [].
Proof.
  unfold get_string. destruct (lang self); [|done]. by intros [= <- <- <-].
Qed.

Lemma logged_log self m w : logged (trace_of (log self m w)) = [m].
Proof.
  unfold log. rewrite bind_run. simpl.
  destruct (log_path self) as [d|]; [|done].
  destruct (PyStr.truthy d); [|done]. unfold fs.
  by destruct (fs_exec _ w) as [[] w2].
Qed.

Lemma log_Ok self m w u w' t : log self m w = (Ok u, w', t) -> logged t = [m].
Proof. intros Hrun. pose proof (logged_log self m w) as H. by rewrite Hrun in H. Qed.

Lemma say_Ok self key (msg : Template -> Message) w u w' t :
  (tpl ← get_string self key; log self (msg tpl)) w = (Ok u, w', t) ->
  logged t = [msg (GetString key)].
Proof.
  intros (tpl & w1 & t1 & t2 & Hget & Hlog & ->)%bind_Ok.
  apply get_string_Ok in Hget as (-> & -> & ->). by apply log_Ok in Hlog.
Qed.

Lemma log_each_Ok {A} self (l : list A) (msg : A -> Message) w u w' t :
  for_each l (fun x _ => log self (msg x)) tt w = (Ok u, w', t) ->
  logged t = msg <$> l.
Proof.
  revert w t. induction l as [|x l IH]; intros w t; simpl.
  - by intros [= _ _ <-].
  - intros (u1 & w1 & t1 & t2 & Hlog & Hrest & ->)%bind_Ok.
    rewrite logged_app. apply log_Ok in Hlog as ->. destruct u1.
    by rewrite (IH _ _ Hrest).
Qed.

Lemma submit_searches_run self filenames w :
  for_each filenames
    (fun filename _ => emit (EvSubmitSearch filename (regex_filter self))) tt w
  = (Ok tt, w, (fun f => EvSubmitSearch f (regex_filter self)) <$> filenames).
Proof.
  induction filenames as [|f l IH]; simpl; [done|].
  rewrite bind_run. simpl. by rewrite IH.
Qed.

Lemma submitted_searches_submit (r : option string) filenames :
  submitted_searches ((fun f => EvSubmitSearch f r) <$> filenames) = filenames.
Proof. induction filenames as [|f l IH]; [done|]. simpl. by f_equal. Qed.

(** ** [read_input_file] *)

Lemma stripped_lines_nonblank lines : stripped_lines lines = nonblank_lines lines.
Proof.
  unfold stripped_lines, nonblank_lines.
  induction lines as [|line lines IH]; [done|].
  rewrite fmap_cons. cbn [List.filter].
  destruct (PyStr.truthy (PyStr.strip line)); [rewrite fmap_cons|]; by rewrite IH.
Qed.

Lemma read_input_file_Ok self w filenames w' t :
  read_input_file self w = (Ok filenames, w', t) ->
  filenames = stripped_lines (input_lines self w)
  /\ (filenames <> [] -> logged t = []).
Proof.
  unfold read_input_file, input_lines.
  destruct (py_truthy (input_text self)); [by intros [= <- _ <-]|].
  destruct (py_truthy (input_file self)); simpl; [|by intros [= <- _ <-]].
  intros (w1 & w2 & t1 & t2 & Hw & Hread & ->)%bind_Ok.
  injection Hw as <- <- <-.
  destruct (open_read _ w); [by injection Hread as <- _ <-|].
  apply bind_Ok in Hread as (? & ? & ? & ? & _ & [= <- _ _] & _). done.
Qed.

(** ** [__init__] *)

Lemma init_Ok input_file input_text copy_path move_path log_path
    match_folder_structure delete_mode regex_filter lang w self w' t :
  init input_file input_text copy_path move_path log_path
    match_folder_structure delete_mode regex_filter lang w = (Ok self, w', t) ->
  fresh self
  /\ config self
     = (input_file, input_text, copy_path, move_path, log_path,
        match_folder_structure, delete_mode, regex_filter, lang).
Proof.
  unfold init.
  intros (? & ? & ? & ? & _ & Hrest & _)%bind_Ok.
  apply bind_Ok in Hrest as (? & ? & ? & ? & _ & Hrest & _).
  apply bind_Ok in Hrest as (? & ? & ? & ? & _ & [= <- _ _] & _).
  by repeat split.
Qed.

(** ** [validate_regex] *)

Lemma validate_regex_Ok self w valid w' t :
  validate_regex self w = (Ok valid, w', t) ->
  submitted_searches t = []
  /\ if valid
     then passes_validation self /\ logged t = [] /\ length (compiled t) <= 1
     else ~ passes_validation self
          /\ compiled t = [default "" (regex_filter self)]
          /\ logged t = [Format (GetString "errors.invalid_regex") [ArgError]].
Proof.
  unfold validate_regex, passes_validation.
  destruct (py_truthy (regex_filter self)) eqn:Htruthy.
  2:{ intros [= <- _ <-]. repeat split; simpl; auto. done. }
  intros ([] & w1 & t1 & t2 & [= <- <-] & Hrest & ->)%bind_Ok.
  destruct (re_compile _) eqn:Hc.
  - injection Hrest as <- _ <-. repeat split; simpl; auto.
  - apply bind_Ok in Hrest as (tpl & w2 & t3 & t4 & Hget & Hrest & ->).
    apply get_string_Ok in Hget as (-> & -> & ->).
    apply bind_Ok in Hrest as ([] & w3 & t5 & t6 & Hlog & [= <- _ <-] & ->).
    pose proof (hoare_trace _ _ _ _ _ _ _
                  (hoare_log _ self _ logging_no_search) Hlog) as Hsub.
    pose proof (hoare_trace _ _ _ _ _ _ _
                  (hoare_log _ self _ logging_no_compile) Hlog) as Hcomp.
    apply log_Ok in Hlog. repeat split.
    + simpl. rewrite app_nil_r. by apply submitted_searches_nil.
    + intros H. by destruct (H eq_refl).
    + simpl. rewrite app_nil_r. by rewrite (compiled_nil _ Hcomp).
    + simpl. by rewrite app_nil_r.
Qed.

(** ** The search pool *)

Lemma gathered_cons futures future done results :
  futures !! future = Some results ->
  gathered futures (future :: done) = results ++ gathered futures done.
Proof. intros H. unfold gathered. simpl. by rewrite H. Qed.

Lemma gather_loop_Ok futures total done self c k w self1 c1 k1 w1 t :
  for_each done (gather_step futures total) (self, c, k) w
  = (Ok (self1, c1, k1), w1, t) ->
  found_files self1 = found_files self ++ gathered futures done
  /\ k1 = k + length (gathered futures done)
  /\ config self1 = config self
  /\ processed_files self1 = processed_files self
  /\ failed_files self1 = failed_files self
  /\ w1 = w.
Proof.
  revert self c k w t. induction done as [|future done IH]; intros self c k w t.
  { intros [= <- _ <- <- _]. unfold gathered. simpl.
    rewrite app_nil_r. repeat split; lia. }
  simpl. intros ([[self' c'] k'] & w2 & t1 & t2 & Hstep & Hrest & ->)%bind_Ok.
  apply IH in Hrest as (Hfound & -> & Hconfig & Hproc & Hfail & ->).
  unfold gather_step in Hstep.
  destruct (futures !! future) as [results|] eqn:Hfuture; [|done].
  rewrite (gathered_cons _ _ _ _ Hfuture).
  destruct results as [|r results];
    apply bind_Ok in Hstep as ([] & w3 & t3 & t4 & [= <- <-] & [= <- <- <- <-] & _).
  - repeat split; try done.
  - rewrite Hfound, Hconfig, Hproc, Hfail. simpl. rewrite <- !app_assoc.
    repeat split; try done. rewrite length_app. simpl. lia.
Qed.

Lemma gather_step_run futures total future self c k w results :
  futures !! future = Some results ->
  gather_step futures total future (self, c, k) w
  = (Ok (match results with
         | [] => (self, c + 1, k)
         | _ => (set_found_files self (found_files self ++ results),
                 c + 1, k + length results)
         end), w, [EvProgress "search" (c + 1) total]).
Proof. intros H. unfold gather_step. rewrite H. by destruct results. Qed.

(** The loop never raises when the order names submitted futures only. *)
Lemma gather_loop_total futures total done self c k w :
  Forall (fun future => future < length futures) done ->
  exists self1 c1 k1 t,
    for_each done (gather_step futures total) (self, c, k) w
    = (Ok (self1, c1, k1), w, t).
Proof.
  intros Hdone. revert self c k.
  induction Hdone as [|future done Hlt _ IH]; intros self c k.
  { by exists self, c, k, []. }
  cbn [for_each]. rewrite bind_run.
  destruct (lookup_lt_is_Some_2 futures future Hlt) as [results Hres].
  rewrite (gather_step_run _ _ _ _ _ _ _ _ Hres).
  destruct results as [|r results].
  - destruct (IH self (c + 1) k) as (self1 & c1 & k1 & t & ->). eauto.
  - set (self' := set_found_files _ _).
    destruct (IH self' (c + 1) (k + length (r :: results)))
      as (self1 & c1 & k1 & t & ->). eauto.
Qed.

Lemma valid_order_lt n order :
  valid_order n order -> Forall (fun i => i < n) order.
Proof.
  intros Hperm. apply Forall_forall. intros i Hi.
  rewrite Hperm in Hi. apply elem_of_seq in Hi. lia.
Qed.

Lemma gather_found_Ok futures total done self w self1 k w1 t :
  gather_found futures total done self w = (Ok (self1, k), w1, t) ->
  found_files self1 = found_files self ++ gathered futures done
  /\ k = length (gathered futures done)
  /\ config self1 = config self
  /\ processed_files self1 = processed_files self
  /\ failed_files self1 = failed_files self.
Proof.
  unfold gather_found.
  intros ([[self' c'] k'] & w2 & t1 & t2 & Hloop & [= <- <- _ _] & _)%bind_Ok.
  apply gather_loop_Ok in Hloop as (? & ? & ? & ? & ? & ?). by repeat split.
Qed.

Lemma search_pool_Ok self filenames sched w self1 k w1 t :
  search_pool self filenames sched w = (Ok (self1, k), w1, t) ->
  let futures :=
    (fun filename => search_single_file filename (regex_filter self) w)
      <$> filenames in
  found_files self1 = found_files self ++ gathered futures (search_done sched)
  /\ k = length (gathered futures (search_done sched))
  /\ config self1 = config self
  /\ processed_files self1 = processed_files self
  /\ failed_files self1 = failed_files self
  /\ submitted_searches t = filenames
  /\ compiled t = [] /\ logged t = [].
Proof.
  unfold search_pool. rewrite bind_run, submit_searches_run, bind_run. simpl.
  destruct (gather_found _ _ _ _ w) as [[[[self' k']|] w2] t2] eqn:Hg; [|done].
  intros [= <- <- _ <-].
  assert (forall P, (forall c t, P (EvProgress "search" c t)) -> Forall P t2)
    as Hquiet.
  { intros P HP. eapply hoare_trace; [|exact Hg].
    by apply (hoare_gather_found P (fun _ => True)). }
  pose proof (Hquiet no_search_submitted ltac:(done)) as Hsub.
  pose proof (Hquiet no_compile ltac:(done)) as Hcomp.
  pose proof (Hquiet no_message ltac:(done)) as Hmsg.
  apply gather_found_Ok in Hg as (? & ? & ? & ? & ?).
  rewrite submitted_searches_app, compiled_app, logged_app.
  rewrite submitted_searches_submit, (submitted_searches_nil _ Hsub), app_nil_r.
  rewrite (compiled_nil _ Hcomp), (logged_nil _ Hmsg), !app_nil_r.
  repeat split; try done.
  - apply compiled_nil, Forall_fmap, Forall_true. done.
  - apply logged_nil, Forall_fmap, Forall_true. done.
Qed.

(** ** The action pool *)

Lemma attributed_nil b found outcomes : attributed b found outcomes [] = [].
Proof. unfold attributed. by destruct found. Qed.

Lemma attributed_cons (b : bool) entry found (outcomes : gmap nat (Result bool))
    (future : nat) done :
  attributed b (entry :: found) outcomes (future :: done)
  = match (outcomes !! future : option (Result bool)) with
    | Some (Ok result) => if bool_decide (result = b) then [entry] else []
    | _ => []
    end ++ attributed b found outcomes done.
Proof.
  unfold attributed. simpl.
  destruct (outcomes !! future) as [[result|]|]; try done.
  by destruct (bool_decide (result = b)).
Qed.

Lemma collect_step_Ok phase outcomes future self c w self' c' w' t :
  collect_step phase outcomes future (self, c) w = (Ok (self', c'), w', t) ->
  exists (result : bool) entry,
    outcomes !! future = Some (Ok result)
    /\ found_files self !! c = Some entry
    /\ c' = c + 1 /\ w' = w
    /\ self' = if result
               then set_processed_files self (processed_files self ++ [entry])
               else set_failed_files self (failed_files self ++ [entry]).
Proof.
  unfold collect_step. rewrite Nat.add_sub.
  destruct (outcomes !! future) as [[result|]|]; try done.
  destruct (found_files self !! c) as [entry|]; [|done].
  intros ([] & w1 & t1 & t2 & [= <- <-] & [= <- <- <-] & _)%bind_Ok.
  by exists result, entry.
Qed.

Lemma collect_loop_Ok phase outcomes done self c w self1 c1 w1 t :
  for_each done (collect_step phase outcomes) (self, c) w
  = (Ok (self1, c1), w1, t) ->
  processed_files self1
  = processed_files self ++ attributed true (drop c (found_files self)) outcomes done
  /\ failed_files self1
     = failed_files self ++ attributed false (drop c (found_files self)) outcomes done
  /\ found_files self1 = found_files self
  /\ config self1 = config self
  /\ length done <= length (found_files self) - c
  /\ Forall (fun future => exists result, outcomes !! future = Some (Ok result)) done.
Proof.
  revert self c w t. induction done as [|future done IH]; intros self c w t.
  { intros [= <- _ _ _]. rewrite !attributed_nil, !app_nil_r.
    repeat split; simpl; try done. lia. }
  cbn [for_each]. intros ([self' c'] & w2 & t1 & t2 & Hstep & Hrest & ->)%bind_Ok.
  apply collect_step_Ok in Hstep
    as (result & entry & Hout & Hentry & -> & -> & ->).
  apply IH in Hrest as (Hproc & Hfail & Hfound & Hconfig & Hlen & Hall).
  rewrite (drop_S _ _ _ Hentry), !attributed_cons, Hout.
  apply lookup_lt_Some in Hentry.
  rewrite Hproc, Hfail, Hfound, Hconfig. rewrite Nat.add_1_r in *.
  destruct result; simpl in *; rewrite <- ?app_assoc; simpl;
    (repeat split; [done..|lia|constructor; eauto]).
Qed.

Lemma collect_results_Ok phase outcomes done self w self1 w1 t :
  collect_results phase outcomes done self w = (Ok self1, w1, t) ->
  processed_files self1
  = processed_files self ++ attributed true (found_files self) outcomes done
  /\ failed_files self1
     = failed_files self ++ attributed false (found_files self) outcomes done
  /\ found_files self1 = found_files self
  /\ config self1 = config self
  /\ length done <= length (found_files self)
  /\ Forall (fun future => exists result, outcomes !! future = Some (Ok result)) done.
Proof.
  unfold collect_results.
  intros ([self' c'] & w2 & t1 & t2 & Hloop & [= <- _ _] & _)%bind_Ok.
  apply collect_loop_Ok in Hloop. rewrite drop_0, Nat.sub_0_r in Hloop. done.
Qed.

(** Every completed future is attributed to exactly one of the two lists. *)
Lemma attributed_length found outcomes done :
  length done <= length found ->
  Forall (fun future => exists result, outcomes !! future = Some (Ok result)) done ->
  length (attributed true found outcomes done)
  + length (attributed false found outcomes done) = length done.
Proof.
  intros Hlen Hall. revert found Hlen.
  induction Hall as [|future done [result Hout] _ IH]; intros found Hlen.
  { by rewrite !attributed_nil. }
  destruct found as [|entry found]; simpl in Hlen; [lia|].
  rewrite !attributed_cons, Hout, !length_app. cbn [length].
  rewrite <- (IH found) by lia. destruct result; simpl; lia.
Qed.

Lemma attributed_permutation found outcomes done :
  length done <= length found ->
  Forall (fun future => exists result, outcomes !! future = Some (Ok result)) done ->
  attributed true found outcomes done ++ attributed false found outcomes done
  ≡ₚ take (length done) found.
Proof.
  intros Hlen Hall. revert found Hlen.
  induction Hall as [|future done [result Hout] _ IH]; intros found Hlen.
  { by rewrite !attributed_nil. }
  destruct found as [|entry found]; simpl in Hlen; [lia|].
  rewrite !attributed_cons, Hout. simpl. rewrite <- (IH found) by lia.
  destruct result; simpl; [done|]. by rewrite <- Permutation_middle.
Qed.

Lemma action_pool_Ok phase self sched w self1 w1 t :
  action_pool phase self sched w = (Ok self1, w1, t) ->
  exists outcomes,
    processed_files self1
    = processed_files self
      ++ attributed true (found_files self) outcomes (action_done sched)
    /\ failed_files self1
       = failed_files self
         ++ attributed false (found_files self) outcomes (action_done sched)
    /\ found_files self1 = found_files self
    /\ config self1 = config self
    /\ length (action_done sched) <= length (found_files self)
    /\ Forall (fun future => exists result, outcomes !! future = Some (Ok result))
         (action_done sched).
Proof.
  unfold action_pool.
  intros ([] & w2 & t1 & t2 & _ & Hrest & _)%bind_Ok.
  apply bind_Ok in Hrest as (outcomes & w3 & t3 & t4 & _ & Hcollect & _).
  exists outcomes. by apply collect_results_Ok in Hcollect.
Qed.

(** ** The summary and the whole run *)

Lemma report_Ok self total found_count w u w' t :
  report self total found_count w = (Ok u, w', t) ->
  exists post,
    logged t = summary_counts self total found_count ++ post /\ length post <= 1.
Proof.
  unfold report.
  intros (u1 & w1 & t1 & r1 & H1 & Hrest & ->)%bind_Ok. apply say_Ok in H1.
  apply bind_Ok in Hrest as (u2 & w2 & t2 & r2 & H2 & Hrest & ->). apply say_Ok in H2.
  apply bind_Ok in Hrest as (u3 & w3 & t3 & r3 & H3 & Hrest & ->). apply say_Ok in H3.
  apply bind_Ok in Hrest as (u4 & w4 & t4 & r4 & H4 & Hrest & ->). apply say_Ok in H4.
  apply bind_Ok in Hrest as (u5 & w5 & t5 & r5 & H5 & Hrest & ->).
  assert (forall (b : bool) key (n : option nat) w l w' t,
    (if b then tpl ← get_string self key; ret [(tpl, n)] else ret []) w
    = (Ok l, w', t) -> t = []) as Hitem.
  { intros [] key n v l v' tr; [|by intros [= _ _ <-]].
    intros (tpl & v1 & tr1 & tr2 & Hget & [= _ _ <-] & ->)%bind_Ok.
    by apply get_string_Ok in Hget as (_ & _ & ->). }
  apply bind_Ok in Hrest as (a6 & w6 & t6 & r6 & H6 & Hrest & ->). apply Hitem in H6 as ->.
  apply bind_Ok in Hrest as (a7 & w7 & t7 & r7 & H7 & Hrest & ->). apply Hitem in H7 as ->.
  apply bind_Ok in Hrest as (a8 & w8 & t8 & r8 & H8 & Hrest & ->). apply Hitem in H8 as ->.
  apply bind_Ok in Hrest as (a9 & w9 & t9 & r9 & H9 & Hrest & ->). apply Hitem in H9 as ->.
  exists (logged r9). rewrite !logged_app, H1, H2, H3, H4. simpl. split.
  - unfold summary_counts. simpl. do 4 f_equal.
    destruct (failed_files self); [by injection H5 as _ _ <-|].
    apply say_Ok in H5. by rewrite H5.
  - destruct (a6 ++ a7 ++ a8 ++ a9); [injection Hrest as _ _ <-; simpl; lia|].
    apply say_Ok in Hrest. rewrite Hrest. simpl. lia.
Qed.

Lemma action_stage_Ok self sched w self1 w1 t :
  action_stage self sched w = (Ok self1, w1, t) ->
  found_files self1 = found_files self /\ config self1 = config self.
Proof.
  unfold action_stage. destruct (delete_mode self).
  { by intros (? & _ & _ & ? & ? & _)%action_pool_Ok. }
  destruct (_ || _).
  { by intros (? & _ & _ & ? & ? & _)%action_pool_Ok. }
  by intros [= <- _ _].
Qed.

Lemma finish_Ok self total found_count sched w self' w' t :
  finish self total found_count sched w = (Ok self', w', t) ->
  (found_files self = [] /\ self' = self
   /\ logged t = [Heading (GetString "messages.no_matches")])
  \/ (found_files self <> []
      /\ (exists w2 w3 t3, action_stage self sched w2 = (Ok self', w3, t3))
      /\ exists pre post,
           logged t = pre ++ summary_counts self' total found_count ++ post
           /\ length post <= 1).
Proof.
  unfold finish. destruct (found_files self) as [|file_info found] eqn:Hfound.
  - intros (tpl & w1 & t1 & t2 & Hget & Hrest & ->)%bind_Ok.
    apply get_string_Ok in Hget as (-> & -> & ->).
    apply bind_Ok in Hrest as ([] & w2 & t3 & t4 & Hlog & [= <- _ <-] & ->).
    apply log_Ok in Hlog. left. simpl. by rewrite app_nil_r.
  - intros (u1 & w1 & t1 & r1 & H1 & Hrest & ->)%bind_Ok.
    apply bind_Ok in Hrest as (u2 & w2 & t2 & r2 & H2 & Hrest & ->).
    apply bind_Ok in Hrest as (self1 & w3 & t3 & r3 & Hact & Hrest & ->).
    apply bind_Ok in Hrest as (u4 & w4 & t4 & r4 & Hrep & [= <- _ <-] & ->).
    apply report_Ok in Hrep as (post & Hrep & Hpost).
    right. split; [done|]. split; [by eauto|].
    exists (logged t1 ++ logged t2 ++ logged t3), post.
    rewrite !logged_app, Hrep. simpl. by rewrite app_nil_r, <- !app_assoc.
Qed.

Lemma search_and_process_Ok self filenames sched w self' w' t :
  search_and_process self filenames sched w = (Ok self', w', t) ->
  exists self1 t1 w1 t2,
    search_pool self filenames sched w
    = (Ok (self1, length (found_files self1) - length (found_files self)), w1, t1)
    /\ finish self1 (length filenames)
         (length (found_files self1) - length (found_files self)) sched w1
       = (Ok self', w', t2)
    /\ t = t1 ++ t2
    /\ submitted_searches t = filenames /\ compiled t = []
    /\ logged t = logged t2.
Proof.
  unfold search_and_process.
  intros ([self1 k] & w1 & t1 & t2 & Hpool & Hfin & ->)%bind_Ok.
  pose proof (search_pool_Ok _ _ _ _ _ _ _ _ Hpool)
    as (Hfound & Hk & _ & _ & _ & Hsub & Hcomp & Hlog).
  assert (k = length (found_files self1) - length (found_files self)) as ->.
  { rewrite Hfound, length_app. lia. }
  exists self1, t1, w1, t2.
  rewrite submitted_searches_app, compiled_app, logged_app, Hsub, Hcomp, Hlog.
  rewrite (submitted_searches_nil t2), (compiled_nil t2), app_nil_r; [done|..].
  - eapply hoare_trace; [|exact Hfin].
    apply hoare_finish_past_search. by intros [].
  - eapply hoare_trace; [|exact Hfin].
    apply hoare_finish_past_search. by intros [].
Qed.

(** A run that returns took one of three ways. *)
Lemma process_files_Ok self sched w self' w' t :
  process_files self sched w = (Ok self', w', t) ->
  let filenames := stripped_lines (input_lines self w) in
  (filenames = [] /\ self' = self
   /\ compiled t = [] /\ submitted_searches t = []
   /\ last (logged t) = Some (Plain (GetString "messages.no_files")))
  \/ (filenames <> [] /\ ~ passes_validation self /\ self' = self
      /\ compiled t = [default "" (regex_filter self)]
      /\ submitted_searches t = []
      /\ logged t = announcement filenames
                    ++ [Format (GetString "errors.invalid_regex") [ArgError]])
  \/ (filenames <> [] /\ passes_validation self
      /\ exists t1 w1 t2,
           t = t1 ++ t2
           /\ submitted_searches t1 = [] /\ length (compiled t1) <= 1
           /\ logged t1 = announcement filenames
           /\ search_and_process self filenames sched w1 = (Ok self', w', t2)).
Proof.
  intros Hrun filenames. unfold process_files in Hrun.
  apply bind_Ok in Hrun as (names & w1 & t1 & r1 & Hread & Hrest & ->).
  pose proof (hoare_trace _ _ _ _ _ _ _
    (hoare_read_input_file _ self logging_no_search) Hread) as Hsub1.
  pose proof (hoare_trace _ _ _ _ _ _ _
    (hoare_read_input_file _ self logging_no_compile) Hread) as Hcomp1.
  apply read_input_file_Ok in Hread as [Hnames Hquiet].
  fold filenames in Hnames. clearbody filenames. subst names.
  destruct filenames as [|f rest] eqn:Hnames.
  { left. apply bind_Ok in Hrest as (tpl & w2 & t2 & r2 & Hget & Hrest & ->).
    apply get_string_Ok in Hget as (-> & -> & ->).
    apply bind_Ok in Hrest as ([] & w3 & t3 & r3 & Hlog & [= <- _ <-] & ->).
    pose proof (hoare_trace _ _ _ _ _ _ _
      (hoare_log _ self _ logging_no_search) Hlog) as Hsub2.
    pose proof (hoare_trace _ _ _ _ _ _ _
      (hoare_log _ self _ logging_no_compile) Hlog) as Hcomp2.
    apply log_Ok in Hlog. simpl. rewrite !app_nil_r.
    rewrite compiled_app, submitted_searches_app, logged_app, Hlog.
    rewrite (compiled_nil t1), (compiled_nil t3) by done.
    rewrite (submitted_searches_nil t1), (submitted_searches_nil t3) by done.
    repeat split; try done. by rewrite last_snoc. }
  cbn iota in Hrest. assert (f :: rest <> []) as Hne by done.
  remember (f :: rest) as names eqn:Hcons. clear Hcons Hnames f rest.
  apply bind_Ok in Hrest as ([] & w2 & t2 & r2 & Hann & Hrest & ->).
  apply bind_Ok in Hrest as (valid & w3 & t3 & r3 & Hval & Hrest & ->).
  pose proof (hoare_trace _ _ _ _ _ _ _
    (hoare_announce _ self _ logging_no_search) Hann) as Hsub2.
  pose proof (hoare_trace _ _ _ _ _ _ _
    (hoare_announce _ self _ logging_no_compile) Hann) as Hcomp2.
  assert (logged t2 = announcement names) as Hlog2.
  { unfold announce in Hann.
    apply bind_Ok in Hann as (u1 & v1 & s1 & s2 & H1 & Hann & ->). apply say_Ok in H1.
    apply bind_Ok in Hann as (u2 & v2 & s3 & s4 & H2 & Hann & ->). apply say_Ok in H2.
    apply log_each_Ok in Hann. by rewrite !logged_app, H1, H2, Hann. }
  apply validate_regex_Ok in Hval as [Hsub3 Hval].
  destruct valid.
  - destruct Hval as (Hpass & Hlog3 & Hcomp3). right. right.
    repeat split; try done. exists (t1 ++ t2 ++ t3), w3, r3.
    rewrite !submitted_searches_app, !compiled_app, !logged_app.
    rewrite (submitted_searches_nil t1), (submitted_searches_nil t2) by done.
    rewrite (compiled_nil t1), (compiled_nil t2) by done.
    rewrite Hsub3, Hlog2, Hlog3, (Hquiet Hne), !app_nil_r, <- !app_assoc.
    by repeat split.
  - destruct Hval as (Hpass & Hcomp3 & Hlog3). injection Hrest as <- _ <-.
    right. left. rewrite !app_nil_r.
    rewrite !submitted_searches_app, !compiled_app, !logged_app.
    rewrite (submitted_searches_nil t1), (submitted_searches_nil t2) by done.
    rewrite (compiled_nil t1), (compiled_nil t2) by done.
    by rewrite Hsub3, Hcomp3, Hlog2, Hlog3, (Hquiet Hne).
Qed.

(** ** [process_file] follows its plan *)

Lemma process_file_plan self file_info w :
  process_file self file_info w =
  let '(b, w1, t) := exec_ops (planned_ops self file_info) w in
  if b then (Ok true, w1, t)
  else
    let '(r, w2, t') := log self (ProcessError file_info.2) w1 in
    (match r with Ok _ => Ok false | Raised => Raised end, w2, t ++ t').
Proof.
  destruct file_info as [filename source_path].
  assert (forall w1 t,
    (let '(r, w'', t') :=
       (log self (ProcessError source_path) ≫= λ _ : (), ret false) w1 in
     (r, w'', t ++ t'))
    = (let '(r, w2, t') := log self (ProcessError source_path) w1 in
       (match r with Ok _ => Ok false | Raised => Raised end, w2, t ++ t')))
    as Hhandler.
  { intros w1 t. rewrite bind_run.
    destruct (log self _ w1) as [[[[]|] w2] t']; simpl; [|done].
    by rewrite app_nil_r. }
  cbn [snd].
  transitivity
    (let '(b, w1, t) := exec_ops (planned_ops self (filename, source_path)) w in
     if b then (Ok true, w1, t)
     else
       let '(r, w'', t') :=
         (log self (ProcessError source_path) ≫= λ _ : (), ret false) w1 in
       (r, w'', t ++ t')).
  2:{ destruct (exec_ops _ w) as [[[] w1] t]; [done|apply Hhandler]. }
  clear Hhandler.
  unfold process_file, planned_ops, spec_transfer, spec_destination,
    structured_dest, try_except.
  generalize (log self (ProcessError source_path) ≫= λ _ : (), ret false).
  intros handler.
  destruct (delete_mode self), (py_truthy (copy_path self)),
    (match_folder_structure self), (py_truthy (move_path self));
    rewrite ?bind_run; unfold fs; simpl;
    repeat (match goal with
            | |- context [fs_exec ?op ?w] =>
                destruct (fs_exec op w) as [[] ?] eqn:?
            end;
            simpl; rewrite ?bind_run; unfold fs; simpl;
            repeat match goal with
              | H : fs_exec _ _ = _ |- _ => rewrite H; simpl
              end);
    repeat match goal with
      | |- context [handler ?w] => destruct (handler w) as [[? ?] ?]
      end;
    reflexivity.
Qed.

Lemma file_ops_app t1 t2 : file_ops (t1 ++ t2) = file_ops t1 ++ file_ops t2.
Proof. apply omap_app. Qed.

Lemma file_ops_cons op ok t :
  is_log_append op = false -> file_ops (EvFs op ok :: t) = (op, ok) :: file_ops t.
Proof. by destruct op. Qed.

Lemma exec_ops_file_ops ops w :
  Forall (fun op => is_log_append op = false) ops ->
  let '(b, _, t) := exec_ops ops w in
  (file_ops t).*1 `prefix_of` ops
  /\ (b = true -> file_ops t = (fun op => (op, true)) <$> ops).
Proof.
  intros Hops. revert w. induction Hops as [|op ops Hop _ IH]; intros w.
  { split; [done|]. done. }
  cbn [exec_ops]. destruct (fs_exec op w) as [[] w1].
  - specialize (IH w1). destruct (exec_ops ops w1) as [[b w2] t].
    destruct IH as [Hpre Hall]. rewrite (file_ops_cons _ _ _ Hop), !fmap_cons.
    split; [by apply prefix_cons|]. intros Hb. by rewrite Hall.
  - rewrite (file_ops_cons _ _ _ Hop). split; [|done].
    by apply prefix_cons, prefix_nil.
Qed.

Lemma planned_ops_no_log self file_info :
  Forall (fun op => is_log_append op = false) (planned_ops self file_info).
Proof.
  destruct file_info as [filename source_path].
  unfold planned_ops, spec_transfer.
  destruct (delete_mode self), (py_truthy (copy_path self)),
    (match_folder_structure self), (py_truthy (move_path self));
    simpl; repeat constructor.
Qed.

(** The calls [process_file] makes are the planned ones, up to the first
    that fails; it returns [True] exactly when all were made. *)
Lemma process_file_follows_plan self file_info w :
  let t := file_ops (trace_of (process_file self file_info w)) in
  t.*1 `prefix_of` planned_ops self file_info
  /\ (result_of (process_file self file_info w) = Ok true ->
      t = (fun op => (op, true)) <$> planned_ops self file_info).
Proof.
  rewrite process_file_plan.
  pose proof (exec_ops_file_ops _ w (planned_ops_no_log self file_info)) as H.
  destruct (exec_ops _ w) as [[b w1] t]. destruct H as [Hpre Hall].
  destruct b; simpl; [by auto|].
  pose proof (file_ops_log self (ProcessError file_info.2) w1) as Hlog.
  destruct (log self _ w1) as [[r w2] t']. simpl in *.
  rewrite file_ops_app, Hlog, app_nil_r. split; [done|]. by destruct r.
Qed.

Lemma exec_ops_shape ops w :
  Forall (fun op => is_log_append op = false) ops ->
  let '(b, _, t) := exec_ops ops w in
  if b then file_ops t = (fun op => (op, true)) <$> ops
  else exists before failing after,
         ops = before ++ failing :: after
         /\ file_ops t = ((fun op => (op, true)) <$> before) ++ [(failing, false)].
Proof.
  intros Hops. revert w. induction Hops as [|op ops Hop _ IH]; intros w; [done|].
  cbn [exec_ops]. destruct (fs_exec op w) as [[] w1].
  - specialize (IH w1). destruct (exec_ops ops w1) as [[[] w2] t];
      rewrite (file_ops_cons _ _ _ Hop).
    + by rewrite IH.
    + destruct IH as (before & failing & after & -> & ->).
      by exists (op :: before), failing, after.
  - rewrite (file_ops_cons _ _ _ Hop). by exists [], op, ops.
Qed.

(** What [process_file] returns and which calls it made, by cases. *)
Lemma process_file_shape self file_info w :
  let t := file_ops (trace_of (process_file self file_info w)) in
  (result_of (process_file self file_info w) = Ok true
   /\ t = (fun op => (op, true)) <$> planned_ops self file_info)
  \/ (result_of (process_file self file_info w) <> Ok true
      /\ exists before failing after,
           planned_ops self file_info = before ++ failing :: after
           /\ t = ((fun op => (op, true)) <$> before) ++ [(failing, false)]).
Proof.
  rewrite process_file_plan.
  pose proof (exec_ops_shape _ w (planned_ops_no_log self file_info)) as H.
  destruct (exec_ops _ w) as [[[] w1] t]; simpl; [by left|].
  right. pose proof (file_ops_log self (ProcessError file_info.2) w1) as Hlog.
  destruct (log self _ w1) as [[r w2] t']. simpl in *.
  rewrite file_ops_app, Hlog, app_nil_r. split; [by destruct r|done].
Qed.


Lemma valid_order_length n order : valid_order n order -> length order = n.
Proof. intros ->. apply length_seq. Qed.

(** With an action configured, the two result lists of a run that
    returns are what the loop of the action pool attributes. *)
Lemma process_files_attribution self sched w self' w' t :
  fresh self ->
  action_mode self ->
  process_files self sched w = (Ok self', w', t) ->
  valid_order (length (found_files self')) (action_done sched) ->
  exists outcomes,
    processed_files self'
    = attributed true (found_files self') outcomes (action_done sched)
    /\ failed_files self'
       = attributed false (found_files self') outcomes (action_done sched)
    /\ Forall (fun future => exists result, outcomes !! future = Some (Ok result))
         (action_done sched).
Proof.
  intros (Hfound0 & Hproc0 & Hfail0) Hmode Hrun Hvalid.
  assert (found_files self' = [] -> processed_files self' = [] ->
          failed_files self' = [] ->
          exists outcomes,
            processed_files self'
            = attributed true (found_files self') outcomes (action_done sched)
            /\ failed_files self'
               = attributed false (found_files self') outcomes (action_done sched)
            /\ Forall (fun future => exists result, outcomes !! future = Some (Ok result))
                 (action_done sched)) as Hnothing.
  { intros Hf Hp Hfl. rewrite Hf in Hvalid. apply Permutation_nil_r in Hvalid.
    exists ∅. by rewrite Hf, Hp, Hfl, Hvalid. }
  apply process_files_Ok in Hrun
    as [(_ & -> & _)|[(_ & _ & -> & _)|(_ & _ & Hrun)]]; [by auto..|].
  destruct Hrun as (t1 & w1 & t2 & -> & _ & _ & _ & Hrun).
  apply search_and_process_Ok in Hrun
    as (self1 & t3 & w2 & t4 & Hpool & Hfin & _).
  apply search_pool_Ok in Hpool as (_ & _ & Hconfig & Hproc1 & Hfail1 & _).
  apply finish_Ok in Hfin as [(Hnone & -> & _)|(_ & (w3 & w4 & t5 & Hact) & _)].
  { apply Hnothing; congruence. }
  unfold config in Hconfig. injection Hconfig as _ _ Hcopy Hmove _ _ Hdel _ _.
  assert (exists phase w5 w6 t6,
    action_pool phase self1 sched w5 = (Ok self', w6, t6))
    as (phase & w5 & w6 & t6 & Hpool).
  { unfold action_stage in Hact. rewrite Hdel, Hcopy, Hmove in Hact.
    unfold action_mode in Hmode. destruct (delete_mode self); [by eauto|].
    destruct Hmode as [Hmode|[Hmode|Hmode]]; [done|..];
      rewrite Hmode, ?orb_true_r in Hact; simpl in Hact; eauto. }
  apply action_pool_Ok in Hpool
    as (outcomes & Hp & Hf & Hsame & _ & _ & Hall).
  exists outcomes. rewrite Hsame, Hp, Hf, Hproc1, Hfail1, Hproc0, Hfail0. done.
Qed.

(** ** Two facts beside the claims *)

(** Without a language manager, as [main] builds the object from the
    command line, [process_files] raises at its first localized
    message. *)
Lemma no_language_manager_raises self sched w :
  lang self = None -> result_of (process_files self sched w) = Raised.
Proof.
  intros Hlang. destruct (process_files self sched w) as [[[self'|] w'] t] eqn:Hrun;
    [|done].
  unfold process_files in Hrun.
  apply bind_Ok in Hrun as (filenames & w1 & t1 & t2 & _ & Hrest & _).
  destruct filenames as [|f filenames].
  - apply bind_Ok in Hrest as (? & ? & ? & ? & Hget & _).
    unfold get_string in Hget. by rewrite Hlang in Hget.
  - apply bind_Ok in Hrest as (? & ? & ? & ? & Hann & _). unfold announce in Hann.
    apply bind_Ok in Hann as (? & ? & ? & ? & Hsay & _).
    apply bind_Ok in Hsay as (? & ? & ? & ? & Hget & _).
    unfold get_string in Hget. by rewrite Hlang in Hget.
Qed.

(** In every run that returns, the regex is compiled at most once, and
    before any search is submitted. *)
Lemma regex_validated_up_front self sched w self' w' t :
  process_files self sched w = (Ok self', w', t) ->
  exists t1 t2,
    t = t1 ++ t2
    /\ submitted_searches t1 = [] /\ compiled t2 = []
    /\ length (compiled t1) <= 1.
Proof.
  intros Hrun. apply process_files_Ok in Hrun
    as [(_ & _ & Hc & Hs & _)|[(_ & _ & _ & Hc & Hs & _)|(_ & _ & Hrun)]].
  - exists t, []. rewrite app_nil_r, Hc. repeat split; simpl; [done|lia].
  - exists t, []. rewrite app_nil_r, Hc. repeat split; simpl; [done|lia].
  - destruct Hrun as (t1 & w1 & t2 & -> & Hsub & Hcomp & _ & Hrun).
    apply search_and_process_Ok in Hrun as (_ & _ & _ & _ & _ & _ & _ & _ & Hc & _).
    by exists t1, t2.
Qed.

End Effects.

(** ** The claims of the specification *)

Section Claims.
Context `{RT : Runtime}.

(** C1. With delete mode active no copy and no move is performed on any
    found file, whatever copy and move destinations are configured:
    [process_file] makes the one call that removes the source, and no
    event of a whole run of [process_files] is a copy, a move, or a
    progress report of the copy/move pool. *)
Theorem delete_mode_is_exclusive self :
  delete_mode self = true ->
  (forall file_info w,
     exists ok,
       file_ops (trace_of (process_file self file_info w))
       = [(OsRemove file_info.2, ok)])
  /\ (forall sched w,
        Forall no_copy_or_move (trace_of (process_files self sched w))).
Proof.
  intros Hdel. split.
  - intros file_info w.
    destruct (process_file_delete self file_info w Hdel) as (ok & Hops & _).
    by exists ok.
  - intros sched w. by apply hoare_process_files_delete.
Qed.

(** C2, as amended. For every run that passes the validation of the regex
    and returns, the searches submitted to the pool are the non-blank
    input lines, stripped, one search per line in the order of the
    input, a line that occurs twice being searched twice. *)
Theorem one_search_per_nonblank_line self sched w self' w' t :
  passes_validation self ->
  process_files self sched w = (Ok self', w', t) ->
  submitted_searches t = nonblank_lines (input_lines self w)
  /\ length (submitted_searches t) = length (nonblank_lines (input_lines self w)).
Proof.
  intros Hpass Hrun. enough (submitted_searches t = nonblank_lines (input_lines self w))
    as -> by done.
  rewrite <- stripped_lines_nonblank.
  apply process_files_Ok in Hrun
    as [(-> & _ & _ & -> & _)|[(_ & Hbad & _)|(_ & _ & Hrun)]]; [done|done|].
  destruct Hrun as (t1 & w1 & t2 & -> & Hsub & _ & _ & Hrun).
  apply search_and_process_Ok in Hrun as (_ & _ & _ & _ & _ & _ & _ & Hsub2 & _).
  by rewrite submitted_searches_app, Hsub, Hsub2.
Qed.

(** C3, as amended. A run that passes the validation of the regex, reads
    a non-empty list of names and returns ends in one of two ways. When
    nothing was found it reports that there are no matches and gives no
    summary. When something was found, its last messages are the summary:
    the requested, found and succeeded counts, then the failed count when
    at least one action failed (also when all of them failed), then at
    most one line naming the actions taken. *)
Theorem summary_ends_run_with_matches self sched w self' w' t :
  fresh self ->
  passes_validation self ->
  nonblank_lines (input_lines self w) <> [] ->
  process_files self sched w = (Ok self', w', t) ->
  let requested := length (nonblank_lines (input_lines self w)) in
  (found_files self' = []
   /\ logged t = announcement (nonblank_lines (input_lines self w))
                 ++ [Heading (GetString "messages.no_matches")])
  \/ (found_files self' <> []
      /\ exists pre post,
           logged t
           = pre ++ summary_counts self' requested (length (found_files self'))
               ++ post
           /\ length post <= 1).
Proof.
  intros (Hfound0 & _ & _) Hpass Hnames Hrun.
  rewrite <- stripped_lines_nonblank in *.
  apply process_files_Ok in Hrun
    as [(Hnil & _)|[(_ & Hbad & _)|(_ & _ & Hrun)]]; [done|done|].
  destruct Hrun as (t1 & w1 & t2 & -> & _ & _ & Hlog1 & Hrun).
  apply search_and_process_Ok in Hrun
    as (self1 & t3 & w2 & t4 & Hpool & Hfin & _ & _ & _ & Hlog2).
  rewrite Hfound0, Nat.sub_0_r in Hfin. simpl.
  rewrite logged_app, Hlog1, Hlog2.
  apply finish_Ok in Hfin
    as [(Hnone & -> & ->)|(Hsome & (w3 & w4 & t5 & Hact) & pre & post & -> & Hpost)].
  - by left.
  - apply action_stage_Ok in Hact as [Hsame _]. right. rewrite Hsame.
    split; [done|]. exists (announcement (stripped_lines (input_lines self w)) ++ pre), post.
    by rewrite <- !app_assoc.
Qed.


(** C5. For every filename and every regex filter that compiles, every
    pair returned by [search_single_file] carries the filename and a path
    that the compiled regex finds a match in ([search], not a full
    match); the path is one of the stripped non-empty lines of the
    standard output of the provider, which exited with code 0. (For the
    empty pattern the code applies no filter; the empty regex finds a
    match in every string.) *)
Theorem search_results_match_regex filename pattern regex w :
  re_compile pattern = Some regex ->
  forall pair,
    pair ∈ search_single_file filename (Some pattern) w ->
    pair.1 = filename
    /\ re_search regex pair.2 = true
    /\ exists stdout,
         subprocess_run (es_command filename) w = RunExited 0 stdout
         /\ pair.2 ∈ stripped_lines (PyStr.splitlines stdout).
Proof.
  intros Hregex pair. unfold search_single_file.
  destruct (subprocess_run _ w) as [|returncode stdout]; [by intros ?%elem_of_nil|].
  destruct (returncode =? 0)%Z eqn:Hcode; [|by intros ?%elem_of_nil].
  apply Z.eqb_eq in Hcode as ->.
  destruct (PyStr.truthy pattern) eqn:Htruthy.
  - rewrite Hregex. intros (path & -> & Hpath)%list_elem_of_fmap.
    apply list_elem_of_In, filter_In in Hpath as [Hpath Hsearch].
    apply list_elem_of_In in Hpath. eauto.
  - intros (path & -> & Hpath)%list_elem_of_fmap.
    destruct pattern; [|done]. split; [done|]. split; [|by eauto].
    by apply re_compile_empty.
Qed.

(** C6. When the invocation of the provider fails, by an exception or by
    a non-zero exit code, [search_single_file] returns no pair, and the
    search pool does not raise: whatever the provider does, it takes
    every future and returns the files gathered from them. *)
Theorem provider_failure_is_no_match filename regex_pattern w :
  subprocess_run (es_command filename) w = RunRaised
  \/ (exists returncode stdout,
        subprocess_run (es_command filename) w = RunExited returncode stdout
        /\ returncode <> 0%Z) ->
  search_single_file filename regex_pattern w = []
  /\ forall self filenames sched,
       valid_order (length filenames) (search_done sched) ->
       exists self1 found_count t,
         search_pool self filenames sched w = (Ok (self1, found_count), w, t)
         /\ found_files self1
            = found_files self
              ++ gathered
                   ((fun f => search_single_file f (regex_filter self) w)
                      <$> filenames)
                   (search_done sched).
Proof.
  intros Hfail. split.
  - unfold search_single_file.
    destruct Hfail as [->|(returncode & stdout & -> & Hcode)]; [done|].
    by apply Z.eqb_neq in Hcode as ->.
  - intros self filenames sched Hvalid.
    set (futures := _ <$> filenames).
    assert (exists self1 k t,
      search_pool self filenames sched w = (Ok (self1, k), w, t))
      as (self1 & k & t & Hpool).
    { unfold search_pool. rewrite bind_run, submit_searches_run, bind_run. simpl.
      unfold gather_found. rewrite bind_run. fold futures.
      destruct (gather_loop_total futures (length filenames) (search_done sched)
                  self 0 0 w) as (self1 & c1 & k1 & t & ->).
      { unfold futures. rewrite length_fmap. by apply valid_order_lt. }
      simpl. eauto. }
    exists self1, k, t. split; [done|].
    by apply search_pool_Ok in Hpool as (? & _).
Qed.

(** C7. With the folder structure preserved, the destination of the copy,
    and of the move, of a found file is the destination root joined with
    the source path without its drive and leading separators, and the
    directories above it are created first. [process_file] makes the
    calls for the copy and then those for the move, each pair being the
    creation of the directories and the copy or move itself, one after
    the other on the file system until one fails: either all of them
    were made and succeeded and it returns [True], or the calls made are
    those before the first that failed and that one, and it does not
    return [True]. The source [C:\a\b\file.txt] goes to
    [D:\out\a\b\file.txt] under the root [D:\out]. *)
Theorem structure_preserving_destination self filename source_path w :
  delete_mode self = false ->
  match_folder_structure self = true ->
  let dest root :=
    NtPath.join root
      (PyStr.lstrip_by (Ascii.eqb NtPath.sep) (NtPath.splitdrive source_path).2) in
  let steps (op : string -> string -> FsOp) (root : option string) :=
    if py_truthy root
    then [OsMakedirs (NtPath.dirname (dest (default "" root)));
          op source_path (dest (default "" root))]
    else [] in
  let plan := steps ShutilCopy2 (copy_path self) ++ steps ShutilMove (move_path self) in
  let t := file_ops (trace_of (process_file self (filename, source_path) w)) in
  t.*1 `prefix_of` plan
  /\ (result_of (process_file self (filename, source_path) w) = Ok true ->
      t = (fun op => (op, true)) <$> plan)
  /\ NtPath.join "D:\out"
       (PyStr.lstrip_by (Ascii.eqb NtPath.sep) (NtPath.splitdrive "C:\a\b\file.txt").2)
     = "D:\out\a\b\file.txt"
  /\ ((result_of (process_file self (filename, source_path) w) = Ok true
       /\ t = (fun op => (op, true)) <$> plan)
      \/ (result_of (process_file self (filename, source_path) w) <> Ok true
          /\ exists before failing after,
               plan = before ++ failing :: after
               /\ t = ((fun op => (op, true)) <$> before) ++ [(failing, false)]))
  /\ process_file self (filename, source_path) w
     = (let '(b, w1, events) := exec_ops plan w in
        if b then (Ok true, w1, events)
        else
          let '(r, w2, events') := log self (ProcessError source_path) w1 in
          (match r with Ok _ => Ok false | Raised => Raised end, w2,
           events ++ events')).
Proof.
  intros Hdel Hpreserve dest steps plan t.
  pose proof (process_file_follows_plan self (filename, source_path) w) as H.
  pose proof (process_file_shape self (filename, source_path) w) as Hshape.
  pose proof (process_file_plan self (filename, source_path) w) as Hplan.
  unfold planned_ops, spec_transfer, spec_destination in H, Hshape, Hplan.
  rewrite Hdel, Hpreserve in H, Hshape, Hplan. destruct H as [Hprefix Hall].
  split; [exact Hprefix|]. split; [exact Hall|]. split; [reflexivity|].
  split; [exact Hshape|exact Hplan].
Qed.

(** C8. With the folder structure not preserved, the destination of the
    copy, and of the move, of a found pair is the destination root joined
    with the requested filename, the first component of the pair; the
    path found has no part in it. [process_file] makes the copy and then
    the move, one after the other on the file system until one fails:
    either both calls configured were made and succeeded and it returns
    [True], or the calls made are those before the first that failed and
    that one, and it does not return [True]. *)
Theorem flat_destination_uses_requested_name self filename source_path w :
  delete_mode self = false ->
  match_folder_structure self = false ->
  let steps (op : string -> string -> FsOp) (root : option string) :=
    if py_truthy root
    then [op source_path (NtPath.join (default "" root) filename)]
    else [] in
  let plan := steps ShutilCopy2 (copy_path self) ++ steps ShutilMove (move_path self) in
  let t := file_ops (trace_of (process_file self (filename, source_path) w)) in
  t.*1 `prefix_of` plan
  /\ (result_of (process_file self (filename, source_path) w) = Ok true ->
      t = (fun op => (op, true)) <$> plan)
  /\ ((result_of (process_file self (filename, source_path) w) = Ok true
       /\ t = (fun op => (op, true)) <$> plan)
      \/ (result_of (process_file self (filename, source_path) w) <> Ok true
          /\ exists before failing after,
               plan = before ++ failing :: after
               /\ t = ((fun op => (op, true)) <$> before) ++ [(failing, false)]))
  /\ process_file self (filename, source_path) w
     = (let '(b, w1, events) := exec_ops plan w in
        if b then (Ok true, w1, events)
        else
          let '(r, w2, events') := log self (ProcessError source_path) w1 in
          (match r with Ok _ => Ok false | Raised => Raised end, w2,
           events ++ events')).
Proof.
  intros Hdel Hflat steps plan t.
  pose proof (process_file_follows_plan self (filename, source_path) w) as H.
  pose proof (process_file_shape self (filename, source_path) w) as Hshape.
  pose proof (process_file_plan self (filename, source_path) w) as Hplan.
  unfold planned_ops, spec_transfer, spec_destination in H, Hshape, Hplan.
  rewrite Hdel, Hflat in H, Hshape, Hplan. destruct H as [Hprefix Hall].
  split; [exact Hprefix|]. split; [exact Hall|].
  split; [exact Hshape|exact Hplan].
Qed.

(** C9. For every run with an action configured that returns, the counts
    satisfy succeeded + failed = found: the loop of the action pool adds
    one entry to [processed_files] or to [failed_files] for each
    completed future. *)
Theorem succeeded_plus_failed_is_found self sched w self' w' t :
  fresh self ->
  action_mode self ->
  process_files self sched w = (Ok self', w', t) ->
  valid_order (length (found_files self')) (action_done sched) ->
  length (processed_files self') + length (failed_files self')
  = length (found_files self').
Proof.
  intros Hfresh Hmode Hrun Hvalid.
  destruct (process_files_attribution _ _ _ _ _ _ Hfresh Hmode Hrun Hvalid)
    as (outcomes & -> & -> & Hall).
  apply valid_order_length in Hvalid.
  rewrite attributed_length; [done|lia|done].
Qed.

End Claims.

(** C10. In the loop of the action pool the entry recorded at a completion
    is the found file at the position given by the number of completions
    so far, not the file the completed future worked on. Whatever the
    order of completion, the two result lists together hold every found
    file exactly once; which file counts as succeeded and which as failed
    depends on that order: with a stale [C:\gone.txt] that cannot be
    deleted, it is reported deleted when its future completes first. *)
Theorem attribution_follows_completion_count :
  (forall (RT : Runtime) phase outcomes future self c w self' c' w' t,
     collect_step phase outcomes future (self, c) w = (Ok (self', c'), w', t) ->
     exists (result : bool) entry,
       outcomes !! future = Some (Ok result)
       /\ found_files self !! c = Some entry
       /\ c' = c + 1
       /\ self' = if result
                  then set_processed_files self (processed_files self ++ [entry])
                  else set_failed_files self (failed_files self ++ [entry]))
  /\ (forall (RT : Runtime) self sched w self' w' t,
        fresh self ->
        action_mode self ->
        process_files self sched w = (Ok self', w', t) ->
        valid_order (length (found_files self')) (action_done sched) ->
        processed_files self' ++ failed_files self' ≡ₚ found_files self')
  /\ (let self :=
        Sample.searcher ("report.docx" +:+ Sample.nl +:+ "gone.txt")
          None None true true None in
      exists r1 r2,
        result_of (process_files self (Sample.in_order 2) Sample.office) = Ok r1
        /\ result_of (process_files self Sample.second_first Sample.office) = Ok r2
        /\ processed_files r1 = [("report.docx", "C:\Users\a\report.docx")]
        /\ failed_files r1 = [("gone.txt", "C:\gone.txt")]
        /\ processed_files r2 = [("gone.txt", "C:\gone.txt")]
        /\ failed_files r2 = [("report.docx", "C:\Users\a\report.docx")]).
Proof.
  split; [|split].
  - intros RT phase outcomes future self c w self' c' w' t Hstep.
    apply collect_step_Ok in Hstep as (result & entry & ? & ? & ? & _ & ?).
    by exists result, entry.
  - intros RT self sched w self' w' t Hfresh Hmode Hrun Hvalid.
    destruct (process_files_attribution _ _ _ _ _ _ Hfresh Hmode Hrun Hvalid)
      as (outcomes & -> & -> & Hall).
    apply valid_order_length in Hvalid.
    rewrite attributed_permutation; [|lia|done].
    by rewrite Hvalid, firstn_all.
  - vm_compute. eexists _, _. repeat split; reflexivity.
Qed.

(** ** The Python runtime on examples *)

Example strip_ex : PyStr.strip ("  a b" +:+ Sample.nl) = "a b".
Proof. reflexivity. Qed.

Example splitlines_ex :
PyStr.splitlines ("a" +:+ Sample.cr +:+ Sample.nl +:+ "b" +:+ Sample.nl +:+ Sample.nl +:+ "c" +:+ Sample.nl)
= ["a"; "b"; ""; "c"].
Proof. reflexivity. Qed.

Example iter_lines_ex :
PyStr.iter_lines ("a" +:+ Sample.cr +:+ Sample.nl +:+ "b" +:+ Sample.nl +:+ "c")
= ["a" +:+ Sample.nl; "b" +:+ Sample.nl; "c"].
Proof. reflexivity. Qed.

Example splitdrive_letter :
NtPath.splitdrive "C:\a\b\file.txt" = ("C:", "\a\b\file.txt").
Proof. reflexivity. Qed.

Example splitdrive_unc :
NtPath.splitdrive "\\server\share\a\f.txt" = ("\\server\share", "\a\f.txt").
Proof. reflexivity. Qed.

Example splitdrive_unc_long :
NtPath.splitdrive "\\?\UNC\srv\sh\x" = ("\\?\UNC\srv\sh", "\x").
Proof. reflexivity. Qed.

Example join_relative : NtPath.join "D:\out" "a\b\file.txt" = "D:\out\a\b\file.txt".
Proof. reflexivity. Qed.

Example join_rooted : NtPath.join "D:\out" "/a/b" = "D:/a/b".
Proof. reflexivity. Qed.

Example join_other_drive : NtPath.join "D:\out" "C:\x" = "C:\x".
Proof. reflexivity. Qed.

Example join_same_drive : NtPath.join "D:\out" "d:x" = "d:\out\x".
Proof. reflexivity. Qed.

Example join_unc : NtPath.join "\\srv\sh" "x" = "\\srv\sh\x".
Proof. reflexivity. Qed.

Example dirname_ex : NtPath.dirname "D:\out\a\b\file.txt" = "D:\out\a\b".
Proof. reflexivity. Qed.

Example dirname_root : NtPath.dirname "\\?\UNC\srv\sh\x" = "\\?\UNC\srv\sh\".
Proof. reflexivity. Qed.

(** ** The claims at work on the small runtime *)

Lemma delete_mode_is_exclusive_witness :
  Forall no_copy_or_move
    (trace_of (process_files Runs.delete_all (Sample.in_order 1) Sample.office)).
Proof.
  exact (proj2 (delete_mode_is_exclusive Runs.delete_all eq_refl)
           (Sample.in_order 1) Sample.office).
Defined.

(** C2, as stated, fails: the two lines [a] and [a] are one distinct name
    and two searches. *)
Lemma duplicate_lines_are_searched_twice :
  length (submitted_searches
            (trace_of (process_files Runs.twice (Sample.in_order 2) Sample.office)))
  <> length (distinct_nonblank_lines (input_lines Runs.twice Sample.office)).
Proof. vm_compute. discriminate. Qed.

Lemma one_search_per_nonblank_line_witness :
  submitted_searches
    (trace_of (process_files Runs.twice (Sample.in_order 2) Sample.office))
  = ["a"; "a"].
Proof.
  refine (proj1 (one_search_per_nonblank_line Runs.twice (Sample.in_order 2)
                   Sample.office Runs.twice Sample.office _ _ _)).
  - intros H. vm_compute in H. discriminate.
  - vm_compute. reflexivity.
Defined.

(** C3, as stated, fails: the run for [missing.txt] passes validation,
    reads one name and returns, and no summary is among its messages. *)
Lemma no_summary_without_matches :
  let run := process_files Runs.missing (Sample.in_order 1) Sample.office in
  passes_validation Runs.missing
  /\ nonblank_lines (input_lines Runs.missing Sample.office) = ["missing.txt"]
  /\ result_of run = Ok Runs.missing
  /\ ~ exists self' requested found pre post,
         logged (trace_of run) = pre ++ summary_counts self' requested found ++ post.
Proof.
  split; [intros H; vm_compute in H; discriminate|].
  split; [reflexivity|]. split; [reflexivity|].
  intros (self' & requested & found & pre & post & H).
  assert (Heading (GetString "messages.summary")
          ∈ logged (trace_of (process_files Runs.missing (Sample.in_order 1)
                                Sample.office))) as Hin.
  { rewrite H. apply elem_of_app. right. apply elem_of_app. left.
    unfold summary_counts. apply elem_of_app. left. by left. }
  vm_compute in Hin.
  repeat (apply elem_of_cons in Hin as [Hin|Hin]; [discriminate|]).
  by apply elem_of_nil in Hin.
Qed.

Lemma summary_ends_run_with_matches_witness :
  let run := process_files Runs.report_run Runs.one_action Sample.office in
  let self' := Sample.returned run Runs.report_run in
  (found_files self' = []
   /\ logged (trace_of run)
      = announcement (nonblank_lines (input_lines Runs.report_run Sample.office))
        ++ [Heading (GetString "messages.no_matches")])
  \/ (found_files self' <> []
      /\ exists pre post,
           logged (trace_of run)
           = pre ++ summary_counts self' 2 (length (found_files self')) ++ post
           /\ length post <= 1).
Proof.
  refine (summary_ends_run_with_matches Runs.report_run Runs.one_action
            Sample.office _
            (world_of (process_files Runs.report_run Runs.one_action Sample.office))
            _ _ _ _ _).
  - by repeat split.
  - intros H. vm_compute in H. discriminate.
  - vm_compute. discriminate.
  - vm_compute. reflexivity.
Defined.



Lemma search_results_match_regex_witness :
  @re_search Sample.runtime "Users" "C:\Users\a\report.docx" = true.
Proof.
  refine (proj1 (proj2 (search_results_match_regex "report.docx" "Users" "Users"
                          Sample.office _
                          ("report.docx", "C:\Users\a\report.docx") _))).
  - reflexivity.
  - vm_compute. apply list_elem_of_here.
Defined.

Lemma provider_failure_is_no_match_witness :
  search_single_file "broken" None Sample.office = [].
Proof.
  refine (proj1 (provider_failure_is_no_match "broken" None Sample.office _)).
  right. exists 1%Z, "". split; [reflexivity|lia].
Defined.

Lemma structure_preserving_destination_witness :
  file_ops
    (trace_of
       (process_file
          (Sample.searcher "file.txt" (Some "D:\out") (Some "E:\moved") true false None)
          ("file.txt", "C:\a\b\file.txt") Sample.office))
  = [(OsMakedirs "D:\out\a\b", true);
     (ShutilCopy2 "C:\a\b\file.txt" "D:\out\a\b\file.txt", true);
     (OsMakedirs "E:\moved\a\b", true);
     (ShutilMove "C:\a\b\file.txt" "E:\moved\a\b\file.txt", true)]
  /\ file_ops
       (trace_of
          (process_file
             (Sample.searcher "gone.txt" (Some "D:\out") (Some "E:\moved") true false
                None)
             ("gone.txt", "C:\gone.txt") Sample.office))
     = [(OsMakedirs "D:\out", true);
        (ShutilCopy2 "C:\gone.txt" "D:\out\gone.txt", false)].
Proof.
  split.
  - refine (proj1 (proj2 (structure_preserving_destination
                            (Sample.searcher "file.txt" (Some "D:\out")
                               (Some "E:\moved") true false None)
                            "file.txt" "C:\a\b\file.txt" Sample.office _ _)) _);
      reflexivity.
  - rewrite (proj2 (proj2 (proj2 (proj2 (structure_preserving_destination
               (Sample.searcher "gone.txt" (Some "D:\out") (Some "E:\moved") true
                  false None)
               "gone.txt" "C:\gone.txt" Sample.office eq_refl eq_refl))))).
    reflexivity.
Defined.

Lemma flat_destination_uses_requested_name_witness :
  file_ops
    (trace_of
       (process_file
          (Sample.searcher "report" (Some "D:\out") (Some "E:\moved") false false None)
          ("report", "C:\Users\a\report.docx") Sample.office))
  = [(ShutilCopy2 "C:\Users\a\report.docx" "D:\out\report", true);
     (ShutilMove "C:\Users\a\report.docx" "E:\moved\report", true)]
  /\ file_ops
       (trace_of
          (process_file
             (Sample.searcher "gone" (Some "D:\out") (Some "E:\moved") false false None)
             ("gone", "C:\gone.txt") Sample.office))
     = [(ShutilCopy2 "C:\gone.txt" "D:\out\gone", false)].
Proof.
  split.
  - refine (proj1 (proj2 (flat_destination_uses_requested_name
                            (Sample.searcher "report" (Some "D:\out")
                               (Some "E:\moved") false false None)
                            "report" "C:\Users\a\report.docx" Sample.office _ _)) _);
      reflexivity.
  - rewrite (proj2 (proj2 (proj2 (flat_destination_uses_requested_name
               (Sample.searcher "gone" (Some "D:\out") (Some "E:\moved") false false
                  None)
               "gone" "C:\gone.txt" Sample.office eq_refl eq_refl)))).
    reflexivity.
Defined.

Lemma succeeded_plus_failed_is_found_witness :
  let self' :=
    Sample.returned
      (process_files Runs.report_run Runs.one_action Sample.office)
      Runs.report_run in
  length (processed_files self') + length (failed_files self')
  = length (found_files self').
Proof.
  refine (succeeded_plus_failed_is_found Runs.report_run Runs.one_action
            Sample.office _
            (world_of (process_files Runs.report_run Runs.one_action Sample.office))
            (trace_of (process_files Runs.report_run Runs.one_action Sample.office))
            _ _ _ _).
  - by repeat split.
  - right. left. reflexivity.
  - vm_compute. reflexivity.
  - vm_compute. reflexivity.
Defined.

Lemma attribution_follows_completion_count_witness :
  let self :=
    Sample.returned
      (process_files Runs.delete_all (Sample.in_order 1) Sample.office)
      Runs.delete_all in
  processed_files self ++ failed_files self ≡ₚ found_files self.
Proof.
  refine (proj1 (proj2 attribution_follows_completion_count) Sample.runtime
            Runs.delete_all (Sample.in_order 1) Sample.office _
            (world_of (process_files Runs.delete_all (Sample.in_order 1)
                         Sample.office))
            (trace_of (process_files Runs.delete_all (Sample.in_order 1)
                         Sample.office))
            _ _ _ _).
  - by repeat split.
  - left. reflexivity.
  - vm_compute. reflexivity.
  - vm_compute. reflexivity.
Defined.

(** The end-to-end example of the specification: two names requested, one
    found and copied flat to [D:\out\report.docx]. *)
Example end_to_end :
  let run := process_files Runs.report_run Runs.one_action Sample.office in
  logged (trace_of run)
  = [Format (GetString "messages.processing") [ArgInt 2];
     Heading (GetString "messages.searching");
     Bullet "report.docx"; Bullet "missing.txt";
     Heading (GetString "messages.found_files");
     FullPath "C:\Users\a\report.docx";
     Heading (GetString "messages.summary");
     Format (GetString "messages.total_processed") [ArgInt 2];
     Format (GetString "messages.total_found") [ArgInt 1];
     Format (GetString "messages.success_processed") [ArgInt 1];
     Format (GetString "messages.actions_taken")
       [ArgJoin [(GetString "messages.copied_files", Some 1)]]]
  /\ Sample.exists_file "D:\out\report.docx" (world_of run) = true.
Proof. split; reflexivity. Qed.

(** * More properties of the pipeline *)

Section More_facts.
Context `{RT : Runtime}.

(** ** Whole runs, stage by stage *)

Lemma file_ops_nil t : Forall log_only t -> file_ops t = [].
Proof.
  induction 1 as [|e t He _ IH]; [done|].
  destruct e as [| op ok | | | |]; simpl in *; try done. by destruct op.
Qed.

Lemma prelude_only_log_only t : Forall prelude_only t -> Forall log_only t.
Proof.
  intros H. eapply Forall_impl; [exact H|].
  intros [| op ok | | | |]; simpl; done.
Qed.

Lemma logging_prelude_only : allows_logging prelude_only.
Proof. done. Qed.

Lemma logging_log_only : allows_logging log_only.
Proof. done. Qed.

(** A property of the events of the stages carries over to the run. *)
Lemma hoare_process_files_with P (I : EverythingSearcher -> Prop) self sched :
  allows_logging P ->
  (forall p, P (EvCompile p)) ->
  (forall f r, P (EvSubmitSearch f r)) ->
  (forall c t, P (EvProgress "search" c t)) ->
  (forall s l, I s -> I (set_found_files s l)) ->
  I self ->
  (forall self1, I self1 -> hoare P (action_stage self1 sched) (fun _ => True)) ->
  hoare P (process_files self sched) (fun _ => True).
Proof.
  intros HP Hcomp Hsub Hprog Hset Hself Hstage. unfold process_files.
  apply hoare_bind_any; [by apply hoare_read_input_file|]. intros filenames.
  destruct filenames as [|f filenames]; [by apply hoare_say_return|].
  apply hoare_bind_any; [by apply hoare_announce|]. intros _.
  eapply hoare_bind; [by apply hoare_validate_regex|].
  intros [|] _; [|by apply hoare_ret].
  unfold search_and_process. eapply hoare_bind.
  { by apply (hoare_search_pool _ I). }
  intros [self' found_count] Hself'. apply hoare_finish; [done|]. by apply Hstage.
Qed.

(** A run that returns stopped before the search, having done nothing
    but log, or went through the search pool and what follows it. *)
Lemma process_files_stages self sched w self' w' t :
  process_files self sched w = (Ok self', w', t) ->
  (self' = self /\ Forall prelude_only t)
  \/ (exists t1 w1 self1 found_count t2 w2 t3,
        let names := stripped_lines (input_lines self w) in
        names <> [] /\ passes_validation self
        /\ t = t1 ++ t2 ++ t3
        /\ Forall prelude_only t1
        /\ search_pool self names sched w1 = (Ok (self1, found_count), w2, t2)
        /\ finish self1 (length names) found_count sched w2 = (Ok self', w', t3)).
Proof.
  intros Hrun. unfold process_files in Hrun.
  apply bind_Ok in Hrun as (names & w1 & t1 & r1 & Hread & Hrest & ->).
  pose proof (hoare_trace _ _ _ _ _ _ _
    (hoare_read_input_file _ self logging_prelude_only) Hread) as Hq1.
  apply read_input_file_Ok in Hread as [-> _].
  destruct (stripped_lines (input_lines self w)) as [|f rest] eqn:Hnames.
  { left. pose proof (hoare_trace _ _ _ _ _ _ _
      (hoare_say_return prelude_only self "messages.no_files" Plain self
         logging_prelude_only) Hrest) as Hq2.
    apply bind_Ok in Hrest as (? & ? & ? & ? & _ & Hrest & _).
    apply bind_Ok in Hrest as (? & ? & ? & ? & _ & [= <- _ _] & _).
    split; [done|]. by apply Forall_app. }
  apply bind_Ok in Hrest as ([] & w2 & t2 & r2 & Hann & Hrest & ->).
  apply bind_Ok in Hrest as (valid & w3 & t3 & r3 & Hval & Hrest & ->).
  pose proof (hoare_trace _ _ _ _ _ _ _
    (hoare_announce _ self _ logging_prelude_only) Hann) as Hq2.
  pose proof (hoare_trace _ _ _ _ _ _ _
    (hoare_validate_regex _ self logging_prelude_only ltac:(done)) Hval) as Hq3.
  apply validate_regex_Ok in Hval as [_ Hval].
  destruct valid.
  - destruct Hval as (Hpass & _). right. unfold search_and_process in Hrest.
    apply bind_Ok in Hrest as ([self1 k] & w4 & t4 & t5 & Hpool & Hfin & ->).
    exists (t1 ++ t2 ++ t3), w3, self1, k, t4, w4, t5. simpl.
    rewrite <- !app_assoc. repeat split; try done.
    by repeat apply Forall_app_2.
  - injection Hrest as <- _ <-. left. split; [done|].
    rewrite app_nil_r. by repeat apply Forall_app_2.
Qed.

(** ** A run without an action *)

(** X1. With neither delete mode nor a copy or move destination, a run
    makes no file-system call but the writes to its log file, and a run
    that returns leaves the lists of processed and failed files as they
    were. *)
Theorem search_only_run_changes_no_file self sched w :
  delete_mode self = false ->
  py_truthy (copy_path self) = false ->
  py_truthy (move_path self) = false ->
  file_ops (trace_of (process_files self sched w)) = []
  /\ forall self' w' t,
       process_files self sched w = (Ok self', w', t) ->
       processed_files self' = processed_files self
       /\ failed_files self' = failed_files self.
Proof.
  intros Hdel Hcopy Hmove.
  assert (forall self1 w1 self2 w2 t2,
    config self1 = config self ->
    action_stage self1 sched w1 = (Ok self2, w2, t2) -> self2 = self1 /\ t2 = [])
    as Hstage.
  { intros self1 w1 self2 w2 t2 Hconfig. unfold config in Hconfig.
    injection Hconfig as _ _ Hc Hm _ _ Hd _ _. unfold action_stage.
    rewrite Hd, Hc, Hm, Hdel, Hcopy, Hmove. by intros [= <- _ <-]. }
  split.
  - apply file_ops_nil.
    apply (hoare_process_files_with log_only (fun s => config s = config self));
      try done.
    intros self1 Hconfig w1. split; [|done].
    destruct (action_stage self1 sched w1) as [[[self2|] w2] t2] eqn:Hact.
    + by destruct (Hstage _ _ _ _ _ Hconfig Hact) as [_ ->].
    + unfold config in Hconfig. injection Hconfig as _ _ Hc Hm _ _ Hd _ _.
      unfold action_stage in Hact. by rewrite Hd, Hc, Hm, Hdel, Hcopy, Hmove in Hact.
  - intros self' w' t Hrun.
    apply process_files_stages in Hrun as [[-> _]|Hrun]; [done|].
    destruct Hrun as (t1 & w1 & self1 & k & t2 & w2 & t3 & _ & _ & _ & _ & Hpool & Hfin).
    apply search_pool_Ok in Hpool as (_ & _ & Hconfig & <- & <- & _).
    apply finish_Ok in Hfin as [(_ & -> & _)|(_ & (w3 & w4 & t4 & Hact) & _)];
      [done|].
    by destruct (Hstage _ _ _ _ _ Hconfig Hact) as [-> _].
Qed.

(** ** What the actions touch *)

Lemma elem_of_file_ops op ok t : (op, ok) ∈ file_ops t -> EvFs op ok ∈ t.
Proof.
  unfold file_ops. intros (e & He & Hsome)%list_elem_of_omap.
  destruct e as [| op' ok' | | | |]; try done.
  destruct op'; by simplify_eq.
Qed.

Lemma exec_ops_events P ops w :
  (forall op ok, op ∈ ops -> P (EvFs op ok)) -> Forall P (exec_ops ops w).2.
Proof.
  revert w. induction ops as [|op ops IH]; intros w HP; simpl; [done|].
  destruct (fs_exec op w) as [[] w1].
  - specialize (IH w1). destruct (exec_ops ops w1) as [[b w2] t]. simpl in *.
    constructor; [apply HP; by left|]. apply IH. intros op' ok' Hin.
    apply HP. by right.
  - simpl. repeat constructor. apply HP. by left.
Qed.

(** The events of [process_file] are its planned calls and its log. *)
Lemma hoare_process_file_ops P self file_info :
  allows_logging P ->
  (forall op ok, op ∈ planned_ops self file_info -> P (EvFs op ok)) ->
  hoare P (process_file self file_info) (fun _ => True).
Proof.
  intros Hlog Hops w. split; [|done]. rewrite process_file_plan.
  pose proof (exec_ops_events P _ w Hops) as Hexec.
  destruct (exec_ops _ w) as [[[] w1] t]; simpl in *; [done|].
  pose proof (hoare_log P self (ProcessError file_info.2) Hlog w1) as [Ht _].
  destruct (log self _ w1) as [[r w2] t']. simpl in *. by apply Forall_app.
Qed.

Lemma planned_ops_source self filename source_path op :
  op ∈ planned_ops self (filename, source_path) ->
  op_source op = Some source_path \/ op_source op = None.
Proof.
  unfold planned_ops, spec_transfer.
  destruct (delete_mode self), (py_truthy (copy_path self)),
    (match_folder_structure self), (py_truthy (move_path self)); simpl;
    intros Hin;
    repeat (apply elem_of_cons in Hin as [->|Hin]; [simpl; by auto|]);
    by apply elem_of_nil in Hin.
Qed.

Lemma hoare_run_workers_found P self order :
  (forall file_info, file_info ∈ found_files self ->
     hoare P (process_file self file_info) (fun _ => True)) ->
  hoare P (run_workers self order) (fun _ => True).
Proof.
  intros Hfile. unfold run_workers. apply hoare_for_each; [done|].
  intros i outcomes _. destruct (found_files self !! i) as [file_info|] eqn:Hi.
  - apply hoare_bind_any; [|intros r; by apply hoare_ret].
    apply hoare_capture; [|done]. apply Hfile. by eapply list_elem_of_lookup_2.
  - by apply hoare_ret.
Qed.

Lemma hoare_action_stage_found P self sched :
  (forall file_info, P (EvSubmitProcess file_info)) ->
  (forall phase c t, P (EvProgress phase c t)) ->
  (forall file_info, file_info ∈ found_files self ->
     hoare P (process_file self file_info) (fun _ => True)) ->
  hoare P (action_stage self sched) (fun _ => True).
Proof.
  intros Hsub Hprog Hfile.
  assert (forall phase, hoare P (action_pool phase self sched) (fun _ => True))
    as Hpool.
  { intros phase. unfold action_pool. apply hoare_bind_any.
    { apply hoare_for_each; [done|]. intros f [] _. by apply hoare_emit. }
    intros _. apply hoare_bind_any; [by apply hoare_run_workers_found|].
    intros outcomes. by apply (hoare_collect_results _ (fun _ => True)). }
  unfold action_stage. destruct (delete_mode self); [done|].
  destruct (_ || _); [done|by apply hoare_ret].
Qed.

(** X2. In a run that returns, every file removed, copied or moved is the
    path of one of the found files: no other path is the source of a
    file-system call. *)
Theorem actions_touch_found_files_only self sched w self' w' t :
  process_files self sched w = (Ok self', w', t) ->
  forall op ok src,
    (op, ok) ∈ file_ops t ->
    op_source op = Some src ->
    exists filename, (filename, src) ∈ found_files self'.
Proof.
  intros Hrun op ok src Hin Hsrc.
  apply process_files_stages in Hrun as [[_ Hquiet]|Hrun].
  { apply prelude_only_log_only, file_ops_nil in Hquiet.
    rewrite Hquiet in Hin. by apply elem_of_nil in Hin. }
  destruct Hrun as (t1 & w1 & self1 & k & t2 & w2 & t3 & _ & _ & -> & Hq1 & Hpool & Hfin).
  apply prelude_only_log_only, file_ops_nil in Hq1.
  assert (file_ops t2 = []) as Hq2.
  { apply file_ops_nil. eapply hoare_trace; [|exact Hpool].
    by apply (hoare_search_pool log_only (fun _ => True)). }
  rewrite !file_ops_app, Hq1, Hq2 in Hin. simpl in Hin.
  assert (Forall (touches_only (found_files self1).*2) t3) as Htouch.
  { eapply hoare_trace; [|exact Hfin]. apply hoare_finish; [done|].
    apply hoare_action_stage_found; try done.
    intros [filename source_path] Hfound. apply hoare_process_file_ops; [done|].
    intros op' ok' Hop. simpl.
    destruct (planned_ops_source _ _ _ _ Hop) as [-> | ->]; [|done].
    apply list_elem_of_fmap. by exists (filename, source_path). }
  assert (found_files self' = found_files self1) as ->.
  { apply finish_Ok in Hfin as [(_ & -> & _)|(_ & (? & ? & ? & Hact) & _)]; [done|].
    by apply action_stage_Ok in Hact as [-> _]. }
  apply elem_of_file_ops in Hin.
  rewrite Forall_forall in Htouch. specialize (Htouch _ Hin). simpl in Htouch.
  rewrite Hsrc in Htouch. apply list_elem_of_fmap in Htouch as ([f p] & -> & Hfp).
  by exists f.
Qed.

(** ** Where the found files come from *)

Lemma elem_of_gathered {A} (futures : list (list A)) done (x : A) :
  x ∈ mjoin (omap (fun future : nat => futures !! future) done) ->
  exists future results, futures !! future = Some results /\ x ∈ results.
Proof.
  intros (results & Hx & (future & _ & Hfuture)%list_elem_of_omap)%list_elem_of_join.
  by exists future, results.
Qed.

Lemma search_single_file_elem filename regex_pattern w pair :
  pair ∈ search_single_file filename regex_pattern w ->
  pair.1 = filename
  /\ (exists stdout,
        subprocess_run (es_command filename) w = RunExited 0 stdout
        /\ pair.2 ∈ stripped_lines (PyStr.splitlines stdout))
  /\ forall regex,
       py_truthy regex_pattern = true ->
       re_compile (default "" regex_pattern) = Some regex ->
       re_search regex pair.2 = true.
Proof.
  unfold search_single_file.
  destruct (subprocess_run _ w) as [|returncode stdout]; [by intros ?%elem_of_nil|].
  destruct (returncode =? 0)%Z eqn:Hcode; [|by intros ?%elem_of_nil].
  apply Z.eqb_eq in Hcode as ->.
  destruct regex_pattern as [pattern|]; simpl.
  - destruct (PyStr.truthy pattern) eqn:Htruthy.
    + destruct (re_compile pattern) as [regex|] eqn:Hregex;
        [|by intros ?%elem_of_nil].
      intros (path & -> & Hpath)%list_elem_of_fmap.
      apply list_elem_of_In, filter_In in Hpath as [Hpath Hsearch].
      apply list_elem_of_In in Hpath. simpl.
      split; [done|]. split; [by eauto|]. intros regex' _ Hregex'. congruence.
    + intros (path & -> & Hpath)%list_elem_of_fmap. simpl.
      split; [done|]. split; [by eauto|]. intros regex' Htrue. congruence.
  - intros (path & -> & Hpath)%list_elem_of_fmap. simpl.
    split; [done|]. split; [by eauto|]. done.
Qed.

Lemma replay_app t1 t2 w : replay (t1 ++ t2) w = replay t2 (replay t1 w).
Proof. apply foldl_app. Qed.

Lemma tracks_ret {A} (a : A) : tracks (ret a : M A).
Proof. done. Qed.

Lemma tracks_raise {A} : tracks (raise : M A).
Proof. done. Qed.

Lemma tracks_emit e : (forall op ok, e <> EvFs op ok) -> tracks (emit e).
Proof. intros He w. destruct e; try done. by destruct (He op ok). Qed.

Lemma tracks_get_world : tracks get_world.
Proof. done. Qed.

Lemma tracks_fs op : tracks (fs op).
Proof.
  intros w. unfold fs, world_of, trace_of.
  destruct (fs_exec op w) as [ok w1] eqn:Hexec. simpl. by rewrite Hexec.
Qed.

Lemma tracks_bind {A B} (m : M A) (f : A -> M B) :
  tracks m -> (forall a, tracks (f a)) -> tracks (m ≫= f).
Proof.
  intros Hm Hf w. rewrite bind_run. specialize (Hm w).
  unfold world_of, trace_of in *.
  destruct (m w) as [[[a|] w1] t1]; simpl in *; [|done].
  specialize (Hf a w1). unfold world_of, trace_of in Hf.
  destruct (f a w1) as [[r w2] t2]; simpl in *. by rewrite replay_app, <- Hm.
Qed.

Lemma tracks_for_each {A S} (l : list A) (body : A -> S -> M S) s :
  (forall x s', tracks (body x s')) -> tracks (for_each l body s).
Proof.
  intros Hbody. revert s. induction l as [|x l IH]; intros s; [done|].
  cbn [for_each]. by apply tracks_bind.
Qed.

Lemma tracks_get_string self key : tracks (get_string self key).
Proof. unfold get_string. by destruct (lang self). Qed.

Lemma tracks_log self m : tracks (log self m).
Proof.
  unfold log. apply tracks_bind; [by apply tracks_emit|]. intros _.
  destruct (log_path self) as [d|]; [|done].
  destruct (PyStr.truthy d); [apply tracks_fs|done].
Qed.

Lemma tracks_say self key (msg : Template -> Message) :
  tracks (t ← get_string self key; log self (msg t)).
Proof.
  apply tracks_bind; [apply tracks_get_string|]. intros t. apply tracks_log.
Qed.

Lemma tracks_read_input_file self : tracks (read_input_file self).
Proof.
  unfold read_input_file.
  destruct (py_truthy (input_text self)); [done|].
  destruct (negb _); [done|].
  apply tracks_bind; [done|]. intros w.
  destruct (open_read _ w); [done|].
  apply tracks_bind; [apply tracks_log|done].
Qed.

Lemma tracks_announce self filenames : tracks (announce self filenames).
Proof.
  unfold announce.
  repeat (apply tracks_bind; [apply tracks_say|]; intros _).
  apply tracks_for_each. intros filename []. apply tracks_log.
Qed.

Lemma tracks_validate_regex self : tracks (validate_regex self).
Proof.
  unfold validate_regex.
  destruct (py_truthy (regex_filter self)); [|done].
  apply tracks_bind; [by apply tracks_emit|]. intros _.
  destruct (re_compile _); [done|].
  apply tracks_bind; [apply tracks_get_string|]. intros t.
  apply tracks_bind; [apply tracks_log|done].
Qed.

Lemma tracks_run {A} (m : M A) w r w' t :
  tracks m -> m w = (r, w', t) -> w' = replay t w.
Proof. intros Hm Hrun. specialize (Hm w). by rewrite Hrun in Hm. Qed.

Lemma before_search_app t1 filename regex_pattern t2 :
  Forall no_search_submitted t1 ->
  before_search (t1 ++ EvSubmitSearch filename regex_pattern :: t2) = t1.
Proof.
  induction 1 as [|e t1 He _ IH]; [done|].
  destruct e; simpl in *; by rewrite ?IH.
Qed.

(** The trace of the search pool begins with the first search. *)
Lemma search_pool_head self filename filenames sched w r w' t :
  search_pool self (filename :: filenames) sched w = (r, w', t) ->
  exists rest, t = EvSubmitSearch filename (regex_filter self) :: rest.
Proof.
  unfold search_pool. rewrite bind_run, submit_searches_run.
  generalize (w0 ← get_world;
              gather_found
                ((fun filename0 =>
                    search_single_file filename0 (regex_filter self) w0)
                   <$> filename :: filenames)
                (length (filename :: filenames)) (search_done sched) self).
  intros rest. destruct (rest w) as [[r2 w2] t2]. rewrite fmap_cons.
  intros [= _ _ <-]. by eexists.
Qed.

(** A run that got to the search asked the provider on the machine as
    the calls before the first search left it. *)
Lemma process_files_search_world self sched w self' w' t :
  process_files self sched w = (Ok self', w', t) ->
  self' = self
  \/ exists self1 k w2 t2,
       search_pool self (stripped_lines (input_lines self w)) sched
         (replay (before_search t) w)
       = (Ok (self1, k), w2, t2)
       /\ found_files self' = found_files self1.
Proof.
  intros Hrun. unfold process_files in Hrun.
  apply bind_Ok in Hrun as (names & w1 & t1 & r1 & Hread & Hrest & ->).
  pose proof (hoare_trace _ _ _ _ _ _ _
    (hoare_read_input_file _ self logging_no_search) Hread) as Hq1.
  pose proof (tracks_run _ _ _ _ _ (tracks_read_input_file self) Hread) as ->.
  apply read_input_file_Ok in Hread as [-> _].
  destruct (stripped_lines (input_lines self w)) as [|name names] eqn:Hnames.
  { left. apply bind_Ok in Hrest as (? & ? & ? & ? & _ & Hrest & _).
    by apply bind_Ok in Hrest as (? & ? & ? & ? & _ & [= <- _ _] & _). }
  apply bind_Ok in Hrest as ([] & w2 & t2 & r2 & Hann & Hrest & ->).
  pose proof (hoare_trace _ _ _ _ _ _ _
    (hoare_announce _ self _ logging_no_search) Hann) as Hq2.
  pose proof (tracks_run _ _ _ _ _ (tracks_announce self _) Hann) as ->.
  apply bind_Ok in Hrest as (valid & w3 & t3 & r3 & Hval & Hrest & ->).
  pose proof (hoare_trace _ _ _ _ _ _ _
    (hoare_validate_regex _ self logging_no_search ltac:(done)) Hval) as Hq3.
  pose proof (tracks_run _ _ _ _ _ (tracks_validate_regex self) Hval) as ->.
  destruct valid; [|left; by injection Hrest as <- _ _].
  right. unfold search_and_process in Hrest.
  apply bind_Ok in Hrest as ([self1 k] & w4 & t4 & t5 & Hpool & Hfin & ->).
  destruct (search_pool_head _ _ _ _ _ _ _ _ Hpool) as [rest ->].
  assert (before_search
            (t1 ++ t2 ++ t3
             ++ (EvSubmitSearch name (regex_filter self) :: rest) ++ t5)
          = t1 ++ t2 ++ t3) as ->.
  { rewrite !app_assoc, <- (app_assoc _ (_ :: rest) t5). simpl.
    apply before_search_app. by repeat apply Forall_app_2. }
  exists self1, k, w4, (EvSubmitSearch name (regex_filter self) :: rest).
  rewrite !replay_app. split; [exact Hpool|].
  apply finish_Ok in Hfin as [(_ & -> & _)|(_ & (? & ? & ? & Hact) & _)]; [done|].
  by apply action_stage_Ok in Hact as [-> _].
Qed.

(** X3. In a run of a fresh object that returns, every found file was
    found for one of the names read from the input, by the search made
    in the run: on the machine as the calls before the first search left
    it, the provider, run for that name, exited with code 0 and printed
    the path on a line of its own, the regex filter, when there is one,
    finds a match in the path, and the pair is one of those
    [search_single_file] returns there for that name. *)
Theorem found_files_come_from_the_provider self sched w self' w' t :
  fresh self ->
  process_files self sched w = (Ok self', w', t) ->
  let w1 := replay (before_search t) w in
  forall pair,
    pair ∈ found_files self' ->
    pair.1 ∈ nonblank_lines (input_lines self w)
    /\ (exists stdout,
          subprocess_run (es_command pair.1) w1 = RunExited 0 stdout
          /\ pair.2 ∈ stripped_lines (PyStr.splitlines stdout))
    /\ (forall regex,
          py_truthy (regex_filter self) = true ->
          re_compile (default "" (regex_filter self)) = Some regex ->
          re_search regex pair.2 = true)
    /\ pair ∈ search_single_file pair.1 (regex_filter self) w1.
Proof.
  intros (Hfound0 & _) Hrun w1 pair Hpair. subst w1.
  apply process_files_search_world in Hrun as [->|Hrun].
  { rewrite Hfound0 in Hpair. by apply elem_of_nil in Hpair. }
  destruct Hrun as (self1 & k & w2 & t2 & Hpool & Hsame).
  apply search_pool_Ok in Hpool as (Hgather & _).
  rewrite Hsame, Hgather, Hfound0 in Hpair. simpl in Hpair.
  apply elem_of_gathered in Hpair as (future & results & Hfuture & Hpair).
  apply list_lookup_fmap_Some_1 in Hfuture as (name & -> & Hname).
  pose proof (search_single_file_elem _ _ _ _ Hpair)
    as (Hfst & (stdout & Hrun & Hline) & Hregex).
  rewrite <- stripped_lines_nonblank, Hfst. split; [|split; [|split]].
  - by eapply list_elem_of_lookup_2.
  - by exists stdout.
  - done.
  - done.
Qed.

(** ** Progress reports *)

Lemma progress_of_app phase t1 t2 :
  progress_of phase (t1 ++ t2) = progress_of phase t1 ++ progress_of phase t2.
Proof. apply omap_app. Qed.

Lemma progress_of_nil phase t :
  Forall (no_progress_of phase) t -> progress_of phase t = [].
Proof.
  induction 1 as [|e t He _ IH]; [done|].
  destruct e as [| | phase' c n | | |]; simpl in *; try done.
  by destruct (String.eqb_spec phase' phase).
Qed.

Lemma progress_of_reports phase total (l : list nat) :
  progress_of phase ((fun k => EvProgress phase k total) <$> l)
  = (fun k => (k, total)) <$> l.
Proof.
  induction l as [|k l IH]; [done|]. rewrite !fmap_cons. simpl.
  by rewrite String.eqb_refl, <- IH.
Qed.

Lemma prelude_only_no_progress phase t :
  Forall prelude_only t -> Forall (no_progress_of phase) t.
Proof.
  intros H. eapply Forall_impl; [exact H|].
  intros [| op ok | | | |]; simpl; done.
Qed.

Lemma gather_loop_trace futures total done self c k w st w1 t :
  for_each done (gather_step futures total) (self, c, k) w = (Ok st, w1, t) ->
  t = (fun i => EvProgress "search" i total) <$> seq (c + 1) (length done).
Proof.
  revert self c k w t. induction done as [|future done IH]; intros self c k w t.
  { by intros [= _ _ <-]. }
  cbn [for_each]. intros ([[self' c'] k'] & w2 & t1 & t2 & Hstep & Hrest & ->)%bind_Ok.
  destruct (futures !! future) as [results|] eqn:Hfuture.
  2:{ unfold gather_step in Hstep. by rewrite Hfuture in Hstep. }
  rewrite (gather_step_run _ _ _ _ _ _ _ _ Hfuture) in Hstep.
  assert (c' = c + 1 /\ t1 = [EvProgress "search" (c + 1) total]) as [-> ->].
  { destruct results; by injection Hstep as _ <- _ _ <-. }
  apply IH in Hrest as ->. simpl. by rewrite !Nat.add_1_r.
Qed.

Lemma collect_loop_trace phase outcomes done self c w st w1 t :
  for_each done (collect_step phase outcomes) (self, c) w = (Ok st, w1, t) ->
  t = (fun i => EvProgress phase i (length (found_files self)))
        <$> seq (c + 1) (length done).
Proof.
  revert self c w t. induction done as [|future done IH]; intros self c w t.
  { by intros [= _ _ <-]. }
  cbn [for_each]. intros ([self' c'] & w2 & t1 & t2 & Hstep & Hrest & ->)%bind_Ok.
  assert (t1 = [EvProgress phase (c + 1) (length (found_files self))]) as ->.
  { unfold collect_step in Hstep.
    destruct (outcomes !! future) as [[result|]|]; try done.
    destruct (found_files self !! _) as [entry|]; [|done].
    apply bind_Ok in Hstep as ([] & ? & ? & ? & [= <- <-] & [= _ _ _ <-] & ->).
    by destruct result. }
  apply collect_step_Ok in Hstep as (result & entry & _ & _ & -> & -> & ->).
  apply IH in Hrest as ->. simpl. rewrite !Nat.add_1_r.
  by destruct result.
Qed.

(** X4. In a run that gets to the search, the progress reports of the
    search phase count the completed searches from 1 to the number of
    names read, each out of that number. *)
Theorem search_progress_counts_up self sched w self' w' t :
  passes_validation self ->
  nonblank_lines (input_lines self w) <> [] ->
  valid_order (length (nonblank_lines (input_lines self w))) (search_done sched) ->
  process_files self sched w = (Ok self', w', t) ->
  progress_of "search" t
  = counting_up (length (nonblank_lines (input_lines self w))).
Proof.
  rewrite <- stripped_lines_nonblank. intros Hpass Hnames Hvalid Hrun.
  pose proof (process_files_Ok _ _ _ _ _ _ Hrun) as Hway.
  apply process_files_stages in Hrun as [[_ Hquiet]|Hrun].
  { destruct Hway as [(? & _)|[(_ & ? & _)|(_ & _ & t1 & w1 & t2 & -> & Hsub & _ & _ & Hsp)]];
      [done..|].
    apply search_and_process_Ok in Hsp as (_ & _ & _ & _ & _ & _ & _ & Hsub2 & _).
    assert (submitted_searches (t1 ++ t2) = []) as Hnone.
    { apply submitted_searches_nil. eapply Forall_impl; [exact Hquiet|].
      by intros []. }
    rewrite submitted_searches_app, Hsub, Hsub2 in Hnone. done. }
  destruct Hrun as (t1 & w1 & self1 & k & t2 & w2 & t3 & _ & _ & -> & Hq1 & Hpool & Hfin).
  rewrite !progress_of_app.
  rewrite (progress_of_nil _ t1) by by apply prelude_only_no_progress.
  rewrite (progress_of_nil _ t3).
  2:{ eapply hoare_trace; [|exact Hfin]. apply hoare_finish; [done|].
      unfold action_stage.
      destruct (delete_mode self1); [|destruct (_ || _); [|by apply hoare_ret]];
        apply (hoare_action_pool _ (fun _ => True)); try done;
        intros file_info; by apply hoare_process_file_ops. }
  rewrite app_nil_r. simpl.
  unfold search_pool in Hpool.
  rewrite bind_run, submit_searches_run, bind_run in Hpool. simpl in Hpool.
  destruct (gather_found _ _ _ _ w1) as [[[[self2 k2]|] w3] t4] eqn:Hg; [|done].
  injection Hpool as _ _ _ <-. rewrite progress_of_app.
  rewrite (progress_of_nil _ (_ <$> _)) by by apply Forall_fmap, Forall_true.
  unfold gather_found in Hg.
  apply bind_Ok in Hg as ([[self3 c3] k3] & w4 & t5 & t6 & Hloop & [= _ _ _ <-] & ->).
  apply gather_loop_trace in Hloop as ->.
  rewrite app_nil_r, progress_of_reports, (valid_order_length _ _ Hvalid). done.
Qed.

(** X5. In a run of a fresh object with an action configured, the progress
    reports of the action pool, under the phase name [delete] in delete
    mode and [process] otherwise, count the completed actions from 1 to
    the number of found files, each out of that number. *)
Theorem action_progress_counts_up self sched w self' w' t :
  fresh self ->
  action_mode self ->
  process_files self sched w = (Ok self', w', t) ->
  valid_order (length (found_files self')) (action_done sched) ->
  progress_of (action_phase self) t = counting_up (length (found_files self')).
Proof.
  intros (Hfound0 & _) Hmode Hrun Hvalid.
  assert (forall phase, phase <> "search" ->
          forall names w1 st w2 t2,
            search_pool self names sched w1 = (Ok st, w2, t2) ->
            progress_of phase t2 = []) as Hsearch.
  { intros phase Hphase names w1 st w2 t2 Hpool. apply progress_of_nil.
    eapply hoare_trace; [|exact Hpool].
    by apply (hoare_search_pool _ (fun _ => True)). }
  assert (action_phase self <> "search") as Hphase.
  { unfold action_phase. by destruct (delete_mode self). }
  apply process_files_stages in Hrun as [[-> Hquiet]|Hrun].
  { rewrite Hfound0. apply progress_of_nil. by apply prelude_only_no_progress. }
  destruct Hrun as (t1 & w1 & self1 & k & t2 & w2 & t3 & _ & _ & -> & Hq1 & Hpool & Hfin).
  rewrite !progress_of_app, (Hsearch _ Hphase _ _ _ _ _ Hpool).
  rewrite (progress_of_nil _ t1) by by apply prelude_only_no_progress.
  simpl. apply search_pool_Ok in Hpool as (_ & _ & Hconfig & _).
  unfold config in Hconfig. injection Hconfig as _ _ Hcopy Hmove _ _ Hdel _ _.
  unfold finish in Hfin.
  destruct (found_files self1) as [|file_info found] eqn:Hfound.
  { assert (self' = self1 /\ Forall (no_progress_of (action_phase self)) t3)
      as [-> Hnone].
    { pose proof (hoare_trace _ _ _ _ _ _ _
        (hoare_say_return (no_progress_of (action_phase self)) self1
           "messages.no_matches" Heading self1 ltac:(done)) Hfin) as Hq.
      apply bind_Ok in Hfin as (? & ? & ? & ? & _ & Hfin & _).
      by apply bind_Ok in Hfin as (? & ? & ? & ? & _ & [= <- _ _] & _). }
    by rewrite Hfound, (progress_of_nil _ _ Hnone). }
  rewrite <- Hfound in *. clear Hfound found file_info.
  apply bind_Ok in Hfin as ([] & w3 & t4 & r4 & Hsay & Hfin & ->).
  apply bind_Ok in Hfin as ([] & w4 & t5 & r5 & Hlist & Hfin & ->).
  apply bind_Ok in Hfin as (self2 & w5 & t6 & r6 & Hact & Hfin & ->).
  apply bind_Ok in Hfin as ([] & w6 & t7 & r7 & Hrep & [= <- _ <-] & ->).
  assert (forall P, allows_logging P -> Forall P (t4 ++ t5) /\ Forall P t7) as Hlogs.
  { intros P HP. split; [apply Forall_app; split|].
    - eapply hoare_trace; [|exact Hsay].
      by apply (hoare_say P self1 _ _ (fun _ => True)).
    - eapply hoare_trace; [|exact Hlist].
      apply (hoare_for_each P (fun _ => True)); [done|].
      intros [? full_path] [] _. by apply hoare_log.
    - eapply hoare_trace; [|exact Hrep]. by apply hoare_report. }
  destruct (Hlogs (no_progress_of (action_phase self)) ltac:(done)) as [Hq45 Hq7].
  apply Forall_app in Hq45 as [Hq4 Hq5]. rewrite !progress_of_app.
  rewrite (progress_of_nil _ t4), (progress_of_nil _ t5), (progress_of_nil _ t7)
    by done.
  simpl. rewrite !app_nil_r.
  assert (action_pool (action_phase self) self1 sched w4 = (Ok self2, w5, t6))
    as Hpool.
  { unfold action_stage in Hact. unfold action_phase. unfold action_mode in Hmode.
    rewrite Hdel, Hcopy, Hmove in Hact.
    destruct (delete_mode self); [done|].
    destruct Hmode as [?|[Hm|Hm]]; [done|..]; by rewrite Hm, ?orb_true_r in Hact. }
  pose proof (action_pool_Ok _ _ _ _ _ _ _ Hpool) as (_ & _ & _ & Hsame & _).
  unfold action_pool in Hpool.
  apply bind_Ok in Hpool as ([] & w7 & t8 & r8 & Hsub & Hpool & ->).
  apply bind_Ok in Hpool as (outcomes & w8 & t9 & r9 & Hwork & Hcollect & ->).
  rewrite !progress_of_app.
  rewrite (progress_of_nil _ t8), (progress_of_nil _ t9).
  - unfold collect_results in Hcollect.
    apply bind_Ok in Hcollect as ([self3 c3] & ? & ? & ? & Hloop & [= _ _ <-] & ->).
    apply collect_loop_trace in Hloop as ->.
    rewrite app_nil_r, progress_of_reports, (valid_order_length _ _ Hvalid), Hsame.
    done.
  - eapply hoare_trace; [|exact Hwork]. apply hoare_run_workers.
    intros file_info. by apply hoare_process_file_ops.
  - eapply hoare_trace; [|exact Hsub].
    apply (hoare_for_each _ (fun _ => True)); [done|].
    intros f [] _. by apply hoare_emit.
Qed.

(** ** [process_file] at a failing call *)

(** X6. [process_file] stops at the first call that fails: a failed call
    is the last call made, every call before it succeeded, and the file
    is not reported as processed. In particular, with a copy and a move
    destination, a file whose copy fails is not moved. *)
Theorem process_file_stops_at_first_failure self file_info w op :
  let t := file_ops (trace_of (process_file self file_info w)) in
  (op, false) ∈ t ->
  last t = Some (op, false)
  /\ (forall op' ok, (op', ok) ∈ t -> ok = false -> op' = op)
  /\ result_of (process_file self file_info w) <> Ok true
  /\ (forall src dst src' dst' ok,
        op = ShutilCopy2 src dst -> (ShutilMove src' dst', ok) ∉ t).
Proof.
  intros t Hin. subst t.
  destruct (process_file_shape self file_info w) as [[_ Hall]|[Hres Hshape]].
  { rewrite Hall in Hin. by apply list_elem_of_fmap in Hin as (? & [= _] & _). }
  destruct Hshape as (before & failing & after & Hplan & Ht).
  rewrite Ht in *. clear Ht.
  assert (forall op' ok,
    (op', ok) ∈ ((fun op => (op, true)) <$> before) ++ [(failing, false)] ->
    ok = false -> op' = failing) as Honly.
  { intros op' ok [Hb|Hl]%elem_of_app ->.
    - by apply list_elem_of_fmap in Hb as (? & [= _] & _).
    - by apply list_elem_of_singleton in Hl as [= ->]. }
  assert (op = failing) as -> by by eapply Honly.
  split; [by rewrite last_snoc|]. split; [done|]. split; [done|].
  intros src dst src' dst' ok -> [Hb|Hl]%elem_of_app.
  2:{ by apply list_elem_of_singleton in Hl. }
  apply list_elem_of_fmap in Hb as (? & [= <- _] & Hb).
  destruct file_info as [filename source_path].
  unfold planned_ops, spec_transfer in Hplan.
  destruct (delete_mode self), (py_truthy (copy_path self)),
    (match_folder_structure self), (py_truthy (move_path self));
    simpl in Hplan;
    repeat (destruct before as [|? before]; simplify_eq/=;
            try (apply elem_of_cons in Hb as [Hb|Hb]; [done|]);
            try by apply elem_of_nil in Hb).
Qed.

(** ** The command line *)

Lemma hoare_get_string_none P self key :
  lang self = None -> hoare P (get_string self key) (fun _ => False).
Proof. intros Hlang. unfold get_string. rewrite Hlang. apply hoare_raise. Qed.

Lemma hoare_process_files_no_lang P self sched :
  allows_logging P ->
  lang self = None ->
  hoare P (process_files self sched) (fun _ => False).
Proof.
  intros HP Hlang. unfold process_files.
  apply hoare_bind_any; [by apply hoare_read_input_file|]. intros filenames.
  destruct filenames as [|f filenames].
  - apply (hoare_bind _ _ _ (fun _ => False)); [|by intros ? []].
    by apply hoare_get_string_none.
  - unfold announce.
    apply (hoare_bind _ _ _ (fun _ => False)); [|by intros ? []].
    apply (hoare_bind _ _ _ (fun _ => False)); [|by intros ? []].
    apply (hoare_bind _ _ _ (fun _ => False)); [|by intros ? []].
    by apply hoare_get_string_none.
Qed.

Lemma hoare_init P input_file input_text copy_path move_path log_path
    match_folder_structure delete_mode regex_filter lang0 :
  (forall d ok, P (EvFs (OsMakedirs d) ok)) ->
  hoare P (init input_file input_text copy_path move_path log_path
             match_folder_structure delete_mode regex_filter lang0)
    (fun self => lang self = lang0).
Proof.
  intros HP. unfold init.
  assert (forall o : option string,
    hoare P (match o with
             | Some d => if PyStr.truthy d then fs (OsMakedirs d) else ret tt
             | None => ret tt
             end) (fun _ => True)) as Hdirs.
  { intros [d|]; [|by apply hoare_ret].
    destruct (PyStr.truthy d); [by apply hoare_fs|by apply hoare_ret]. }
  repeat (apply hoare_bind_any; [apply Hdirs|]; intros _).
  by apply hoare_ret.
Qed.

(** X7. A run from the command line never gets to the search: [main]
    with an input file raises, having submitted no search and made no
    file-system call but the creation of the configured directories and
    writes to the log file. *)
Theorem command_line_run_raises args sched w :
  py_truthy (arg_input args) = true ->
  result_of (main args sched w) = Raised
  /\ Forall cli_only (trace_of (main args sched w)).
Proof.
  intros Hinput.
  assert (hoare cli_only (main args sched) (fun _ => False)) as Hmain.
  { unfold main. rewrite Hinput. eapply hoare_bind; [by apply hoare_init|].
    intros self Hlang.
    apply (hoare_bind _ _ _ (fun _ => False)); [|by intros ? []].
    by apply hoare_process_files_no_lang. }
  destruct (Hmain w) as [Ht Hres]. split; [|done].
  destruct (result_of (main args sched w)) as [a|]; [|done].
  by destruct (Hres a).
Qed.

(** ** Calls that leave the machine as it was *)

Lemma returns_in_place_bind {A B} (m : M A) (f : A -> M B) w :
  returns_in_place m w -> (forall a, returns_in_place (f a) w) ->
  returns_in_place (m ≫= f) w.
Proof.
  intros (a & t & Hm) Hf. destruct (Hf a) as (b & t' & Hfa).
  exists b, (t ++ t'). by rewrite bind_run, Hm, Hfa.
Qed.

Lemma returns_in_place_ret {A} (a : A) w : returns_in_place (ret a : M A) w.
Proof. by exists a, []. Qed.

Lemma log_freely self m w :
  py_truthy (log_path self) = false -> log self m w = (Ok tt, w, [EvLog m]).
Proof.
  intros Hquiet. unfold log. rewrite bind_run. simpl.
  destruct (log_path self) as [d|]; [|done]. simpl in Hquiet. by rewrite Hquiet.
Qed.

Lemma returns_log self m w : speaks_freely self -> returns_in_place (log self m) w.
Proof. intros [_ Hquiet]. exists tt, [EvLog m]. by apply log_freely. Qed.

Lemma returns_get_string self key w :
  speaks_freely self -> returns_in_place (get_string self key) w.
Proof.
  intros [[l Hlang] _]. unfold get_string. rewrite Hlang.
  apply returns_in_place_ret.
Qed.

Lemma returns_say self key (msg : Template -> Message) w :
  speaks_freely self ->
  returns_in_place (t ← get_string self key; log self (msg t)) w.
Proof.
  intros Hfree. apply returns_in_place_bind; [by apply returns_get_string|].
  intros t. by apply returns_log.
Qed.

Lemma returns_log_each {A} self (l : list A) (msg : A -> Message) w :
  speaks_freely self ->
  returns_in_place (for_each l (fun x _ => log self (msg x)) tt) w.
Proof.
  intros Hfree. induction l as [|x l IH]; [apply returns_in_place_ret|].
  cbn [for_each]. apply returns_in_place_bind; [by apply returns_log|].
  by intros [].
Qed.

Lemma returns_announce self filenames w :
  speaks_freely self -> returns_in_place (announce self filenames) w.
Proof.
  intros Hfree. unfold announce.
  repeat (apply returns_in_place_bind; [by apply returns_say|]; intros _).
  by apply returns_log_each.
Qed.

Lemma returns_validate_regex self w :
  speaks_freely self -> returns_in_place (validate_regex self) w.
Proof.
  intros Hfree. unfold validate_regex.
  destruct (py_truthy (regex_filter self)); [|apply returns_in_place_ret].
  apply returns_in_place_bind; [by eexists tt, _|]. intros _.
  destruct (re_compile _); [apply returns_in_place_ret|].
  apply returns_in_place_bind; [by apply returns_get_string|]. intros t.
  apply returns_in_place_bind; [by apply returns_log|]. intros _.
  apply returns_in_place_ret.
Qed.

End More_facts.


(** ** The properties at work on the small runtime *)

Lemma search_only_run_changes_no_file_witness :
  file_ops (trace_of (process_files Runs.twice (Sample.in_order 2) Sample.office))
  = [].
Proof.
  exact (proj1 (search_only_run_changes_no_file Runs.twice (Sample.in_order 2)
                  Sample.office eq_refl eq_refl eq_refl)).
Defined.

Lemma actions_touch_found_files_only_witness :
  let self' :=
    Sample.returned
      (process_files Runs.report_run Runs.one_action Sample.office)
      Runs.report_run in
  exists filename, (filename, "C:\Users\a\report.docx") ∈ found_files self'.
Proof.
  refine (actions_touch_found_files_only Runs.report_run Runs.one_action
            Sample.office _
            (world_of (process_files Runs.report_run Runs.one_action Sample.office))
            (trace_of (process_files Runs.report_run Runs.one_action Sample.office))
            _
            (ShutilCopy2 "C:\Users\a\report.docx" "D:\out\report.docx") true
            "C:\Users\a\report.docx" _ _).
  - vm_compute. reflexivity.
  - vm_compute. apply list_elem_of_here.
  - reflexivity.
Defined.

Lemma found_files_come_from_the_provider_witness :
  let run := process_files Runs.report_run Runs.one_action Sample.office in
  ("report.docx", "C:\Users\a\report.docx")
  ∈ search_single_file "report.docx" None
      (replay (before_search (trace_of run)) Sample.office).
Proof.
  intros run.
  refine (proj2 (proj2 (proj2
            (found_files_come_from_the_provider Runs.report_run
               Runs.one_action Sample.office
               (Sample.returned run Runs.report_run)
               (world_of run) (trace_of run)
               _ _ ("report.docx", "C:\Users\a\report.docx") _)))).
  - by repeat split.
  - vm_compute. reflexivity.
  - vm_compute. apply list_elem_of_here.
Defined.

Lemma search_progress_counts_up_witness :
  progress_of "search"
    (trace_of (process_files Runs.twice (Sample.in_order 2) Sample.office))
  = [(1, 2); (2, 2)].
Proof.
  refine (search_progress_counts_up Runs.twice (Sample.in_order 2) Sample.office
            Runs.twice Sample.office _ _ _ _ _).
  - intros H. vm_compute in H. discriminate.
  - vm_compute. discriminate.
  - vm_compute. reflexivity.
  - vm_compute. reflexivity.
Defined.

Lemma action_progress_counts_up_witness :
  progress_of "process"
    (trace_of (process_files Runs.report_run Runs.one_action Sample.office))
  = [(1, 1)].
Proof.
  refine (action_progress_counts_up Runs.report_run Runs.one_action Sample.office
            (Sample.returned
               (process_files Runs.report_run Runs.one_action Sample.office)
               Runs.report_run)
            (world_of (process_files Runs.report_run Runs.one_action Sample.office))
            _ _ _ _ _).
  - by repeat split.
  - right. left. reflexivity.
  - vm_compute. reflexivity.
  - vm_compute. reflexivity.
Defined.

Lemma process_file_stops_at_first_failure_witness :
  result_of (process_file
               (Sample.searcher "gone.txt" (Some "D:\out") (Some "E:\moved")
                  false false None)
               ("gone.txt", "C:\gone.txt") Sample.office)
  <> Ok true.
Proof.
  refine (proj1 (proj2 (proj2
            (process_file_stops_at_first_failure
               (Sample.searcher "gone.txt" (Some "D:\out") (Some "E:\moved")
                  false false None)
               ("gone.txt", "C:\gone.txt") Sample.office
               (ShutilCopy2 "C:\gone.txt" "D:\out\gone.txt") _)))).
  vm_compute. apply list_elem_of_here.
Defined.

Lemma command_line_run_raises_witness :
  result_of (main {| arg_input := Some "names.txt"; arg_copy_to := Some "D:\out";
                     arg_move_to := None; arg_log_path := None;
                     arg_delete := false; arg_no_structure := false |}
               (Sample.in_order 1) Sample.office)
  = Raised.
Proof.
  exact (proj1 (command_line_run_raises
                  {| arg_input := Some "names.txt"; arg_copy_to := Some "D:\out";
                     arg_move_to := None; arg_log_path := None;
                     arg_delete := false; arg_no_structure := false |}
                  (Sample.in_order 1) Sample.office eq_refl)).
Defined.


(** * Python strings: stripping, splitting and joining *)

Section Text_facts.
Implicit Types (s t cur : string) (p q : ascii -> bool) (a c : ascii).

Lemma string_app_cons a s t : String a s +:+ t = String a (s +:+ t).
Proof. done. Qed.

Lemma string_app_nil_l s : "" +:+ s = s.
Proof. done. Qed.

Lemma string_app_nil_r s : s +:+ "" = s.
Proof. induction s as [|a s IH]; [done|]. by rewrite string_app_cons, IH. Qed.

Lemma string_app_assoc s t u : (s +:+ t) +:+ u = s +:+ (t +:+ u).
Proof. induction s as [|a s IH]; [done|]. by rewrite !string_app_cons, IH. Qed.

Lemma rev_app_rev s t : String.rev (String.rev_app s t) = String.rev_app t s.
Proof.
  revert t. induction s as [|a s IH]; intros t; [done|]. simpl. by rewrite IH.
Qed.

Lemma rev_involutive s : String.rev (String.rev s) = s.
Proof. apply (rev_app_rev s ""). Qed.

Lemma rev_app_app s t : String.rev_app s t = String.rev s +:+ t.
Proof.
  revert t. induction s as [|a s IH]; intros t; [done|].
  unfold String.rev. simpl. rewrite (IH (String a t)), (IH (String a "")).
  by rewrite string_app_assoc.
Qed.

Lemma rev_cons a s : String.rev (String a s) = String.rev s +:+ String a "".
Proof. unfold String.rev at 1. simpl. apply rev_app_app. Qed.

Lemma rev_snoc s a : String.rev (s +:+ String a "") = String a (String.rev s).
Proof.
  rewrite <- (rev_involutive s) at 1. rewrite <- rev_cons.
  apply rev_involutive.
Qed.

Lemma rev_nil_inv s : String.rev s = "" -> s = "".
Proof. intros H. rewrite <- (rev_involutive s). by rewrite H. Qed.

Lemma lstrip_app p s t :
  PyStr.lstrip_by p (s +:+ t)
  = match PyStr.lstrip_by p s with
    | "" => PyStr.lstrip_by p t
    | r => r +:+ t
    end.
Proof.
  induction s as [|a s IH]; [done|]. simpl. by destruct (p a).
Qed.

(** [rstrip] by recursion on the string. *)
Lemma rstrip_cons p a s :
  PyStr.rstrip_by p (String a s)
  = match PyStr.rstrip_by p s with
    | "" => if p a then "" else String a ""
    | r => String a r
    end.
Proof.
  unfold PyStr.rstrip_by. rewrite rev_cons, lstrip_app.
  destruct (PyStr.lstrip_by p (String.rev s)) as [|b r] eqn:Hstrip.
  - simpl. by destruct (p a).
  - rewrite rev_snoc. destruct (String.rev (String b r)) eqn:Hrev; [|done].
    by apply rev_nil_inv in Hrev.
Qed.

Lemma lstrip_idem p s :
  PyStr.lstrip_by p (PyStr.lstrip_by p s) = PyStr.lstrip_by p s.
Proof.
  induction s as [|a s IH]; [done|]. simpl.
  destruct (p a) eqn:Ha; [done|]. simpl. by rewrite Ha.
Qed.

Lemma lstrip_head p s a r : PyStr.lstrip_by p s = String a r -> p a = false.
Proof.
  induction s as [|b s IH]; [done|]. simpl.
  destruct (p b) eqn:Hb; [done|]. by intros [= <- _].
Qed.

Lemma rstrip_nil p : PyStr.rstrip_by p "" = "".
Proof. done. Qed.

Lemma rstrip_idem p s :
  PyStr.rstrip_by p (PyStr.rstrip_by p s) = PyStr.rstrip_by p s.
Proof.
  induction s as [|a s IH]; [done|]. rewrite rstrip_cons.
  destruct (PyStr.rstrip_by p s) as [|b r] eqn:Hs.
  - destruct (p a) eqn:Ha; [done|]. by rewrite rstrip_cons, rstrip_nil, Ha.
  - by rewrite rstrip_cons, IH.
Qed.

Lemma rstrip_head p a s :
  p a = false -> exists r, PyStr.rstrip_by p (String a s) = String a r.
Proof.
  intros Ha. rewrite rstrip_cons, Ha.
  destruct (PyStr.rstrip_by p s); by eauto.
Qed.

Lemma strip_idem s : PyStr.strip (PyStr.strip s) = PyStr.strip s.
Proof.
  unfold PyStr.strip.
  destruct (PyStr.lstrip_by PyStr.isspace s) as [|a t] eqn:Hs; [done|].
  apply lstrip_head in Hs.
  destruct (rstrip_head PyStr.isspace a t Hs) as [r Hr]. rewrite Hr.
  cbn [PyStr.lstrip_by]. rewrite Hs, <- Hr. apply rstrip_idem.
Qed.

(** A string that starts with a character that is no white space is not
    blank. *)
Lemma strip_head a s :
  PyStr.isspace a = false -> exists r, PyStr.strip (String a s) = String a r.
Proof.
  intros Ha. unfold PyStr.strip. simpl. rewrite Ha. by apply rstrip_head.
Qed.

Lemma truthy_strip s a r :
  PyStr.strip s = String a r -> PyStr.isspace a = false.
Proof.
  unfold PyStr.strip.
  destruct (PyStr.lstrip_by PyStr.isspace s) as [|b t] eqn:Hs; [done|].
  apply lstrip_head in Hs. destruct (rstrip_head PyStr.isspace b t Hs) as [r' ->].
  by intros [= <- _].
Qed.

Lemma all_chars_app q s t :
  PyText.all_chars q (s +:+ t) = PyText.all_chars q s && PyText.all_chars q t.
Proof.
  induction s as [|a s IH]; [done|]. simpl. by rewrite IH, andb_assoc.
Qed.

Lemma all_chars_rev q s : PyText.all_chars q (String.rev s) = PyText.all_chars q s.
Proof.
  induction s as [|a s IH]; [done|]. rewrite rev_cons, all_chars_app, IH. simpl.
  by rewrite andb_true_r, andb_comm.
Qed.

Lemma all_chars_lstrip p q s :
  PyText.all_chars q s = true -> PyText.all_chars q (PyStr.lstrip_by p s) = true.
Proof.
  induction s as [|a s IH]; [done|]. simpl.
  intros [Ha Hs]%andb_true_iff. destruct (p a); [by apply IH|].
  simpl. by rewrite Ha, Hs.
Qed.

Lemma all_chars_strip q s :
  PyText.all_chars q s = true -> PyText.all_chars q (PyStr.strip s) = true.
Proof.
  intros Hs. unfold PyStr.strip, PyStr.rstrip_by.
  rewrite all_chars_rev. apply all_chars_lstrip. rewrite all_chars_rev.
  by apply all_chars_lstrip.
Qed.

(** A line that is being read is the head of the lines that follow. *)
Lemma splitlines_go_head cur s :
  cur <> "" ->
  exists x rest, PyStr.splitlines_go cur s = (String.rev cur +:+ x) :: rest.
Proof.
  revert cur. induction s as [|c s IH]; intros cur Hcur.
  - exists "", []. simpl. rewrite string_app_nil_r. by destruct cur.
  - simpl. destruct (Ascii.eqb c "013").
    { exists "". rewrite string_app_nil_r.
      destruct s as [|c' s']; [by eauto|].
      destruct (Ascii.eqb_spec c' "010") as [->|Hne]; [by eauto|].
      eexists. destruct c' as [[] [] [] [] [] [] [] []]; try done. }
    destruct (PyStr.is_linebreak c).
    { exists "". rewrite string_app_nil_r. by eauto. }
    destruct (IH (String c cur)) as (x & rest & ->); [done|].
    exists (String c x), rest. by rewrite rev_cons, string_app_assoc.
Qed.

(** No line of [splitlines] holds a character that ends a line. *)
Lemma splitlines_go_within n s cur :
  String.length s <= n ->
  PyText.all_chars PyText.within_line cur = true ->
  Forall (fun line => PyText.all_chars PyText.within_line line = true)
    (PyStr.splitlines_go cur s).
Proof.
  revert s cur. induction n as [|n IH]; intros s cur Hlen Hcur.
  { destruct s; [|simpl in Hlen; lia]. simpl.
    destruct cur; [done|]. repeat constructor. by rewrite all_chars_rev. }
  destruct s as [|c s].
  { simpl. destruct cur; [done|]. repeat constructor. by rewrite all_chars_rev. }
  simpl in Hlen. cbn [PyStr.splitlines_go].
  assert (PyText.all_chars PyText.within_line (String.rev cur) = true) as Hline
    by by rewrite all_chars_rev.
  destruct (Ascii.eqb c "013") eqn:Hcr.
  { assert (Forall (fun line => PyText.all_chars PyText.within_line line = true)
              (String.rev cur :: PyStr.splitlines_go "" s)) as Hplain.
    { constructor; [done|]. apply IH; [lia|done]. }
    destruct s as [|c' s']; [done|].
    destruct c' as [[] [] [] [] [] [] [] []]; try done.
    constructor; [done|]. apply IH; [simpl in Hlen; lia|done]. }
  destruct (PyStr.is_linebreak c) eqn:Hbreak.
  { constructor; [done|]. apply IH; [lia|done]. }
  apply IH; [lia|]. simpl. unfold PyText.within_line at 1.
  by rewrite Hcr, Hbreak.
Qed.

Lemma splitlines_within s :
  Forall (fun line => PyText.all_chars PyText.within_line line = true)
    (PyStr.splitlines s).
Proof. by apply (splitlines_go_within (String.length s)). Qed.

(** Reading characters that end no line only makes the line longer. *)
Lemma splitlines_go_app x cur rest :
  PyText.all_chars PyText.within_line x = true ->
  PyStr.splitlines_go cur (x +:+ rest)
  = PyStr.splitlines_go (String.rev_app x cur) rest.
Proof.
  revert cur. induction x as [|c x IH]; intros cur; [done|].
  simpl. intros [Hc Hx]%andb_true_iff. unfold PyText.within_line in Hc.
  apply andb_true_iff in Hc as [Hcr%negb_true_iff Hbreak%negb_true_iff].
  rewrite Hcr, Hbreak. by apply IH.
Qed.

(** [splitlines] undoes [join]. *)
Lemma splitlines_join names :
  Forall (fun name => name <> "" /\ PyText.all_chars PyText.within_line name = true)
    names ->
  PyStr.splitlines (PyText.join PyText.newline names) = names.
Proof.
  induction 1 as [|name names [Hname Hwithin] _ IH]; [done|].
  unfold PyStr.splitlines in *. cbn [PyText.join].
  destruct names as [|name' names'].
  - rewrite <- (string_app_nil_r name) at 1.
    rewrite splitlines_go_app by done. simpl. fold (String.rev name).
    rewrite rev_involutive. destruct (String.rev name) eqn:Hrev; [|done].
    by apply rev_nil_inv in Hrev.
  - rewrite splitlines_go_app by done. fold (String.rev name).
    unfold PyText.newline at 1. rewrite string_app_cons, string_app_nil_l.
    cbn [PyStr.splitlines_go]. simpl Ascii.eqb. cbn iota.
    simpl PyStr.is_linebreak. cbn iota.
    by rewrite rev_involutive, IH.
Qed.

Lemma elem_of_List_filter {A} (f : A -> bool) (l : list A) x :
  x ∈ List.filter f l -> f x = true /\ x ∈ l.
Proof.
  rewrite !list_elem_of_In. intros [? ?]%filter_In. done.
Qed.

Lemma stripped_lines_clean lines : Forall PyText.clean (stripped_lines lines).
Proof.
  unfold stripped_lines. apply Forall_fmap, Forall_forall.
  intros line [Htruthy _]%elem_of_List_filter. split.
  - intros Hnil. simpl in Hnil. by rewrite Hnil in Htruthy.
  - apply strip_idem.
Qed.

Lemma stripped_lines_within lines :
  Forall (fun line => PyText.all_chars PyText.within_line line = true) lines ->
  Forall (fun line => PyText.all_chars PyText.within_line line = true)
    (stripped_lines lines).
Proof.
  intros Hlines. unfold stripped_lines. apply Forall_fmap, Forall_forall.
  intros line [_ Hin]%elem_of_List_filter. simpl. apply all_chars_strip.
  rewrite Forall_forall in Hlines. by apply Hlines.
Qed.

Lemma stripped_lines_fixed names :
  Forall PyText.clean names -> stripped_lines names = names.
Proof.
  induction 1 as [|name names [Hne Hstrip] _ IH]; [done|].
  unfold stripped_lines in *. cbn [List.filter]. rewrite Hstrip.
  destruct name; [done|]. simpl PyStr.truthy. cbn iota.
  by rewrite fmap_cons, Hstrip, IH.
Qed.

(** The names read from a text are read again from the names joined by
    line feeds. *)
Lemma stripped_lines_join s :
  stripped_lines
    (PyStr.splitlines
       (PyText.join PyText.newline (stripped_lines (PyStr.splitlines s))))
  = stripped_lines (PyStr.splitlines s).
Proof.
  rewrite splitlines_join.
  - apply stripped_lines_fixed, stripped_lines_clean.
  - pose proof (stripped_lines_clean (PyStr.splitlines s)) as Hclean.
    pose proof (stripped_lines_within _ (splitlines_within s)) as Hwithin.
    rewrite Forall_forall in Hclean, Hwithin. apply Forall_forall.
    intros name Hin. split; [by apply Hclean|by apply Hwithin].
Qed.

(** A text that is not blank holds a name. *)
Lemma stripped_lines_not_nil s :
  PyStr.truthy (PyStr.strip s) = true ->
  stripped_lines (PyStr.splitlines (PyStr.strip s)) <> [].
Proof.
  destruct (PyStr.strip s) as [|a r] eqn:Hs; [done|]. intros _.
  apply truthy_strip in Hs.
  assert (Ascii.eqb a "013" = false /\ PyStr.is_linebreak a = false) as [Hcr Hbreak].
  { destruct a as [[] [] [] [] [] [] [] []]; by try done. }
  unfold PyStr.splitlines. cbn [PyStr.splitlines_go]. rewrite Hcr, Hbreak.
  destruct (splitlines_go_head (String a "") r) as (x & rest & ->); [done|].
  unfold stripped_lines. cbn [List.filter].
  change (String.rev (String a "") +:+ x) with (String a x).
  destruct (strip_head a x Hs) as [r' ->]. done.
Qed.

End Text_facts.

(** * The window *)

Section Window_facts.
Context `{RT : Runtime}.

Lemma join_truthy sep name names :
  name <> "" -> PyStr.truthy (PyText.join sep (name :: names)) = true.
Proof.
  intros Hname. cbn [PyText.join]. destruct name as [|c name]; [done|].
  by destruct names.
Qed.

Lemma or_none_truthy value :
  py_truthy (or_none value) = PyStr.truthy value
  /\ (PyStr.truthy value = true -> default "" (or_none value) = value).
Proof. unfold or_none. by destruct value. Qed.

(** What a run that passes the validation searches. *)
Lemma searches_of_run self sched w self' w' t :
  passes_validation self ->
  process_files self sched w = (Ok self', w', t) ->
  submitted_searches t = stripped_lines (input_lines self w).
Proof.
  intros Hpass Hrun.
  apply process_files_Ok in Hrun
    as [(-> & _ & _ & -> & _)|[(_ & Hbad & _)|(_ & _ & Hrun)]]; [done|done|].
  destruct Hrun as (t1 & w1 & t2 & -> & Hsub & _ & _ & Hrun).
  apply search_and_process_Ok in Hrun as (_ & _ & _ & _ & _ & _ & _ & Hsub2 & _).
  by rewrite submitted_searches_app, Hsub, Hsub2.
Qed.

Lemma hoare_init_config P input_file input_text copy_path move_path log_path
    match_folder_structure delete_mode regex_filter lang0 :
  (forall d ok, P (EvFs (OsMakedirs d) ok)) ->
  hoare P (init input_file input_text copy_path move_path log_path
             match_folder_structure delete_mode regex_filter lang0)
    (fun self =>
       config self
       = (input_file, input_text, copy_path, move_path, log_path,
          match_folder_structure, delete_mode, regex_filter, lang0)).
Proof.
  intros HP w. split.
  - by apply (hoare_init P).
  - intros self Hres. unfold result_of in Hres.
    destruct (init _ _ _ _ _ _ _ _ _ w) as [[r w1] t1] eqn:Hinit.
    simpl in Hres. subst r. by apply init_Ok in Hinit as [_ ?].
Qed.

(** What the object built by the window reads. *)
Lemma window_input_lines form self w :
  PyStr.truthy (PyStr.strip (input_box form)) = true ->
  input_text self = Some (PyText.join PyText.newline (typed_names form)) ->
  stripped_lines (input_lines self w) = typed_names form.
Proof.
  intros Htruthy Htext. unfold input_lines. rewrite Htext.
  pose proof (stripped_lines_not_nil _ Htruthy) as Hnames.
  pose proof (stripped_lines_clean
                (PyStr.splitlines (PyStr.strip (input_box form)))) as Hclean.
  fold (typed_names form) in Hnames, Hclean.
  destruct (typed_names form) as [|name names] eqn:Htyped; [done|].
  apply Forall_cons_1 in Hclean as [[Hname _] _].
  cbn [py_truthy default]. rewrite join_truthy by done.
  rewrite <- Htyped. unfold typed_names. apply stripped_lines_join.
Qed.

Lemma run_searcher_Finished form l regex_pattern sched w self' w' t :
  PyStr.truthy (PyStr.strip (input_box form)) = true ->
  (PyStr.truthy regex_pattern = true -> is_Some (re_compile regex_pattern)) ->
  run_searcher form l (PyStr.strip (input_box form)) regex_pattern sched w
  = (Ok (Finished self'), w', t) ->
  submitted_searches t = typed_names form.
Proof.
  intros Htruthy Hregex. unfold run_searcher, try_except.
  fold (typed_names form).
  match goal with
  | |- match ?body w with _ => _ end = _ -> _ =>
      destruct (body w) as [[[started|] w1] t1] eqn:Hbody
  end; [|done].
  intros [= -> -> ->].
  apply bind_Ok in Hbody as (self0 & w2 & t2 & t3 & Hinit & Hrun & ->).
  apply bind_Ok in Hrun as (self1 & w3 & t4 & t5 & Hrun & [= -> _ <-] & ->).
  pose proof (hoare_trace _ _ _ _ _ _ _
                (hoare_init no_search_submitted _ _ _ _ _ _ _ _ _
                   ltac:(done)) Hinit) as Hquiet.
  apply init_Ok in Hinit as [_ Hconfig]. unfold config in Hconfig.
  injection Hconfig as _ Htext _ _ _ _ _ Hfilter _.
  rewrite !submitted_searches_app, (submitted_searches_nil t2) by done.
  simpl. rewrite app_nil_r.
  assert (passes_validation self0) as Hpass.
  { unfold passes_validation. rewrite Hfilter.
    destruct (or_none_truthy regex_pattern) as [-> Hdefault].
    intros Hpattern. rewrite Hdefault by done. by apply Hregex. }
  rewrite (searches_of_run _ _ _ _ _ _ Hpass Hrun).
  by apply window_input_lines.
Qed.

(** X10. When [start_processing] gets to the end of the run, the searches
    that were submitted are the names typed into the form, the non-blank
    lines of the text stripped, in their order: the names survive being
    joined by line feeds and read again by [read_input_file], there is at
    least one, and the regex the window validated is not refused by the
    run. *)
Theorem window_searches_the_typed_names form l askyesno sched w self' w' t :
  start_processing form l askyesno sched w = (Ok (Finished self'), w', t) ->
  typed_names form <> [] /\ submitted_searches t = typed_names form.
Proof.
  unfold start_processing.
  destruct (negb (PyStr.truthy (PyStr.strip (input_box form))) || _) eqn:Hcheck;
    [done|].
  apply orb_false_iff in Hcheck as [Htruthy%negb_false_iff _].
  intros Hrun. split; [by apply stripped_lines_not_nil|].
  assert ((if PyStr.truthy (PyStr.strip (regex_var form))
           then match re_compile (PyStr.strip (regex_var form)) with
                | Some _ =>
                    run_searcher form l (PyStr.strip (input_box form))
                      (PyStr.strip (regex_var form)) sched
                | None => ret ErrorInvalidRegex
                end
           else run_searcher form l (PyStr.strip (input_box form))
                  (PyStr.strip (regex_var form)) sched) w
          = (Ok (Finished self'), w', t)) as Hgo.
  { destruct (delete_var form).
    - by destruct (negb (confirm_action askyesno "delete")).
    - destruct (PyStr.truthy (move_var form)); [|done].
      by destruct (negb (confirm_action askyesno "move")). }
  clear Hrun.
  destruct (PyStr.truthy (PyStr.strip (regex_var form))) eqn:Hpattern.
  - destruct (re_compile (PyStr.strip (regex_var form))) as [regex|] eqn:Hc;
      [|done].
    eapply run_searcher_Finished; [done| |exact Hgo]. by rewrite Hc.
  - eapply run_searcher_Finished; [done| |exact Hgo]. by rewrite Hpattern.
Qed.

Lemma logging_asked_first askyesno : allows_logging (asked_first askyesno).
Proof. done. Qed.

Lemma hoare_run_searcher askyesno form l input_text regex_pattern sched :
  (delete_var form = true -> confirm_action askyesno "delete" = true) ->
  (delete_var form = false -> PyStr.truthy (move_var form) = true ->
   confirm_action askyesno "move" = true) ->
  hoare (asked_first askyesno)
    (run_searcher form l input_text regex_pattern sched) (fun _ => True).
Proof.
  intros Hdelete Hmove. unfold run_searcher.
  apply hoare_try_except; [|by apply hoare_ret].
  eapply hoare_bind; [by apply hoare_init_config|]. intros self0 Hconfig.
  apply hoare_bind_any; [|intros ?; by apply hoare_ret].
  apply (hoare_process_files_with _ (fun s => config s = config self0));
    try done.
  intros self1 Hconfig1. apply hoare_action_stage_found; try done.
  intros [filename source_path] _.
  apply hoare_process_file_ops; [done|].
  rewrite Hconfig in Hconfig1. unfold config in Hconfig1.
  injection Hconfig1 as _ _ _ Hm _ _ Hd _ _.
  intros op ok. unfold planned_ops, spec_transfer. rewrite Hd, Hm.
  destruct (delete_var form) eqn:Hdel.
  { intros ->%list_elem_of_singleton. simpl. by apply Hdelete. }
  destruct (or_none_truthy (move_var form)) as [-> _].
  destruct (PyStr.truthy (move_var form)) eqn:Hmv.
  - intros Hin. destruct op; try done.
    + exfalso. destruct (py_truthy _), (match_folder_structure self1); simpl in Hin;
        repeat (apply elem_of_cons in Hin as [?|Hin]; [done|]);
        by apply elem_of_nil in Hin.
    + simpl. by apply Hmove.
  - intros Hin. destruct op; try done; exfalso;
      destruct (py_truthy _), (match_folder_structure self1); simpl in Hin;
      repeat (apply elem_of_cons in Hin as [?|Hin]; [done|]);
      by apply elem_of_nil in Hin.
Qed.

(** X11. Whatever a run started from the window does, no file is removed
    unless the user confirmed the deletion, and none is moved unless the
    user confirmed the move. *)
Theorem window_asks_before_deleting_or_moving form l askyesno sched w :
  Forall (asked_first askyesno)
    (trace_of (start_processing form l askyesno sched w)).
Proof.
  enough (hoare (asked_first askyesno) (start_processing form l askyesno sched)
            (fun _ => True)) as Hrun by apply Hrun.
  unfold start_processing.
  destruct (negb _ || _); [by apply hoare_ret|].
  assert (forall regex_pattern,
    (delete_var form = true -> confirm_action askyesno "delete" = true) ->
    (delete_var form = false -> PyStr.truthy (move_var form) = true ->
     confirm_action askyesno "move" = true) ->
    hoare (asked_first askyesno)
      (if PyStr.truthy regex_pattern
       then match re_compile regex_pattern with
            | Some _ =>
                run_searcher form l (PyStr.strip (input_box form)) regex_pattern sched
            | None => ret ErrorInvalidRegex
            end
       else run_searcher form l (PyStr.strip (input_box form)) regex_pattern sched)
      (fun _ => True)) as Hgo.
  { intros regex_pattern Hdelete Hmove.
    destruct (PyStr.truthy regex_pattern); [|by apply hoare_run_searcher].
    destruct (re_compile regex_pattern); [|by apply hoare_ret].
    by apply hoare_run_searcher. }
  destruct (delete_var form) eqn:Hdel.
  - destruct (confirm_action askyesno "delete") eqn:Hyes; simpl;
      [by apply Hgo|by apply hoare_ret].
  - destruct (PyStr.truthy (move_var form)) eqn:Hmv; [|by apply Hgo].
    destruct (confirm_action askyesno "move") eqn:Hyes; simpl;
      [by apply Hgo|by apply hoare_ret].
Qed.

(** ** The names and the paths *)

(** X9. Every name [read_input_file] returns is not empty and has no
    white space at either end. *)
Theorem read_input_file_names_are_clean self w names w' t :
  read_input_file self w = (Ok names, w', t) -> Forall PyText.clean names.
Proof. intros [-> _]%read_input_file_Ok. apply stripped_lines_clean. Qed.

Lemma filter_found_paths (keep : string -> bool) filename (paths : list string) :
  List.filter (fun pair : FoundFile => keep pair.2)
    ((fun path => (filename, path)) <$> paths)
  = (fun path => (filename, path)) <$> List.filter keep paths.
Proof.
  induction paths as [|path paths IH]; [done|].
  rewrite fmap_cons. cbn [List.filter snd].
  destruct (keep path); [rewrite fmap_cons|]; by rewrite IH.
Qed.

(** X12. The regex filter only narrows a search. What
    [search_single_file] returns with a filter is what it returns
    without one, with some pairs left out and the others in the same
    order: all of them are kept when the pattern is empty or missing,
    those in whose path the regex finds a match when the pattern
    compiles, and none when it does not compile. *)
Theorem regex_filter_only_narrows filename regex_pattern w :
  sublist (search_single_file filename regex_pattern w)
    (search_single_file filename None w)
  /\ (py_truthy regex_pattern = false ->
      search_single_file filename regex_pattern w
      = search_single_file filename None w)
  /\ (py_truthy regex_pattern = true ->
      match re_compile (default "" regex_pattern) with
      | Some regex =>
          search_single_file filename regex_pattern w
          = List.filter (fun pair : FoundFile => re_search regex pair.2)
              (search_single_file filename None w)
      | None => search_single_file filename regex_pattern w = []
      end).
Proof.
  unfold search_single_file.
  destruct (subprocess_run _ w) as [|returncode stdout].
  { split; [done|]. split; [done|]. intros _. by destruct (re_compile _). }
  destruct (returncode =? 0)%Z.
  2:{ split; [done|]. split; [done|]. intros _. by destruct (re_compile _). }
  destruct regex_pattern as [pattern|]; [|done]. cbn [py_truthy default].
  destruct (PyStr.truthy pattern); [|done]. unfold id.
  destruct (re_compile pattern) as [regex|].
  - split; [|split; [done|]].
    + apply fmap_sublist.
      induction (stripped_lines (PyStr.splitlines stdout)) as [|path paths IH];
        [done|].
      cbn [List.filter]. destruct (re_search regex path).
      * by apply sublist_skip.
      * by apply sublist_cons.
    + intros _. by rewrite filter_found_paths.
  - split; [apply sublist_nil_l|]. split; [done|]. done.
Qed.

(** X13. Every pair [search_single_file] returns holds the name that was
    searched and a path that is not empty and has no white space at
    either end. *)
Theorem found_paths_are_clean filename regex_pattern w :
  Forall (fun pair : FoundFile => pair.1 = filename /\ PyText.clean pair.2)
    (search_single_file filename regex_pattern w).
Proof.
  apply Forall_forall.
  intros pair (Hname & (stdout & _ & Hpath) & _)%search_single_file_elem.
  split; [done|].
  pose proof (stripped_lines_clean (PyStr.splitlines stdout)) as Hclean.
  rewrite Forall_forall in Hclean. by apply Hclean.
Qed.

End Window_facts.
(** ** The window at work on the small runtime *)

Lemma read_input_file_names_are_clean_witness :
  Forall PyText.clean ["report.docx"; "missing.txt"].
Proof.
  exact (read_input_file_names_are_clean Runs.report_run Sample.office
           ["report.docx"; "missing.txt"] Sample.office [] eq_refl).
Defined.

Lemma window_searches_the_typed_names_witness :
  let form :=
    {| input_box := "  report.docx" +:+ Sample.cr +:+ Sample.nl
                    +:+ Sample.nl +:+ " missing.txt " +:+ Sample.nl;
       default_text := "Enter file names";
       copy_var := "D:\out"; move_var := ""; log_enabled := false;
       structure_var := false; delete_var := false; regex_var := " " |} in
  submitted_searches
    (trace_of (start_processing form tt (fun _ _ => false) Runs.one_action
                 Sample.office))
  = ["report.docx"; "missing.txt"].
Proof.
  intros form.
  refine (proj2 (window_searches_the_typed_names form tt (fun _ _ => false)
                   Runs.one_action Sample.office
                   (Sample.returned
                      (process_files Runs.report_run Runs.one_action Sample.office)
                      Runs.report_run)
                   (world_of (start_processing form tt (fun _ _ => false)
                                Runs.one_action Sample.office))
                   (trace_of (start_processing form tt (fun _ _ => false)
                                Runs.one_action Sample.office))
                   _)).
  vm_compute. reflexivity.
Defined.

(** * Probing the machine *)

Section Probe_facts.
Context `{HT : Host}.

Lemma run_es_exe_runs es_path w :
  match run_es_exe es_path w with
  | (true, version) =>
      exists stdout,
        subprocess_run [es_path; "-version"] w = RunExited 0 stdout
        /\ version = Some (PyStr.strip stdout)
  | (false, version) => ~ runs es_path w /\ version = None
  end.
Proof.
  unfold run_es_exe, runs.
  destruct (subprocess_run _ w) as [|returncode stdout] eqn:Hrun.
  { split; [|done]. by intros [? ?]. }
  destruct (returncode =? 0)%Z eqn:Hcode.
  - apply Z.eqb_eq in Hcode as ->. by eauto.
  - split; [|done]. intros [stdout' [= -> _]]. done.
Qed.

Lemma search_path_dirs_Some path_dirs w es_path version :
  search_path_dirs path_dirs w = Some (es_path, version) ->
  exists dir stdout,
    dir ∈ path_dirs /\ es_path = NtPath.join dir "es.exe"
    /\ path_exists es_path w = true
    /\ subprocess_run [es_path; "-version"] w = RunExited 0 stdout
    /\ version = Some (PyStr.strip stdout).
Proof.
  induction path_dirs as [|dir path_dirs IH]; [done|]. cbn [search_path_dirs].
  assert (search_path_dirs path_dirs w = Some (es_path, version) ->
          exists dir' stdout,
            dir' ∈ dir :: path_dirs /\ es_path = NtPath.join dir' "es.exe"
            /\ path_exists es_path w = true
            /\ subprocess_run [es_path; "-version"] w = RunExited 0 stdout
            /\ version = Some (PyStr.strip stdout)) as Hrest.
  { intros (dir' & stdout & Hin & Hrest)%IH. exists dir', stdout.
    split; [by right|done]. }
  destruct (path_exists (NtPath.join dir "es.exe") w) eqn:Hexists; [|done].
  pose proof (run_es_exe_runs (NtPath.join dir "es.exe") w) as Hruns.
  destruct (run_es_exe (NtPath.join dir "es.exe") w) as [[] version']; [|done].
  destruct Hruns as (stdout & Hrun & ->). intros [= <- <-].
  exists dir, stdout. split; [by left|done].
Qed.

Lemma search_path_dirs_None path_dirs w dir :
  search_path_dirs path_dirs w = None ->
  dir ∈ path_dirs ->
  path_exists (NtPath.join dir "es.exe") w = true ->
  ~ runs (NtPath.join dir "es.exe") w.
Proof.
  induction path_dirs as [|dir' path_dirs IH]; [by intros _ ?%elem_of_nil|].
  cbn [search_path_dirs]. intros Hnone [->|Hin]%elem_of_cons Hexists.
  - rewrite Hexists in Hnone.
    pose proof (run_es_exe_runs (NtPath.join dir' "es.exe") w) as Hruns.
    destruct (run_es_exe (NtPath.join dir' "es.exe") w) as [[] version']; [done|].
    by destruct Hruns.
  - apply IH; [|done|done].
    destruct (path_exists (NtPath.join dir' "es.exe") w); [|done].
    by destruct (run_es_exe (NtPath.join dir' "es.exe") w) as [[] ?].
Qed.

Lemma search_current_dir_spec checked w :
  let r := search_current_dir checked w in
  let here := NtPath.join (module_dir w) "es.exe" in
  (es_found r = true /\ es_path r = Some here
   /\ check_file_exists here w = true
   /\ exists stdout,
        subprocess_run [here; "-version"] w = RunExited 0 stdout
        /\ es_version r = Some (PyStr.strip stdout))
  \/ (r = es_not_found (checked ++ [here])
      /\ (check_file_exists here w = true -> ~ runs here w)).
Proof.
  intros r p. subst r. unfold search_current_dir. fold p.
  destruct (check_file_exists p w) eqn:Hfile; [|by right].
  pose proof (run_es_exe_runs p w) as Hruns.
  destruct (run_es_exe p w) as [[] version].
  - left. destruct Hruns as (stdout & Hrun & ->). by eauto 10.
  - right. by destruct Hruns.
Qed.

(** What [find_es_exe] answers, whichever way it takes. *)
Lemma find_es_exe_spec w :
  let r := find_es_exe w in
  (es_found r = true
   /\ exists p stdout,
        es_path r = Some p /\ es_candidate p w
        /\ subprocess_run [p; "-version"] w = RunExited 0 stdout
        /\ es_version r = Some (PyStr.strip stdout))
  \/ (es_found r = false /\ es_path r = None /\ es_version r = None
      /\ forall p, es_candidate p w -> ~ runs p w).
Proof.
  intros r. subst r. unfold find_es_exe.
  destruct (search_path_dirs _ w) as [[p version]|] eqn:Hpath.
  { left. apply search_path_dirs_Some in Hpath
      as (dir & stdout & Hdir & -> & Hexists & Hrun & ->).
    split; [done|]. eexists _, stdout. split; [done|]. split; [|done].
    left. by exists dir. }
  pose proof (fun dir => search_path_dirs_None _ _ dir Hpath) as Hnone.
  assert (forall checked,
    (forall dir, find_everything_installation w = Some dir -> dir <> "" ->
                 check_file_exists (NtPath.join dir "es.exe") w = true ->
                 ~ runs (NtPath.join dir "es.exe") w) ->
    let r := search_current_dir checked w in
    (es_found r = true
     /\ exists p stdout,
          es_path r = Some p /\ es_candidate p w
          /\ subprocess_run [p; "-version"] w = RunExited 0 stdout
          /\ es_version r = Some (PyStr.strip stdout))
    \/ (es_found r = false /\ es_path r = None /\ es_version r = None
        /\ forall p, es_candidate p w -> ~ runs p w)) as Hcurrent.
  { intros checked Hinstall.
    destruct (search_current_dir_spec checked w)
      as [(Hfound & Hp & Hfile & stdout & Hrun & Hversion)|[-> Hfails]].
    - left. split; [done|]. eexists _, stdout. split; [done|].
      split; [|done]. right. by right.
    - right. repeat split; try done.
      intros p [(dir & Hdir & -> & Hexists)|[(dir & Hdir & Hne & -> & Hfile)|[-> Hfile]]].
      + by apply Hnone.
      + by apply Hinstall.
      + by apply Hfails. }
  destruct (find_everything_installation w) as [dir|] eqn:Hinstall;
    [|by apply Hcurrent].
  cbn [py_truthy]. change (default "" (Some dir)) with dir.
  destruct (PyStr.truthy dir) eqn:Hdir.
  2:{ apply Hcurrent. intros dir' [= <-] Hne. by destruct dir. }
  destruct (check_file_exists (NtPath.join dir "es.exe") w) eqn:Hfile.
  2:{ apply Hcurrent. intros dir' [= <-] _. by rewrite Hfile. }
  pose proof (run_es_exe_runs (NtPath.join dir "es.exe") w) as Hruns.
  destruct (run_es_exe (NtPath.join dir "es.exe") w) as [[] version].
  - left. destruct Hruns as (stdout & Hrun & ->). split; [done|].
    eexists _, stdout. split; [done|]. split; [|done].
    right. left. exists dir. repeat split; try done. by destruct dir.
  - apply Hcurrent. intros dir' [= <-] _ _. by destruct Hruns.
Qed.

(** X14. [find_es_exe] reports [es.exe] as found exactly when one of the
    places it looks at holds an [es.exe] that runs: a directory of [PATH]
    where the file exists, or the directory Everything is installed in or
    the directory of the program where it is an executable file. *)
Theorem es_exe_found_iff_a_candidate_runs w :
  es_found (find_es_exe w) = true
  <-> exists es_path, es_candidate es_path w /\ runs es_path w.
Proof.
  destruct (find_es_exe_spec w)
    as [(Hfound & p & stdout & _ & Hcand & Hrun & _)|(Hfound & _ & _ & Hnone)].
  - split; [|done]. intros _. exists p. split; [done|]. by exists stdout.
  - rewrite Hfound. split; [done|]. intros (p & Hcand & Hruns).
    by destruct (Hnone p Hcand).
Qed.

(** X15. The path and the version [find_es_exe] returns go with its
    answer: when it reports [es.exe] as found, the path is one of the
    places it looks at, the program at that path exited with code 0 and
    the version is what it printed, stripped; otherwise there is neither
    a path nor a version. *)
Theorem es_exe_path_is_the_one_that_ran w :
  let r := find_es_exe w in
  match es_path r with
  | Some p =>
      es_found r = true /\ es_candidate p w
      /\ exists stdout,
           subprocess_run [p; "-version"] w = RunExited 0 stdout
           /\ es_version r = Some (PyStr.strip stdout)
  | None => es_found r = false /\ es_version r = None
  end.
Proof.
  intros r. subst r. destruct (find_es_exe_spec w)
    as [(Hfound & p & stdout & -> & Hcand & Hrun & Hversion)
       |(Hfound & -> & Hversion & _)]; [|done].
  split; [done|]. split; [done|]. by exists stdout.
Qed.

(** X16. [check_everything_status] gives a message exactly when
    Everything is not ready, and it reports Everything as ready only
    when [check_everything_service] finds the service running. *)
Theorem status_is_ready_without_message w :
  let '(ready, error) := check_everything_status w in
  if ready then error = None /\ check_everything_service w = true
  else is_Some error.
Proof.
  unfold check_everything_status, check_everything_service, status_raised.
  destruct (subprocess_run sc_query w) as [|code service_stdout].
  { destruct (file_not_found _ w); by eexists. }
  destruct (PyText.contains "RUNNING" service_stdout); simpl; [|by eexists].
  destruct (subprocess_run ["es.exe"; "-get-everything-version"] w)
    as [|returncode out].
  { destruct (file_not_found _ w); by eexists. }
  destruct (returncode =? 0)%Z; simpl; [|by eexists].
  destruct (subprocess_run ["es.exe"; "-get-result-count"; "ext:"] w)
    as [|returncode' stdout].
  { destruct (file_not_found _ w); by eexists. }
  destruct (negb _ || _); [by eexists|done].
Qed.

Lemma List_find_ext {A} (f g : A -> bool) (l : list A) :
  (forall x, f x = g x) -> List.find f l = List.find g l.
Proof.
  intros Hfg. induction l as [|x l IH]; [done|]. simpl. by rewrite Hfg, IH.
Qed.

Lemma same_but_service_search_path w1 w2 path_dirs :
  same_but_service w1 w2 ->
  search_path_dirs path_dirs w1 = search_path_dirs path_dirs w2.
Proof.
  intros (_ & _ & _ & Hexists & _ & _ & Hrun).
  induction path_dirs as [|dir path_dirs IH]; [done|].
  cbn [search_path_dirs]. unfold run_es_exe.
  rewrite Hexists, IH, Hrun; done.
Qed.

(** X17. What [check_everything_cli] answers does not depend on the
    service: on two machines that differ at most in the answer of
    [sc query Everything] it answers the same. *)
Theorem cli_check_ignores_the_service w1 w2 :
  same_but_service w1 w2 ->
  check_everything_cli w1 = check_everything_cli w2.
Proof.
  intros Hsame. pose proof (same_but_service_search_path _ _
    (PyText.split ";" (environ_path w1)) Hsame) as Hpath.
  destruct Hsame as (Henv & Hdir & Hreg & Hexists & Hisfile & Haccess & Hrun).
  assert (forall p, check_file_exists p w1 = check_file_exists p w2) as Hfile.
  { intros p. unfold check_file_exists. by rewrite Hexists, Hisfile, Haccess. }
  assert (forall p, run_es_exe p w1 = run_es_exe p w2) as Hruns.
  { intros p. unfold run_es_exe. by rewrite Hrun. }
  assert (find_everything_installation w1 = find_everything_installation w2)
    as Hinstall.
  { unfold find_everything_installation, possible_paths. rewrite Hreg.
    destruct (install_location w2) as [location|].
    - rewrite Hexists. apply List_find_ext. intros path. by rewrite !Hexists.
    - apply List_find_ext. intros path. by rewrite !Hexists. }
  assert (forall checked,
            search_current_dir checked w1 = search_current_dir checked w2)
    as Hcurrent.
  { intros checked. unfold search_current_dir. by rewrite Hdir, Hfile, Hruns. }
  unfold check_everything_cli, find_es_exe.
  by rewrite Hpath, Henv, Hinstall, !Hfile, !Hruns, !Hcurrent.
Qed.

(** X18. [find_everything_installation] returns a directory that exists
    and holds [Everything.exe], the one named in the registry or one of
    the two under Program Files; it prefers the one of the registry; and
    it returns [None] only when none of them does. *)
Theorem installation_holds_everything_exe w :
  let holds path :=
    path_exists path w && path_exists (NtPath.join path "Everything.exe") w in
  match find_everything_installation w with
  | Some path =>
      holds path = true
      /\ (install_location w = Some path \/ path ∈ program_files)
      /\ forall location,
           install_location w = Some location -> location <> "" ->
           holds location = true -> path = location
  | None =>
      Forall (fun path => holds path = false) program_files
      /\ forall location,
           install_location w = Some location -> location <> "" ->
           holds location = false
  end.
Proof.
  intros holds. unfold find_everything_installation.
  fold holds. destruct (List.find holds (possible_paths w)) as [path|] eqn:Hfind.
  - pose proof (find_some _ _ Hfind) as [Hin%list_elem_of_In Hholds].
    split; [done|]. unfold possible_paths in *.
    destruct (install_location w) as [location|] eqn:Hreg.
    + destruct (PyStr.truthy location && path_exists location w) eqn:Hthere.
      * split.
        { apply elem_of_cons in Hin as [->|Hin]; by auto. }
        intros ? [= <-] _ Hloc. cbn [List.find] in Hfind. rewrite Hloc in Hfind.
        by injection Hfind.
      * split; [by right|]. intros ? [= <-] Hne Hloc.
        apply andb_false_iff in Hthere as [Hempty|Hmissing].
        { by destruct location. }
        subst holds. simpl in Hloc. by rewrite Hmissing in Hloc.
    + split; [by right|]. by intros ? [=].
  - pose proof (find_none _ _ Hfind) as Hnone. unfold possible_paths in *.
    assert (forall path, path ∈ possible_paths w -> holds path = false) as Hall.
    { intros path Hin%list_elem_of_In. by apply Hnone. }
    unfold possible_paths in Hall.
    destruct (install_location w) as [location|] eqn:Hreg.
    + destruct (PyStr.truthy location && path_exists location w) eqn:Hthere.
      * split.
        { apply Forall_forall. intros path Hin. apply Hall. by right. }
        intros ? [= <-] _. apply Hall. by left.
      * split; [by apply Forall_forall|]. intros ? [= <-] Hne.
        apply andb_false_iff in Hthere as [Hempty|Hmissing].
        { by destruct location. }
        subst holds. simpl. by rewrite Hmissing.
    + split; [by apply Forall_forall|]. by intros ? [=].
Qed.

End Probe_facts.
(** ** The probes at work on the small machine *)

Lemma cli_check_ignores_the_service_witness :
  @check_everything_cli Desk.runtime Desk.host true
  = @check_everything_cli Desk.runtime Desk.host false.
Proof.
  refine (@cli_check_ignores_the_service Desk.runtime Desk.host true false _).
  repeat split; try reflexivity.
  intros cmd Hcmd. simpl. unfold Desk.run. by rewrite bool_decide_eq_false_2.
Defined.

Example probes_on_the_desk :
  es_path (@find_es_exe Desk.runtime Desk.host false) = Some "C:\Tools\es.exe"
  /\ es_version (@find_es_exe Desk.runtime Desk.host false) = Some "1.1.0.27"
  /\ @check_everything_cli Desk.runtime Desk.host false = true
  /\ @check_everything_status Desk.runtime Desk.host false
     = (false, Some ServiceNotRunning)
  /\ @check_everything_status Desk.runtime Desk.host true
     = (false, Some CliNotFound).
Proof. repeat split; reflexivity. Qed.

(** * The language manager *)

Section Language_facts.
Import LanguageManager.
Implicit Types (self : LanguageManagerEverything) (d : list (string * string)).

Lemma split_go_sep sep cur s t :
  PyText.split_go sep cur (s +:+ String sep t)
  = PyText.split_go sep cur s ++ PyText.split_go sep "" t.
Proof.
  revert cur. induction s as [|c s IH]; intros cur.
  - rewrite string_app_nil_l. cbn [PyText.split_go]. by rewrite Ascii.eqb_refl.
  - rewrite string_app_cons. cbn [PyText.split_go].
    destruct (Ascii.eqb c sep); by rewrite IH.
Qed.

(** [(s + sep + t).split(sep)] is [s.split(sep) + t.split(sep)]. *)
Lemma split_sep sep s t :
  PyText.split sep (s +:+ String sep t) = PyText.split sep s ++ PyText.split sep t.
Proof. apply split_go_sep. Qed.

Lemma traverse_app keys keys' value :
  traverse (keys ++ keys') value = traverse keys value ≫= traverse keys'.
Proof.
  revert value. induction keys as [|k keys IH]; intros value; [done|].
  cbn [app traverse]. destruct value; try done.
  by destruct (lookup k members).
Qed.

Lemma lookup_Some {A} key (members : list (string * A)) value :
  lookup key members = Some value -> (key, value) ∈ members.
Proof.
  unfold lookup. destruct (List.find _ members) as [[k v]|] eqn:Hfind; [|done].
  intros [= <-]. apply find_some in Hfind as [Hin Hkey].
  apply String.eqb_eq in Hkey. simpl in Hkey. subst k. by apply list_elem_of_In.
Qed.

Lemma lookup_None {A} key (members : list (string * A)) :
  lookup key members = None -> key ∉ members.*1.
Proof.
  unfold lookup. destruct (List.find _ members) as [[k v]|] eqn:Hfind; [done|].
  intros _ ([k v] & -> & Hin%list_elem_of_In)%list_elem_of_fmap.
  pose proof (find_none _ _ Hfind _ Hin) as Hkey. simpl in Hkey.
  by rewrite String.eqb_refl in Hkey.
Qed.

Lemma same_key_same_value {A} (members : list (string * A)) key value value' :
  NoDup members.*1 -> (key, value) ∈ members -> (key, value') ∈ members ->
  value = value'.
Proof.
  induction members as [|[k v] members IH]; [by intros _ ?%elem_of_nil|].
  rewrite fmap_cons. intros [Hfresh Hrest]%NoDup_cons.
  intros [[= -> ->]|Hin]%elem_of_cons [[= ->]|Hin']%elem_of_cons; try done.
  - destruct Hfresh. apply list_elem_of_fmap. by exists (k, value').
  - subst. destruct Hfresh. apply list_elem_of_fmap. by exists (k, value).
  - by apply IH.
Qed.

(** In a [dict] a key has one value. *)
Lemma lookup_member {A} key (members : list (string * A)) value :
  NoDup members.*1 -> (key, value) ∈ members -> lookup key members = Some value.
Proof.
  intros Hkeys Hin. destruct (lookup key members) as [value'|] eqn:Hlookup.
  - apply lookup_Some in Hlookup. f_equal.
    by eapply same_key_same_value.
  - apply lookup_None in Hlookup. destruct Hlookup.
    apply list_elem_of_fmap. by exists (key, value).
Qed.

Lemma find_by_code d language_code :
  match List.find (fun item => String.eqb item.2 language_code) d with
  | Some (name, code) => code = language_code /\ (name, code) ∈ d
  | None => language_code ∉ d.*2
  end.
Proof.
  destruct (List.find _ d) as [[name code]|] eqn:Hfind.
  - apply find_some in Hfind as [Hin Hcode]. apply String.eqb_eq in Hcode.
    split; [done|]. by apply list_elem_of_In.
  - intros ([name code] & -> & Hin%list_elem_of_In)%list_elem_of_fmap.
    pose proof (find_none _ _ Hfind _ Hin) as Hcode. simpl in Hcode.
    by rewrite String.eqb_refl in Hcode.
Qed.

Lemma same_code_same_name d name name' code :
  NoDup d.*2 -> (name, code) ∈ d -> (name', code) ∈ d -> name = name'.
Proof.
  induction d as [|[n c] d IH]; [by intros _ ?%elem_of_nil|].
  rewrite fmap_cons. intros [Hfresh Hrest]%NoDup_cons.
  intros [Heq|Hin]%elem_of_cons [Heq'|Hin']%elem_of_cons.
  - congruence.
  - injection Heq as -> ->. destruct Hfresh.
    apply list_elem_of_fmap. by exists (name', c).
  - injection Heq' as -> ->. destruct Hfresh.
    apply list_elem_of_fmap. by exists (name, c).
  - by apply IH.
Qed.

(** X19. The names and the codes of the languages are looked up both
    ways. When the names are the keys of a [dict], the code of a
    language is the code of the name found for it; a code that is
    neither a code nor a name of a language is its own name and its own
    code; and when no two languages share a code, the name found for the
    code of a language is its name. *)
Theorem language_names_and_codes_round_trip self :
  NoDup (language_codes self).*1 ->
  (forall name code,
     (name, code) ∈ language_codes self ->
     get_language_code self (get_language_name self code) = code)
  /\ (forall code,
        code ∉ (language_codes self).*2 -> code ∉ (language_codes self).*1 ->
        get_language_code self (get_language_name self code) = code)
  /\ (NoDup (language_codes self).*2 ->
      forall name code,
        (name, code) ∈ language_codes self ->
        get_language_name self (get_language_code self name) = name).
Proof.
  intros Hkeys. unfold get_language_code, get_language_name.
  split; [|split].
  - intros name code Hin.
    pose proof (find_by_code (language_codes self) code) as Hfind.
    destruct (List.find _ (language_codes self)) as [[name' code']|].
    + destruct Hfind as [-> Hin']. by rewrite (lookup_member _ _ _ Hkeys Hin').
    + destruct Hfind. apply list_elem_of_fmap. by exists (name, code).
  - intros code Hcode Hname.
    pose proof (find_by_code (language_codes self) code) as Hfind.
    destruct (List.find _ (language_codes self)) as [[name' code']|].
    + destruct Hfind as [-> Hin']. destruct Hcode.
      apply list_elem_of_fmap. by exists (name', code).
    + destruct (lookup code (language_codes self)) as [code'|] eqn:Hlookup; [|done].
      apply lookup_Some in Hlookup. destruct Hname.
      apply list_elem_of_fmap. by exists (code, code').
  - intros Hcodes name code Hin. rewrite (lookup_member _ _ _ Hkeys Hin). simpl.
    pose proof (find_by_code (language_codes self) code) as Hfind.
    destruct (List.find _ (language_codes self)) as [[name' code']|].
    + destruct Hfind as [-> Hin']. by eapply same_code_same_name.
    + destruct Hfind. apply list_elem_of_fmap. by exists (name, code).
Qed.

(** X20. An entry may be a string or a [dict] that holds the string
    under [text]: a key that leads to such a [dict] gives the same string
    as the key followed by [.text]. *)
Theorem text_member_is_the_string self key members s :
  key <> "" ->
  traverse (PyText.split "." key) (strings self) = Some (JObject members) ->
  lookup "text" members = Some (JString s) ->
  get_string self key = s /\ get_string self (key +:+ ".text") = s.
Proof.
  intros Hkey Hvalue Htext. unfold get_string. split.
  - destruct key; [done|]. simpl PyStr.truthy. cbn [negb].
    by rewrite Hvalue, Htext.
  - assert (PyStr.truthy (key +:+ ".text") = true) as -> by by destruct key.
    cbn [negb].
    change (key +:+ ".text") with (key +:+ String "." "text").
    rewrite split_sep, traverse_app, Hvalue.
    change (PyText.split "." "text") with ["text"].
    cbn [mbind option_bind traverse]. by rewrite Htext.
Qed.

(** X21. A widget with no entry among the tooltips gets the tooltip of
    its checkbox: [get_tooltip] reads the key [checkboxes.<key>.tooltip],
    a key with dots leading further down, and shows the string found
    there, unless that string is the key it was read with. *)
Theorem tooltip_falls_back_to_the_checkbox self key members s :
  tooltips self = JObject members ->
  lookup key members = None ->
  traverse ("checkboxes" :: PyText.split "." key ++ ["tooltip"]) (strings self)
  = Some (JString s) ->
  get_tooltip self key
  = Some (if String.eqb s ("checkboxes." +:+ key +:+ ".tooltip") then "" else s).
Proof.
  intros Htips Hnone Hvalue. unfold get_tooltip. rewrite Htips, Hnone.
  cbn [default from_option id truthy PyStr.truthy].
  assert (get_string self ("checkboxes." +:+ key +:+ ".tooltip") = s) as ->.
  { unfold get_string.
    change ("checkboxes." +:+ key +:+ ".tooltip")
      with ("checkboxes" +:+ String "." (key +:+ String "." "tooltip")).
    assert (PyStr.truthy
              ("checkboxes" +:+ String "." (key +:+ String "." "tooltip")) = true)
      as -> by done.
    cbn [negb]. rewrite !split_sep.
    change (PyText.split "." "checkboxes") with ["checkboxes"].
    change (PyText.split "." "tooltip") with ["tooltip"].
    cbn [app]. by rewrite Hvalue. }
  by destruct (String.eqb s _).
Qed.

End Language_facts.

(** ** The language manager at work *)

Lemma language_names_and_codes_round_trip_witness :
  LanguageManager.get_language_name LanguageManager.sample
    (LanguageManager.get_language_code LanguageManager.sample "Svenska")
  = "Svenska".
Proof.
  refine (proj2 (proj2 (language_names_and_codes_round_trip
                          LanguageManager.sample _)) _ "Svenska" "sv" _).
  - refine (bool_decide_unpack _ _). vm_compute. exact I.
  - refine (bool_decide_unpack _ _). vm_compute. exact I.
  - refine (bool_decide_unpack _ _). vm_compute. exact I.
Defined.

Lemma text_member_is_the_string_witness :
  LanguageManager.get_string LanguageManager.sample "checkboxes.delete_mode.text"
  = "Delete files".
Proof.
  refine (proj2 (text_member_is_the_string LanguageManager.sample
                   "checkboxes.delete_mode"
                   [("text", LanguageManager.JString "Delete files");
                    ("tooltip", LanguageManager.JString "Delete every file found")]
                   "Delete files" _ _ _)).
  - discriminate.
  - reflexivity.
  - reflexivity.
Defined.

Lemma tooltip_falls_back_to_the_checkbox_witness :
  LanguageManager.get_tooltip LanguageManager.sample "delete_mode"
  = Some "Delete every file found".
Proof.
  exact (tooltip_falls_back_to_the_checkbox LanguageManager.sample "delete_mode"
           [("regex", LanguageManager.JObject
                        [("text", LanguageManager.JString "A regex")])]
           "Delete every file found" eq_refl eq_refl eq_refl).
Defined.

(** * The order of a run and its last line *)

Section Order_facts.
Context `{RT : Runtime}.

Lemma logging_while_searching : allows_logging while_searching.
Proof. done. Qed.

Lemma logging_after_searching : allows_logging after_searching.
Proof. done. Qed.

Lemma prelude_only_while_searching t :
  Forall prelude_only t -> Forall while_searching t.
Proof.
  intros H. eapply Forall_impl; [exact H|]. by intros [| op ok | | | |].
Qed.

Lemma hoare_finish_after_searching self total found_count sched :
  hoare after_searching (finish self total found_count sched) (fun _ => True).
Proof.
  apply hoare_finish; [done|].
  assert (forall phase, phase <> "search" ->
    hoare after_searching (action_pool phase self sched) (fun _ => True))
    as Hpool.
  { intros phase Hphase. apply (hoare_action_pool _ (fun _ => True)); try done.
    intros file_info. by apply hoare_process_file_ops. }
  unfold action_stage. destruct (delete_mode self); [by apply Hpool|].
  destruct (_ || _); [by apply Hpool|by apply hoare_ret].
Qed.

(** X23. A run that returns has two parts, one after the other. In the
    first the names are searched: no action is submitted and no file is
    removed, copied or moved. In the second the found files are
    processed: no search is submitted any more and the progress reported
    is that of the actions. *)
Theorem actions_start_after_the_last_search self sched w self' w' t :
  process_files self sched w = (Ok self', w', t) ->
  exists before after,
    t = before ++ after
    /\ Forall while_searching before /\ Forall after_searching after.
Proof.
  intros Hrun. apply process_files_stages in Hrun as [[_ Hquiet]|Hrun].
  { exists t, []. rewrite app_nil_r.
    split; [done|]. split; [by apply prelude_only_while_searching|done]. }
  destruct Hrun as (t1 & w1 & self1 & k & t2 & w2 & t3 & _ & _ & -> & Hq1 & Hpool & Hfin).
  exists (t1 ++ t2), t3. rewrite <- app_assoc. split; [done|]. split.
  - apply Forall_app. split; [by apply prelude_only_while_searching|].
    eapply hoare_trace; [|exact Hpool].
    by apply (hoare_search_pool while_searching (fun _ => True)).
  - eapply hoare_trace; [|exact Hfin]. apply hoare_finish_after_searching.
Qed.

(** What [report] logs, to the last line. *)
Lemma report_logged self total found_count w u w' t :
  report self total found_count w = (Ok u, w', t) ->
  logged t
  = summary_counts self total found_count
    ++ match actions_named self with
       | [] => []
       | actions => [Format (GetString "messages.actions_taken") [ArgJoin actions]]
       end.
Proof.
  unfold report.
  intros (u1 & w1 & t1 & r1 & H1 & Hrest & ->)%bind_Ok. apply say_Ok in H1.
  apply bind_Ok in Hrest as (u2 & w2 & t2 & r2 & H2 & Hrest & ->). apply say_Ok in H2.
  apply bind_Ok in Hrest as (u3 & w3 & t3 & r3 & H3 & Hrest & ->). apply say_Ok in H3.
  apply bind_Ok in Hrest as (u4 & w4 & t4 & r4 & H4 & Hrest & ->). apply say_Ok in H4.
  apply bind_Ok in Hrest as (u5 & w5 & t5 & r5 & H5 & Hrest & ->).
  assert (forall (b : bool) key (n : option nat) w l w' t,
    (if b then tpl ← get_string self key; ret [(tpl, n)] else ret []) w
    = (Ok l, w', t) ->
    t = [] /\ l = if b then [(GetString key, n)] else []) as Hitem.
  { intros [] key n v l v' tr; [|by intros [= <- _ <-]].
    intros (tpl & v1 & tr1 & tr2 & Hget & [= <- _ <-] & ->)%bind_Ok.
    by apply get_string_Ok in Hget as (-> & _ & ->). }
  apply bind_Ok in Hrest as (a6 & w6 & t6 & r6 & H6 & Hrest & ->).
  apply Hitem in H6 as [-> ->].
  apply bind_Ok in Hrest as (a7 & w7 & t7 & r7 & H7 & Hrest & ->).
  apply Hitem in H7 as [-> ->].
  apply bind_Ok in Hrest as (a8 & w8 & t8 & r8 & H8 & Hrest & ->).
  apply Hitem in H8 as [-> ->].
  apply bind_Ok in Hrest as (a9 & w9 & t9 & r9 & H9 & Hrest & ->).
  apply Hitem in H9 as [-> ->].
  fold (actions_named self) in Hrest.
  rewrite !logged_app, H1, H2, H3, H4. simpl. unfold summary_counts. simpl.
  do 4 f_equal.
  assert (logged t5
          = match failed_files self with
            | [] => []
            | _ => [Format (GetString "messages.failed_operations")
                      [ArgInt (length (failed_files self))]]
            end) as ->.
  { destruct (failed_files self); [by injection H5 as _ _ <-|].
    by apply say_Ok in H5. }
  f_equal. destruct (actions_named self); [by injection Hrest as _ _ <-|].
  by apply say_Ok in Hrest.
Qed.

(** X22. The last line of a run that found files names the actions that
    are configured, whatever was done: the log when a log directory is
    set, then copied, moved and deleted files, each with the number of
    files processed. In delete mode with a copy destination the line
    says that as many files were copied as were deleted. *)
Theorem summary_names_the_configured_actions self sched w self' w' t :
  fresh self ->
  process_files self sched w = (Ok self', w', t) ->
  found_files self' <> [] ->
  actions_named self' <> [] ->
  last (logged t)
  = Some (Format (GetString "messages.actions_taken") [ArgJoin (actions_named self')])
  /\ (delete_mode self = true -> py_truthy (copy_path self) = true ->
      (GetString "messages.copied_files", Some (length (processed_files self')))
      ∈ actions_named self'
      /\ (GetString "messages.deleted_files", Some (length (processed_files self')))
         ∈ actions_named self').
Proof.
  intros (Hfound0 & _) Hrun Hfound Hactions.
  apply process_files_stages in Hrun as [[-> _]|Hrun]; [done|].
  destruct Hrun as (t1 & w1 & self1 & k & t2 & w2 & t3 & _ & _ & -> & _ & Hpool & Hfin).
  apply search_pool_Ok in Hpool as (_ & _ & Hconfig1 & _).
  unfold finish in Hfin. destruct (found_files self1) as [|file_info found] eqn:Hf1.
  { apply bind_Ok in Hfin as (? & ? & ? & ? & _ & Hfin & _).
    apply bind_Ok in Hfin as (? & ? & ? & ? & _ & [= <- _ _] & _). done. }
  apply bind_Ok in Hfin as (u1 & v1 & s1 & r1 & _ & Hfin & ->).
  apply bind_Ok in Hfin as (u2 & v2 & s2 & r2 & _ & Hfin & ->).
  apply bind_Ok in Hfin as (self2 & v3 & s3 & r3 & Hact & Hfin & ->).
  apply bind_Ok in Hfin as (u4 & v4 & s4 & r4 & Hrep & [= <- _ <-] & ->).
  apply action_stage_Ok in Hact as [_ Hconfig2].
  apply report_logged in Hrep. split.
  - rewrite !logged_app, Hrep. simpl logged at 6. rewrite app_nil_r.
    destruct (actions_named self2) as [|action actions]; [done|].
    rewrite !app_assoc. apply last_snoc.
  - intros Hdel Hcopy. rewrite Hconfig1 in Hconfig2. unfold config in Hconfig2.
    injection Hconfig2 as _ _ Hc _ _ _ Hd _ _.
    unfold actions_named. rewrite Hc, Hd, Hcopy, Hdel.
    split; apply elem_of_app; right.
    + apply elem_of_app. left. by left.
    + apply elem_of_app. right. apply elem_of_app. right. by left.
Qed.

Lemma omap_fmap_compose {A B C} (f : B -> option C) (g : A -> B) (l : list A) :
  omap f (g <$> l) = omap (fun x => f (g x)) l.
Proof.
  induction l as [|x l IH]; [done|]. rewrite fmap_cons. cbn [omap list_omap].
  by rewrite IH.
Qed.

Lemma omap_lookup_seq {A} (l : list A) :
  omap (fun i : nat => l !! i) (seq 0 (length l)) = l.
Proof.
  induction l as [|x l IH]; [done|].
  cbn [length seq]. rewrite <- fmap_S_seq. cbn [omap list_omap lookup list_lookup].
  rewrite omap_fmap_compose. f_equal. exact IH.
Qed.

(** The results gathered in an order of completion are the results of
    the searches, in another order. *)
Lemma gathered_permutation futures done :
  valid_order (length futures) done -> gathered futures done ≡ₚ mjoin futures.
Proof.
  intros Hdone. unfold gathered, valid_order in *.
  rewrite Hdone. by rewrite omap_lookup_seq.
Qed.

(** X24. Which files are found does not depend on the order in which the
    searches complete, only their order does: in a run of a fresh object
    without a log directory that returns, the found files are, in some
    order, the results of [search_single_file] for the names read, each
    taken on the machine as it was when the run began. *)
Theorem found_files_whatever_the_order self sched w self' w' t :
  fresh self ->
  py_truthy (log_path self) = false ->
  valid_order (length (nonblank_lines (input_lines self w))) (search_done sched) ->
  passes_validation self ->
  process_files self sched w = (Ok self', w', t) ->
  found_files self'
  ≡ₚ mjoin ((fun name => search_single_file name (regex_filter self) w)
             <$> nonblank_lines (input_lines self w)).
Proof.
  intros (Hfound0 & _) Hquiet Hvalid Hpass Hrun.
  rewrite <- stripped_lines_nonblank in *.
  unfold process_files in Hrun.
  apply bind_Ok in Hrun as (names & w1 & t1 & r1 & Hread & Hrest & ->).
  assert (w1 = w) as ->.
  { unfold read_input_file in Hread.
    destruct (py_truthy (input_text self)); [by injection Hread as _ <- _|].
    destruct (negb _); [by injection Hread as _ <- _|].
    apply bind_Ok in Hread as (w0 & w2 & ? & ? & [= <- <- _] & Hread & _).
    destruct (open_read _ w); [by injection Hread as _ <- _|].
    apply bind_Ok in Hread as ([] & w3 & ? & ? & Hlog & [= _ <- _] & _).
    rewrite log_freely in Hlog by done. by injection Hlog as <- _. }
  apply read_input_file_Ok in Hread as [-> _].
  destruct (stripped_lines (input_lines self w)) as [|name names] eqn:Hnames.
  { apply bind_Ok in Hrest as (? & ? & ? & ? & _ & Hrest & _).
    apply bind_Ok in Hrest as (? & ? & ? & ? & _ & [= <- _ _] & _).
    by rewrite Hfound0. }
  cbn iota in Hrest. rewrite <- Hnames in Hrest |- *.
  assert (lang self <> None) as Hlang.
  { intros Hnone. unfold announce in Hrest.
    apply bind_Ok in Hrest as (? & ? & ? & ? & Hann & _).
    apply bind_Ok in Hann as (? & ? & ? & ? & Hsay & _).
    apply bind_Ok in Hsay as (? & ? & ? & ? & Hget & _).
    unfold get_string in Hget. by rewrite Hnone in Hget. }
  assert (speaks_freely self) as Hfree.
  { split; [|done]. by destruct (lang self). }
  apply bind_Ok in Hrest as ([] & w2 & t2 & r2 & Hann & Hrest & ->).
  destruct (returns_announce self (stripped_lines (input_lines self w)) w Hfree)
    as ([] & t2' & Hann').
  rewrite Hann' in Hann. injection Hann as <- _.
  apply bind_Ok in Hrest as (valid & w3 & t3 & r3 & Hval & Hrest & ->).
  destruct (returns_validate_regex self w Hfree) as (valid' & t3' & Hval').
  rewrite Hval' in Hval. injection Hval as -> <- _.
  apply validate_regex_Ok in Hval' as [_ Hval'].
  destruct valid; [|by destruct Hval' as [Hbad _]].
  unfold search_and_process in Hrest.
  apply bind_Ok in Hrest as ([self1 k] & w4 & t4 & t5 & Hpool & Hfin & ->).
  apply search_pool_Ok in Hpool as (Hfound1 & _).
  assert (found_files self' = found_files self1) as ->.
  { apply finish_Ok in Hfin as [(_ & -> & _)|(_ & (? & ? & ? & Hact) & _)]; [done|].
    by apply action_stage_Ok in Hact as [-> _]. }
  rewrite Hfound1, Hfound0. simpl. apply gathered_permutation.
  by rewrite length_fmap, Hnames.
Qed.

End Order_facts.

(** ** The order and the last line on the small runtime *)

Lemma actions_start_after_the_last_search_witness :
  exists before after,
    trace_of (process_files Runs.report_run Runs.one_action Sample.office)
    = before ++ after
    /\ Forall while_searching before /\ Forall after_searching after.
Proof.
  refine (actions_start_after_the_last_search Runs.report_run Runs.one_action
            Sample.office
            (Sample.returned
               (process_files Runs.report_run Runs.one_action Sample.office)
               Runs.report_run)
            (world_of (process_files Runs.report_run Runs.one_action Sample.office))
            (trace_of (process_files Runs.report_run Runs.one_action Sample.office))
            _).
  vm_compute. reflexivity.
Defined.

Lemma summary_names_the_configured_actions_witness :
  let run := process_files Runs.delete_all (Sample.in_order 1) Sample.office in
  last (logged (trace_of run))
  = Some (Format (GetString "messages.actions_taken")
            [ArgJoin [(GetString "messages.copied_files", Some 1);
                      (GetString "messages.moved_files", Some 1);
                      (GetString "messages.deleted_files", Some 1)]]).
Proof.
  refine (proj1 (summary_names_the_configured_actions Runs.delete_all
                   (Sample.in_order 1) Sample.office
                   (Sample.returned
                      (process_files Runs.delete_all (Sample.in_order 1)
                         Sample.office)
                      Runs.delete_all)
                   (world_of (process_files Runs.delete_all (Sample.in_order 1)
                                Sample.office))
                   (trace_of (process_files Runs.delete_all (Sample.in_order 1)
                                Sample.office))
                   _ _ _ _)).
  - by repeat split.
  - vm_compute. reflexivity.
  - vm_compute. discriminate.
  - vm_compute. discriminate.
Defined.

Lemma found_files_whatever_the_order_witness :
  let self' :=
    Sample.returned
      (process_files Runs.delete_all (Sample.in_order 1) Sample.office)
      Runs.delete_all in
  found_files self' ≡ₚ [("report.docx", "C:\Users\a\report.docx")].
Proof.
  refine (found_files_whatever_the_order Runs.delete_all (Sample.in_order 1)
            Sample.office _
            (world_of (process_files Runs.delete_all (Sample.in_order 1)
                         Sample.office))
            (trace_of (process_files Runs.delete_all (Sample.in_order 1)
                         Sample.office))
            _ _ _ _ _).
  - by repeat split.
  - reflexivity.
  - vm_compute. reflexivity.
  - intros H. vm_compute in H. discriminate.
  - vm_compute. reflexivity.
Defined.

(** * The error lines of the actions *)

Section Error_facts.
Context `{RT : Runtime}.

Lemma error_lines_app t1 t2 : error_lines (t1 ++ t2) = error_lines t1 ++ error_lines t2.
Proof. apply omap_app. Qed.

Lemma error_lines_nil t : Forall no_error_line t -> error_lines t = [].
Proof.
  induction 1 as [|e t He _ IH]; [done|].
  destruct e as [m| | | | |]; simpl in *; try done. by destruct m.
Qed.

Lemma hoare_log_line self m :
  no_error_line (EvLog m) -> hoare no_error_line (log self m) (fun _ => True).
Proof.
  intros Hm. unfold log. apply hoare_bind_any; [by apply hoare_emit|].
  intros _. destruct (log_path self) as [d|]; [|by apply hoare_ret].
  destruct (PyStr.truthy d); [|by apply hoare_ret]. by apply hoare_fs.
Qed.

Lemma hoare_say_line self key (msg : Template -> Message) :
  (forall t, no_error_line (EvLog (msg t))) ->
  hoare no_error_line (t ← get_string self key; log self (msg t)) (fun _ => True).
Proof.
  intros Hmsg. apply hoare_bind_any; [apply hoare_get_string|].
  intros t. by apply hoare_log_line.
Qed.

Lemma hoare_read_input_file_line self :
  hoare no_error_line (read_input_file self) (fun _ => True).
Proof.
  unfold read_input_file.
  destruct (py_truthy (input_text self)); [by apply hoare_ret|].
  destruct (negb _); [by apply hoare_ret|].
  apply hoare_bind_any; [by apply hoare_get_world|]. intros w.
  destruct (open_read _ w); [by apply hoare_ret|].
  apply hoare_bind_any; [by apply hoare_log_line|]. intros _. by apply hoare_ret.
Qed.

Lemma hoare_announce_line self filenames :
  hoare no_error_line (announce self filenames) (fun _ => True).
Proof.
  unfold announce.
  repeat (apply hoare_bind_any; [by apply hoare_say_line|]; intros _).
  apply hoare_for_each; [done|]. intros filename [] _. by apply hoare_log_line.
Qed.

Lemma hoare_validate_regex_line self :
  hoare no_error_line (validate_regex self) (fun _ => True).
Proof.
  unfold validate_regex.
  destruct (py_truthy (regex_filter self)); [|by apply hoare_ret].
  apply hoare_bind_any; [by apply hoare_emit|]. intros _.
  destruct (re_compile _); [by apply hoare_ret|].
  apply hoare_bind_any; [apply hoare_get_string|]. intros t.
  apply hoare_bind_any; [by apply hoare_log_line|]. intros _. by apply hoare_ret.
Qed.

Lemma hoare_report_line self total found_count :
  hoare no_error_line (report self total found_count) (fun _ => True).
Proof.
  unfold report.
  repeat (apply hoare_bind_any; [by apply hoare_say_line|]; intros _).
  apply hoare_bind_any.
  { destruct (failed_files self); [by apply hoare_ret|by apply hoare_say_line]. }
  intros _.
  assert (forall (b : bool) key (n : option nat),
    hoare no_error_line
      (if b then t ← get_string self key; ret [(t, n)] else ret [])
      (fun _ => True)) as Hitem.
  { intros [] key n; [|by apply hoare_ret].
    apply hoare_bind_any; [apply hoare_get_string|]. intros t. by apply hoare_ret. }
  repeat (apply hoare_bind_any; [apply Hitem|]; intros ?).
  destruct (_ ++ _); [by apply hoare_ret|by apply hoare_say_line].
Qed.

(** [process_file] writes one error line, for its file, when it does not
    return [True], and none when it does. *)
Lemma process_file_error_line self file_info w :
  error_lines (trace_of (process_file self file_info w))
  = match result_of (process_file self file_info w) with
    | Ok true => []
    | _ => [file_info.2]
    end.
Proof.
  rewrite process_file_plan.
  pose proof (exec_ops_events no_error_line (planned_ops self file_info) w
                ltac:(done)) as Hexec.
  destruct (exec_ops _ w) as [[[] w1] t]; simpl in Hexec.
  { simpl. by apply error_lines_nil. }
  assert (error_lines (trace_of (log self (ProcessError file_info.2) w1))
          = [file_info.2]) as Hlog.
  { unfold log. rewrite bind_run. simpl.
    destruct (log_path self) as [d|]; [|done].
    destruct (PyStr.truthy d); [|done]. unfold fs.
    by destruct (fs_exec _ w1) as [[] w2]. }
  destruct (log self _ w1) as [[r w2] t']. unfold trace_of, result_of in *.
  simpl in *. rewrite error_lines_app, (error_lines_nil t), Hlog by done.
  by destruct r.
Qed.

(** The error lines of the workers: one for each call that did not
    return [True]. A future keeps the result of its call. *)
Lemma run_workers_error_lines self order :
  forall (outcomes0 : gmap nat (Result bool)) w
         (outcomes : gmap nat (Result bool)) w' t,
    for_each order
      (fun (i : nat) (outcomes : gmap nat (Result bool)) =>
         match found_files self !! i with
         | Some file_info =>
             r ← capture (process_file self file_info);
             ret (<[i:=r]> outcomes)
         | None => ret outcomes
         end) outcomes0 w
    = (Ok outcomes, w', t) ->
    NoDup order ->
    Forall (fun i => i < length (found_files self)) order ->
    length (error_lines t)
    = length (filter (fun i => failed_at outcomes i = true) order)
    /\ forall j : nat, j ∉ order -> outcomes !! j = outcomes0 !! j.
Proof.
  set (body := fun (i : nat) (outcomes : gmap nat (Result bool)) => _).
  induction order as [|i order IH]; intros outcomes0 w outcomes w' t Hrun Hnodup Hlt.
  { injection Hrun as <- _ <-. done. }
  cbn [for_each] in Hrun.
  apply bind_Ok in Hrun as (outcomes1 & w1 & t1 & t2 & Hstep & Hrest & ->).
  apply NoDup_cons in Hnodup as [Hfresh Hnodup].
  apply Forall_cons_1 in Hlt as [Hi Hlt].
  destruct (lookup_lt_is_Some_2 _ _ Hi) as [file_info Hfile].
  pose proof (process_file_error_line self file_info w) as Hline.
  assert (exists r, outcomes1 = <[i:=r]> outcomes0
                    /\ error_lines t1 = match r with Ok true => [] | _ => [file_info.2] end)
    as (r & -> & Ht1).
  { subst body. cbv beta in Hstep. rewrite Hfile, bind_run in Hstep.
    unfold capture in Hstep.
    destruct (process_file self file_info w) as [[r w2] t3].
    injection Hstep as <- _ <-. exists r. split; [done|].
    by rewrite app_nil_r. }
  destruct (IH _ _ _ _ _ Hrest Hnodup Hlt) as [Hcount Hkeep].
  assert (outcomes !! i = Some r) as Hout.
  { rewrite (Hkeep i Hfresh). apply lookup_insert_eq. }
  assert (failed_at outcomes i = match r with Ok true => false | _ => true end)
    as Hfail.
  { unfold failed_at. rewrite Hout. by destruct r as [[]|]. }
  split.
  - rewrite error_lines_app, length_app, Hcount, Ht1, filter_cons.
    case_decide as Hd; rewrite Hfail in Hd; destruct r as [[]|]; simpl;
      done || congruence.
  - intros j [Hne Hj]%not_elem_of_cons. rewrite (Hkeep j Hj).
    by apply lookup_insert_ne.
Qed.

Lemma attributed_failed found outcomes done :
  length done <= length found ->
  Forall (fun future => exists result, outcomes !! future = Some (Ok result)) done ->
  length (attributed false found outcomes done)
  = length (filter (fun i => failed_at outcomes i = true) done).
Proof.
  intros Hlen Hall. revert found Hlen.
  induction Hall as [|future done [result Hout] _ IH]; intros found Hlen.
  { by rewrite attributed_nil. }
  destruct found as [|entry found]; simpl in Hlen; [lia|].
  assert (failed_at outcomes future = negb result) as Hfail.
  { unfold failed_at. by rewrite Hout. }
  rewrite attributed_cons, Hout, length_app, filter_cons, (IH found) by lia.
  case_decide as Hd; rewrite Hfail in Hd; destruct result; simpl;
    done || congruence.
Qed.

Lemma action_pool_error_lines phase self sched w self' w' t :
  action_pool phase self sched w = (Ok self', w', t) ->
  failed_files self = [] ->
  valid_order (length (found_files self)) (action_run sched) ->
  valid_order (length (found_files self)) (action_done sched) ->
  length (error_lines t) = length (failed_files self').
Proof.
  intros Hrun Hfailed Horder Hdone. unfold action_pool in Hrun.
  apply bind_Ok in Hrun as ([] & w1 & t1 & t2 & Hsub & Hrun & ->).
  apply bind_Ok in Hrun as (outcomes & w2 & t3 & t4 & Hwork & Hcollect & ->).
  assert (Forall no_error_line t1) as Hq1.
  { eapply hoare_trace; [|exact Hsub].
    apply (hoare_for_each _ (fun _ => True)); [done|].
    intros f [] _. by apply hoare_emit. }
  assert (Forall no_error_line t4) as Hq4.
  { eapply hoare_trace; [|exact Hcollect].
    by apply (hoare_collect_results _ (fun _ => True)). }
  apply collect_results_Ok in Hcollect as (_ & -> & _ & _ & Hlen & Hall).
  rewrite Hfailed. simpl. rewrite attributed_failed by done.
  unfold run_workers in Hwork.
  apply run_workers_error_lines in Hwork as [Hcount _].
  - rewrite !error_lines_app, (error_lines_nil t1), (error_lines_nil t4) by done.
    simpl. rewrite app_nil_r, Hcount. unfold valid_order in *.
    by rewrite Horder, Hdone.
  - unfold valid_order in Horder. rewrite Horder. apply NoDup_seq.
  - by apply valid_order_lt.
Qed.

(** X25. Every failure counted has its error line: in a run of a fresh
    object that found files and returns, [process_file] wrote as many
    error lines as there are files in the list of failed files, when
    each action ran once and completed once. *)
Theorem every_failure_has_its_error_line self sched w self' w' t :
  fresh self ->
  process_files self sched w = (Ok self', w', t) ->
  found_files self' <> [] ->
  valid_order (length (found_files self')) (action_run sched) ->
  valid_order (length (found_files self')) (action_done sched) ->
  length (error_lines t) = length (failed_files self').
Proof.
  intros (Hfound0 & _ & Hfailed0) Hrun Hfound Horder Hdone.
  unfold process_files in Hrun.
  apply bind_Ok in Hrun as (names & w1 & t1 & r1 & Hread & Hrest & ->).
  pose proof (hoare_trace _ _ _ _ _ _ _ (hoare_read_input_file_line self) Hread)
    as Hq1.
  destruct names as [|name names].
  { apply bind_Ok in Hrest as (? & ? & ? & ? & _ & Hrest & _).
    apply bind_Ok in Hrest as (? & ? & ? & ? & _ & [= <- _ _] & _). done. }
  apply bind_Ok in Hrest as ([] & w2 & t2 & r2 & Hann & Hrest & ->).
  pose proof (hoare_trace _ _ _ _ _ _ _ (hoare_announce_line self _) Hann) as Hq2.
  apply bind_Ok in Hrest as (valid & w3 & t3 & r3 & Hval & Hrest & ->).
  pose proof (hoare_trace _ _ _ _ _ _ _ (hoare_validate_regex_line self) Hval)
    as Hq3.
  destruct valid; [|by injection Hrest as <- _ _].
  unfold search_and_process in Hrest.
  apply bind_Ok in Hrest as ([self1 k] & w4 & t4 & r4 & Hpool & Hfin & ->).
  assert (Forall no_error_line t4) as Hq4.
  { eapply hoare_trace; [|exact Hpool].
    by apply (hoare_search_pool no_error_line (fun _ => True)). }
  apply search_pool_Ok in Hpool as (_ & _ & _ & _ & Hfailed1 & _).
  unfold finish in Hfin. destruct (found_files self1) as [|file_info found] eqn:Hf1.
  { apply bind_Ok in Hfin as (? & ? & ? & ? & _ & Hfin & _).
    apply bind_Ok in Hfin as (? & ? & ? & ? & _ & [= <- _ _] & _). done. }
  rewrite <- Hf1 in Hfin.
  apply bind_Ok in Hfin as (u1 & v1 & s1 & r5 & Hsay & Hfin & ->).
  pose proof (hoare_trace _ _ _ _ _ _ _
                (hoare_say_line self1 "messages.found_files" Heading ltac:(done))
                Hsay) as Hq5.
  apply bind_Ok in Hfin as (u2 & v2 & s2 & r6 & Hlist & Hfin & ->).
  assert (Forall no_error_line s2) as Hq6.
  { eapply hoare_trace; [|exact Hlist].
    apply (hoare_for_each _ (fun _ => True)); [done|].
    intros [? full_path] [] _. by apply hoare_log_line. }
  apply bind_Ok in Hfin as (self2 & v3 & s3 & r7 & Hact & Hfin & ->).
  apply bind_Ok in Hfin as (u4 & v4 & s4 & r8 & Hrep & [= <- _ <-] & ->).
  assert (Forall no_error_line s4) as Hq8.
  { eapply hoare_trace; [|exact Hrep]. apply hoare_report_line. }
  rewrite !error_lines_app.
  rewrite (error_lines_nil t1), (error_lines_nil t2), (error_lines_nil t3),
    (error_lines_nil t4), (error_lines_nil s1), (error_lines_nil s2),
    (error_lines_nil s4) by done.
  simpl. rewrite app_nil_r.
  pose proof (action_stage_Ok _ _ _ _ _ _ Hact) as [Hsame _].
  rewrite Hsame in Horder, Hdone.
  unfold action_stage in Hact. rewrite Hfailed0 in Hfailed1.
  destruct (delete_mode self1).
  { by eapply action_pool_error_lines. }
  destruct (_ || _).
  { by eapply action_pool_error_lines. }
  injection Hact as <- _ <-. by rewrite Hfailed1.
Qed.

End Error_facts.

(** ** The error lines on the small runtime *)

Lemma every_failure_has_its_error_line_witness :
  let self := Sample.searcher "gone.txt" None None false true None in
  let run := process_files self (Sample.in_order 1) Sample.office in
  error_lines (trace_of run) = ["C:\gone.txt"]
  /\ length (error_lines (trace_of run))
     = length (failed_files (Sample.returned run self)).
Proof.
  intros self run. split; [reflexivity|].
  refine (every_failure_has_its_error_line self (Sample.in_order 1) Sample.office
            (Sample.returned run self) (world_of run) (trace_of run) _ _ _ _ _).
  - by repeat split.
  - vm_compute. reflexivity.
  - vm_compute. discriminate.
  - vm_compute. reflexivity.
  - vm_compute. reflexivity.
Defined.

Lemma regex_filter_only_narrows_witness :
  search_single_file "report.docx" (Some "(") Sample.office = []
  /\ search_single_file "report.docx" (Some "Users") Sample.office
     = [("report.docx", "C:\Users\a\report.docx")]
  /\ search_single_file "report.docx" (Some "Windows") Sample.office = [].
Proof.
  split; [|split].
  - exact (proj2 (proj2 (regex_filter_only_narrows "report.docx" (Some "(")
                           Sample.office)) eq_refl).
  - exact (proj2 (proj2 (regex_filter_only_narrows "report.docx" (Some "Users")
                           Sample.office)) eq_refl).
  - exact (proj2 (proj2 (regex_filter_only_narrows "report.docx" (Some "Windows")
                           Sample.office)) eq_refl).
Defined.
